(** * Tiered AOD -> PM2.5 calibration service: model and verification

    A shallow embedding of the serving dispatch ([calibration_api/app.py]),
    the ensemble combiner ([processing/ensemble_model.py]), the training-time
    weight derivation ([processing/ensemble_calibrator.py]) and the advanced
    feature pipeline ([processing/advanced_feature_engineering.py]).

    Numbers: Python floats are idealised as exact rationals ([Qc], the
    canonical rationals, so that Leibniz equality is numeric equality), and
    a JSON number is one rational whether it is written as an int or as a
    float; the float NaN of pandas is a separate cell constructor, and the
    infinities are not modelled.  A request is what [request.get_json()]
    makes of it under Flask 2.1 or later.  Python dicts
    are [gmap]s over [string] where only lookups and whole-map traversals
    matter; a traversal follows [map_to_list] (Python follows insertion
    order, which is observable here only through which of several failing
    entries raises first). *)

From Stdlib Require Import QArith Qcanon Qround ZArith Lia Lqa String.
From stdpp Require Import base numbers option list strings pretty gmap fin_maps.

Set Warnings "-register-all".

Local Open Scope string_scope.
Local Open Scope Qc_scope.

(** ** Numbers *)

Definition qz (n : Z) : Qc := Qc_of_Z n.
Definition qfrac (n : Z) (d : positive) : Qc := Q2Qc (n # d).

(** [sum(xs)]. *)
Definition qsum (xs : list Qc) : Qc := foldr Qcplus 0 xs.

(** Round-half-to-even of a rational to an integer, as [rint]. *)
Definition rint (x : Qc) : Z :=
  let f := Qfloor x in
  let r := x - qz f in
  match Qccompare r (qfrac 1 2) with
  | Lt => f
  | Gt => (f + 1)%Z
  | Eq => if Z.even f then f else (f + 1)%Z
  end.

(** [round(x, 2)]. *)
Definition round2 (x : Qc) : Qc := qz (rint (x * qz 100)) / qz 100.

(** ** Exceptions and the result monad

    Every handler of the service wraps its work in [try ... except
    Exception as e]; a computation that can raise returns a [result]. *)

Inductive exn : Type :=
  | KeyError (key : string)
  | TypeError (msg : string)
  | ValueError (msg : string)
  | IndexError (msg : string)
  | AttributeError (msg : string)
  | ZeroDivisionError.

(** [str(e)]: a [KeyError] prints the [repr] of its key. *)
Definition str_exn (e : exn) : string :=
  match e with
  | KeyError k => "'" +:+ k +:+ "'"
  | TypeError m | ValueError m | IndexError m | AttributeError m => m
  | ZeroDivisionError => "float division by zero"
  end.

Inductive result (A : Type) : Type :=
  | Ok (a : A)
  | Raise (e : exn).
Arguments Ok {A} a.
Arguments Raise {A} e.

#[global] Instance result_ret : MRet result := λ A a, Ok a.
#[global] Instance result_bind : MBind result := λ A B f m,
  match m with Ok a => f a | Raise e => Raise e end.
#[global] Instance result_fmap : FMap result := λ A B f m,
  match m with Ok a => Ok (f a) | Raise e => Raise e end.

Definition is_ok {A} (r : result A) : bool :=
  match r with Ok _ => true | Raise _ => false end.

Definition of_option {A} (o : option A) (e : exn) : result A :=
  match o with Some a => Ok a | None => Raise e end.

(** ** JSON bodies (the values [request.get_json()] can return) *)

Inductive json : Type :=
  | PyNone
  | PyBool (b : bool)
  | PyNum (q : Qc)
  | PyStr (s : string)
  | PyList (l : list json)
  | PyDict (kv : list (string * json)).

(** Python truth value: what [if not data] and [a and b] test. *)
Class Truthy (A : Type) := truthy : A → bool.

#[global] Instance json_truthy : Truthy json := λ v,
  match v with
  | PyNone => false
  | PyBool b => b
  | PyNum q => negb (bool_decide (q = 0))
  | PyStr s => negb (bool_decide (s = ""))
  | PyList l => match l with [] => false | _ => true end
  | PyDict kv => match kv with [] => false | _ => true end
  end.

#[global] Instance list_truthy {A} : Truthy (list A) := λ l,
  match l with [] => false | _ => true end.

(** A global that is [None] is falsy; a loaded one has its own truth. *)
#[global] Instance option_truthy {A} `{Truthy A} : Truthy (option A) := λ o,
  match o with None => false | Some a => truthy a end.

Fixpoint dict_get (kv : list (string * json)) (k : string) : option json :=
  match kv with
  | [] => None
  | (k', v) :: rest => if decide (k' = k) then Some v else dict_get rest k
  end.

(** [data[key]] for a string key.  A number without a fractional part is
    taken for an [int] where the message names the type. *)
Definition subscript (data : json) (key : string) : result json :=
  match data with
  | PyDict kv => of_option (dict_get kv key) (KeyError key)
  | PyList _ => Raise (TypeError "list indices must be integers or slices, not str")
  | PyStr _ => Raise (TypeError "string indices must be integers")
  | PyNone => Raise (TypeError "'NoneType' object is not subscriptable")
  | PyBool _ => Raise (TypeError "'bool' object is not subscriptable")
  | PyNum q =>
      Raise (TypeError (if decide (q = qz (Qfloor q))
                        then "'int' object is not subscriptable"
                        else "'float' object is not subscriptable"))
  end.

(** Conversion of one entry when numpy/scikit-learn validate an input
    array as numeric: a number or a boolean.  Strings are rejected here
    (a string that spells a number, which the conversion to a float array
    would accept, is not taken for a number). *)
Definition to_float (v : json) : result Qc :=
  match v with
  | PyNum q => Ok q
  | PyBool b => Ok (if b then 1 else 0)
  | _ => Raise (ValueError "could not convert to float")
  end.

(** ** Fitted artifacts

    [StandardScaler]: [transform] maps each row to [(x - mean_) / scale_]
    and rejects rows whose width is not the fitted one. *)

Record StandardScaler : Type := {
  mean_ : list Qc;
  scale_ : list Qc;
}.

Definition n_features_in_ (s : StandardScaler) : nat := length (mean_ s).

Definition scale_row (s : StandardScaler) (row : list Qc) : list Qc :=
  zip_with (λ x ms, (x - ms.1) / ms.2) row (zip (mean_ s) (scale_ s)).

(** The argument of [transform] and [predict]: a numpy array (it has a
    [shape]; [shape[1]] is kept explicitly so that an array without rows
    still has a width) or a plain Python list of rows, whose entries are
    still the raw JSON values. *)
Inductive array_like : Type :=
  | NdArray (ncols : nat) (rows : list (list Qc))
  | PyRows (rows : list (list json)).

(** Input validation of scikit-learn ([check_array]): every entry numeric,
    and at least one row. *)
Definition as_float_rows (X : array_like) : result (list (list Qc)) :=
  rows ← match X with
         | NdArray _ rows => Ok rows
         | PyRows rows => mapM (mapM to_float) rows
         end;
  match rows with
  | [] => Raise (ValueError "Found array with 0 sample(s) while a minimum of 1 is required")
  | _ => Ok rows
  end.

Definition check_width (n : nat) (rows : list (list Qc)) : result (list (list Qc)) :=
  if forallb (λ row, Nat.eqb (length row) n) rows then Ok rows
  else Raise (ValueError "X has a different number of features than expected").

Definition transform (s : StandardScaler) (X : array_like) : result array_like :=
  rows ← as_float_rows X;
  rows ← check_width (n_features_in_ s) rows;
  Ok (NdArray (n_features_in_ s) (map (scale_row s) rows)).

(** A fitted scikit-learn regressor: a function of one row, applied to
    each row.  [reg_len] is the value of [__len__] for the estimators that
    define it (the tree ensembles), which decides their truth value. *)
Record Regressor : Type := {
  reg_n_features : nat;
  reg_len : option nat;
  reg_fn : list Qc → Qc;
}.

Definition reg_predict (m : Regressor) (X : array_like) : result (list Qc) :=
  rows ← as_float_rows X;
  rows ← check_width (reg_n_features m) rows;
  Ok (map (reg_fn m) rows).

#[global] Instance regressor_truthy : Truthy Regressor := λ m,
  match reg_len m with Some O => false | _ => true end.
#[global] Instance scaler_truthy : Truthy StandardScaler := λ _, true.

(** ** The ensemble combiner ([ensemble_model.py]) *)

Record score : Type := { r2 : Qc; mae : Qc }.

Record EnsembleModel : Type := {
  models : gmap string Regressor;
  weights : gmap string Qc;
  scaler : StandardScaler;
  scores : option (gmap string score);
}.

#[global] Instance ensemble_truthy : Truthy EnsembleModel := λ _, true.

(** What [sum(...)] over arrays returns: the integer [0] it starts from
    when there is nothing to add, an array otherwise. *)
Inductive pred_out : Type :=
  | PInt (z : Z)
  | PArr (values : list Qc).

(** [acc + w * p] with numpy broadcasting of the scalar start value. *)
Definition add_weighted (acc : pred_out) (w : Qc) (p : list Qc) : pred_out :=
  match acc with
  | PInt z => PArr ((λ y, qz z + w * y) <$> p)
  | PArr a => PArr (zip_with (λ x y, x + w * y) a p)
  end.

Module EnsembleModel.

(** [EnsembleModel(models, weights, scaler)]: the scores are set later. *)
Definition __init__ (models : gmap string Regressor) (weights : gmap string Qc)
    (scaler : StandardScaler) : EnsembleModel :=
  {| models := models; weights := weights; scaler := scaler; scores := None |}.

(** [if hasattr(X, 'shape') and X.shape[1] == 4: X_scaled =
    self.scaler.transform(X) else: X_scaled = X]. *)
Definition scale_input (self : EnsembleModel) (X : array_like) : result array_like :=
  match X with
  | NdArray 4 _ => transform (scaler self) X
  | _ => Ok X
  end.

(** [predictions[name] = model.predict(X_scaled)], one turn of the loop. *)
Definition run_step (X_scaled : array_like)
    (acc : result (gmap string (list Qc))) (item : string * Regressor)
    : result (gmap string (list Qc)) :=
  predictions ← acc;
  p ← reg_predict item.2 X_scaled;
  Ok (<[item.1 := p]> predictions).

(** [for name, model in self.models.items(): predictions[name] =
    model.predict(X_scaled)]. *)
Definition run_models (self : EnsembleModel) (X_scaled : array_like)
    : result (gmap string (list Qc)) :=
  foldl (run_step X_scaled) (Ok ∅) (map_to_list (models self)).

(** One term [self.weights[name] * predictions[name]] added to the sum. *)
Definition sum_step (ws : gmap string Qc) (predictions : gmap string (list Qc))
    (acc : result pred_out) (name : string) : result pred_out :=
  a ← acc;
  w ← of_option (ws !! name) (KeyError name);
  p ← of_option (predictions !! name) (KeyError name);
  Ok (add_weighted a w p).

(** [sum(self.weights[name] * predictions[name] for name in
    self.models.keys())]. *)
Definition weighted_sum (self : EnsembleModel)
    (predictions : gmap string (list Qc)) : result pred_out :=
  foldl (sum_step (weights self) predictions) (Ok (PInt 0))
        (map_to_list (models self)).*1.

Definition predict (self : EnsembleModel) (X : array_like) : result pred_out :=
  X_scaled ← scale_input self X;
  predictions ← run_models self X_scaled;
  weighted_sum self predictions.

Definition set_scores (self : EnsembleModel) (s : gmap string score) : EnsembleModel :=
  {| models := models self; weights := weights self;
     scaler := scaler self; scores := Some s |}.

(** The three entries of the dict [get_model_info] returns. *)
Record model_info : Type := {
  info_weights : gmap string Qc;
  info_models : list string;
  info_scores : option (gmap string score);
}.

Definition get_model_info (self : EnsembleModel) : model_info :=
  {| info_weights := weights self;
     info_models := (map_to_list (models self)).*1;
     info_scores := scores self |}.

End EnsembleModel.

(** ** Weight derivation at training time ([create_ensemble_model])

    The part of the training script between the evaluation loop and the
    construction of the [EnsembleModel], as a function of the score record
    [model_scores] the evaluation loop has filled. *)

(** [max(model_scores.values(), key=lambda x: x['r2'])['r2']]. *)
Definition best_r2_of (values : list score) : result Qc :=
  match values with
  | [] => Raise (ValueError "max() arg is an empty sequence")
  | s :: rest =>
      Ok (foldl (λ best x, if decide (best < r2 x) then r2 x else best) (r2 s) rest)
  end.

(** [scores['r2'] / best_r2 if best_r2 > 0 else 0.25]. *)
Definition raw_weight (best_r2 : Qc) (scores : score) : Qc :=
  if decide (0 < best_r2) then r2 scores / best_r2 else qfrac 1 4.

(** [weights[name] = weight; total_weight += weight], one turn of the
    loop over [model_scores.items()]. *)
Definition raw_step (best_r2 : Qc) (acc : gmap string Qc * Qc)
    (item : string * score) : gmap string Qc * Qc :=
  let weight := raw_weight best_r2 item.2 in
  (<[item.1 := weight]> acc.1, acc.2 + weight).

(** [for name, scores in model_scores.items(): ...], from [weights = {}]
    and [total_weight = 0]. *)
Definition raw_weights (best_r2 : Qc) (model_scores : gmap string score)
    : gmap string Qc * Qc :=
  foldl (raw_step best_r2) (∅, 0) (map_to_list model_scores).

(** [weights[name] /= total_weight]; the float division raises on a zero
    total. *)
Definition normalize_step (total_weight : Qc) (acc : result (gmap string Qc))
    (name : string) : result (gmap string Qc) :=
  ws ← acc;
  w ← of_option (ws !! name) (KeyError name);
  if decide (total_weight = 0) then Raise ZeroDivisionError
  else Ok (<[name := w / total_weight]> ws).

(** [for name in weights: weights[name] /= total_weight]. *)
Definition normalize_weights (weights : gmap string Qc) (total_weight : Qc)
    : result (gmap string Qc) :=
  foldl (normalize_step total_weight) (Ok weights) (map_to_list weights).*1.

(** The weight map [create_ensemble_model] hands to [EnsembleModel], or
    the exception its [try] block catches. *)
Definition derive_weights (model_scores : gmap string score) : result (gmap string Qc) :=
  best_r2 ← best_r2_of (map_to_list model_scores).*2;
  let '(weights, total_weight) := raw_weights best_r2 model_scores in
  normalize_weights weights total_weight.

(** [sum(weights.values())]. *)
Definition weight_total (weights : gmap string Qc) : Qc :=
  qsum (map_to_list weights).*2.

(** ** Data frames ([pandas])

    A cell is a float (with its NaN), a timestamp in seconds since the
    epoch, a string or category label, or any other Python object.  A frame
    is its number of rows and its columns by name; every column has
    [nrows] cells. *)

Inductive cell : Type :=
  | Num (q : Qc)
  | NaN
  | Time (t : Z)
  | Str (s : string)
  | Obj.

(** A column. *)
Abbreviation series := (list cell).

Record DataFrame : Type := {
  nrows : nat;
  columns : gmap string series;
}.

Definition has_col (df : DataFrame) (name : string) : bool :=
  bool_decide (is_Some (columns df !! name)).

(** [df[name]]. *)
Definition col (df : DataFrame) (name : string) : result series :=
  of_option (columns df !! name) (KeyError name).

(** [df[name] = values]. *)
Definition set_col (df : DataFrame) (name : string) (values : series) : DataFrame :=
  {| nrows := nrows df; columns := <[name := values]> (columns df) |}.

Definition unsupported : exn := TypeError "unsupported operand type(s)".

(** Element-wise float arithmetic; NaN propagates, anything that is not a
    float raises. *)
Definition num1 (f : Qc → cell) (c : cell) : result cell :=
  match c with
  | Num x => Ok (f x)
  | NaN => Ok NaN
  | _ => Raise unsupported
  end.

Definition num2 (f : Qc → Qc → Qc) (a b : cell) : result cell :=
  match a, b with
  | Num x, Num y => Ok (Num (f x y))
  | Num _, NaN | NaN, Num _ | NaN, NaN => Ok NaN
  | _, _ => Raise unsupported
  end.

Definition series_map (f : cell → result cell) (s : series) : result series :=
  mapM f s.

Definition series_zip (f : cell → cell → result cell) (a b : series) : result series :=
  mapM (λ p, f p.1 p.2) (zip a b).

(** [np.clip(x, lo, hi)]. *)
Definition clip (lo hi x : Qc) : Qc :=
  if decide (x < lo) then lo else if decide (hi < x) then hi else x.

(** *** Calendar fields of a timestamp (proleptic Gregorian, UTC) *)

Definition days_of (t : Z) : Z := (t / 86400)%Z.
Definition hour_of (t : Z) : Z := ((t mod 86400) / 3600)%Z.
(** Monday is 0; the epoch day was a Thursday. *)
Definition dayofweek_of (t : Z) : Z := ((days_of t + 3) mod 7)%Z.

(** Year and month of a day number. *)
Definition civil_of_days (days : Z) : Z * Z :=
  (let z := days + 719468 in
   let era := z / 146097 in
   let doe := z - era * 146097 in
   let yoe := (doe - doe / 1460 + doe / 36524 - doe / 146096) / 365 in
   let doy := doe - (365 * yoe + yoe / 4 - yoe / 100) in
   let mp := (5 * doy + 2) / 153 in
   let m := if mp <? 10 then mp + 3 else mp - 9 in
   let y := yoe + era * 400 in
   (if m <=? 2 then y + 1 else y, m))%Z.

(** Day number of the first of January of year [y]. *)
Definition days_of_jan1 (y : Z) : Z :=
  (let y' := y - 1 in
   let era := y' / 400 in
   let yoe := y' - era * 400 in
   let doy := (153 * 10 + 2) / 5 in
   era * 146097 + (yoe * 365 + yoe / 4 - yoe / 100 + doy) - 719468)%Z.

Definition month_of (t : Z) : Z := (civil_of_days (days_of t)).2.
Definition dayofyear_of (t : Z) : Z :=
  (days_of t - days_of_jan1 (civil_of_days (days_of t)).1 + 1)%Z.

(** [pd.date_range(start='2025-06-01', periods=n, freq='H')]. *)
Definition date_range_2025_06_01 (n : nat) : series :=
  (λ i, Time (1748736000 + 3600 * Z.of_nat i)) <$> seq 0 n.

(** [pd.cut(hour, bins=[0, 6, 12, 18, 24], labels=[...],
    include_lowest=True)]. *)
Definition time_category_of (hour : Qc) : cell :=
  if decide (hour < 0) then NaN
  else if decide (hour ≤ qz 6) then Str "night"
  else if decide (hour ≤ qz 12) then Str "morning"
  else if decide (hour ≤ qz 18) then Str "afternoon"
  else if decide (hour ≤ qz 24) then Str "evening"
  else NaN.

(** *** Order-dependent operations on a series *)

(** [s.shift(lag)]. *)
Definition shift (lag : nat) (s : series) : series :=
  take (length s) (replicate lag NaN ++ s).

(** The trailing window of [w] positions that ends at position [i]. *)
Definition window_at (w i : nat) (s : series) : series :=
  drop (S i - w) (take (S i) s).

(** The observations of a window: NaN is skipped, a non-float raises. *)
Definition window_nums (win : series) : result (list Qc) :=
  foldr (λ c acc,
           xs ← acc;
           match c with
           | Num x => Ok (x :: xs)
           | NaN => Ok xs
           | _ => Raise (TypeError "No numeric types to aggregate")
           end)
        (Ok []) win.

Definition mean (xs : list Qc) : Qc := qsum xs / qz (Z.of_nat (length xs)).
(** Sample variance ([ddof=1]). *)
Definition variance (xs : list Qc) : Qc :=
  qsum ((λ x, (x - mean xs) * (x - mean xs)) <$> xs) / qz (Z.of_nat (length xs) - 1).

(** [s.rolling(w, min_periods=1).mean()]. *)
Definition rolling_mean (w : nat) (s : series) : result series :=
  mapM (λ i, xs ← window_nums (window_at w i s);
             Ok (match xs with [] => NaN | _ => Num (mean xs) end))
       (seq 0 (length s)).

(** [bfill]: a NaN takes the next defined value below it, if any. *)
Fixpoint bfill (s : series) : series :=
  match s with
  | [] => []
  | c :: rest =>
      let rest' := bfill rest in
      match c with
      | NaN => default NaN (head rest') :: rest'
      | _ => c :: rest'
      end
  end.

(** [ffill]: a NaN takes the last defined value above it, if any. *)
Fixpoint ffill_from (last : cell) (s : series) : series :=
  match s with
  | [] => []
  | c :: rest =>
      let c' := match c with NaN => last | _ => c end in
      c' :: ffill_from c' rest
  end.
Definition ffill (s : series) : series := ffill_from NaN s.

(** [s.fillna(0)]. *)
Definition fillna0 (s : series) : series :=
  (λ c, match c with NaN => Num 0 | _ => c end) <$> s.

(** *** Sorting rows by a timestamp column *)

(** Timestamps ascending, missing ones last. *)
Definition time_lt (a b : cell) : bool :=
  match a, b with
  | Time x, Time y => (x <? y)%Z
  | Time _, _ => true
  | _, _ => false
  end.

Fixpoint insert_by_time (x : cell * nat) (l : list (cell * nat)) : list (cell * nat) :=
  match l with
  | [] => [x]
  | y :: rest =>
      if time_lt y.1 x.1 then y :: insert_by_time x rest else x :: y :: rest
  end.

(** The row order after the sort.  Rows with equal keys keep their order
    here; the quicksort pandas uses by default keeps it on short frames
    only, and nothing below is stated about the order of such rows. *)
Definition sort_order (keys : series) : list nat :=
  (foldr insert_by_time [] (zip keys (seq 0 (length keys)))).*2.

Definition reindex (order : list nat) (s : series) : series :=
  (λ i, default NaN (s !! i)) <$> order.

(** [df.sort_values(by)]. *)
Definition sort_values (df : DataFrame) (by_ : string) : result DataFrame :=
  keys ← col df by_;
  Ok {| nrows := nrows df; columns := reindex (sort_order keys) <$> columns df |}.

(** ** The advanced feature pipeline ([advanced_feature_engineering.py]) *)

(** The functions of numpy and pandas that have no rational value: they
    are taken as given.  [np_sin_turn x] stands for [np.sin(2 * np.pi * x)]
    and [np_cos_turn] likewise; [np_log1p] and [np_sqrt] return NaN outside
    their domain; [parse_datetime] is [pd.to_datetime] on a string.  At -1
    [np.log1p] is minus infinity, which is not a cell of this model: the
    value of [np_log1p] there stands for no value of numpy, and what is
    proved of the values of [np_log1p] is proved for arguments other
    than -1. *)
Record NumLib : Type := {
  np_log1p : Qc → cell;
  np_sqrt : Qc → cell;
  np_sin_turn : Qc → Qc;
  np_cos_turn : Qc → Qc;
  parse_datetime : string → result Z;
}.

Section FeatureEngineering.
Variable lib : NumLib.

(** [pd.to_datetime] on one cell (a number counts nanoseconds). *)
Definition to_datetime (c : cell) : result cell :=
  match c with
  | Time t => Ok (Time t)
  | NaN => Ok NaN
  | Str s => t ← parse_datetime lib s; Ok (Time t)
  | Num q => Ok (Time (Qfloor (q / qz 1000000000)))
  | Obj => Raise (TypeError "is not convertible to datetime")
  end.

(** A field of the [.dt] accessor. *)
Definition dt_field (f : Z → Z) (c : cell) : result cell :=
  match c with
  | Time t => Ok (Num (qz (f t)))
  | NaN => Ok NaN
  | _ => Raise (AttributeError "Can only use .dt accessor with datetimelike values")
  end.

(** [.isin([5, 6]).astype(int)]. *)
Definition isin_5_6 (c : cell) : cell :=
  match c with
  | Num x => Num (if decide (x = qz 5 ∨ x = qz 6) then 1 else 0)
  | _ => Num 0
  end.

(** Float arithmetic of a series with scalars. *)
Definition smap (f : Qc → Qc) (s : series) : result series :=
  series_map (num1 (λ x, Num (f x))) s.

(** [s.rolling(w, min_periods=1).std()]: undefined on fewer than two
    observations. *)
Definition rolling_std (w : nat) (s : series) : result series :=
  mapM (λ i, xs ← window_nums (window_at w i s);
             Ok (match xs with
                 | [] | [_] => NaN
                 | _ => np_sqrt lib (variance xs)
                 end))
       (seq 0 (length s)).

(** [df[name] = values], where computing [values] may raise. *)
Definition assign (df : DataFrame) (name : string) (values : result series)
    : result DataFrame :=
  v ← values; Ok (set_col df name v).

Definition add_recorded_at (df : DataFrame) : result DataFrame :=
  if has_col df "recorded_at" then
    assign df "recorded_at" (c ← col df "recorded_at"; series_map to_datetime c)
  else if has_col df "date" then
    assign df "recorded_at" (c ← col df "date"; series_map to_datetime c)
  else
    Ok (set_col df "recorded_at" (date_range_2025_06_01 (nrows df))).

Definition add_humidity (df : DataFrame) : result DataFrame :=
  if has_col df "humidity" then
    df ← (if has_col df "pressure" then
            assign df "humidity_pressure"
              (h ← col df "humidity"; p ← col df "pressure";
               series_zip (num2 Qcmult) h p)
          else Ok df);
    assign df "temp_humidity"
      (t ← col df "avg_temp"; h ← col df "humidity"; series_zip (num2 Qcmult) t h)
  else
    df ← assign df "humidity"
      (mt ← col df "max_temp";
       a ← smap (λ x, x - qz 25) mt;
       b ← smap (λ x, x * qfrac (-3) 2) a;
       c ← smap (λ x, qz 50 + x) b;
       rf ← col df "rainfall";
       d ← smap (λ x, x * qz 2) rf;
       series_zip (num2 Qcplus) c d);
    assign df "humidity" (h ← col df "humidity"; smap (clip (qz 20) (qz 90)) h).

(** [for lag in [1, 2, 3, 6, 12, 24]: ...]. *)
Definition add_lags (df : DataFrame) : result DataFrame :=
  foldl (λ acc lag,
           df ← acc;
           df ← assign df ("aod_lag_" +:+ pretty lag)
                  (s ← col df "satellite_aod"; Ok (shift lag s));
           if has_col df "ground_truth_pm25" then
             assign df ("pm25_lag_" +:+ pretty lag)
               (s ← col df "ground_truth_pm25"; Ok (shift lag s))
           else Ok df)
        (Ok df) [1; 2; 3; 6; 12; 24]%nat.

(** [for window in [3, 6, 12, 24]: ...]. *)
Definition add_rolling (df : DataFrame) : result DataFrame :=
  foldl (λ acc window,
           df ← acc;
           df ← assign df ("aod_rolling_" +:+ pretty window)
                  (s ← col df "satellite_aod"; rolling_mean window s);
           assign df ("temp_rolling_" +:+ pretty window)
             (s ← col df "avg_temp"; rolling_mean window s))
        (Ok df) [3; 6; 12; 24]%nat.

Definition create_advanced_features (df : DataFrame) : result DataFrame :=
  df ← add_recorded_at df;
  (* temporal features *)
  df ← assign df "hour" (c ← col df "recorded_at"; series_map (dt_field hour_of) c);
  df ← assign df "day_of_week"
         (c ← col df "recorded_at"; series_map (dt_field dayofweek_of) c);
  df ← assign df "month" (c ← col df "recorded_at"; series_map (dt_field month_of) c);
  df ← assign df "is_weekend" (c ← col df "day_of_week"; Ok (map isin_5_6 c));
  df ← assign df "time_category"
         (c ← col df "hour"; series_map (num1 time_category_of) c);
  (* meteorological interactions *)
  df ← assign df "temp_range"
         (a ← col df "max_temp"; b ← col df "min_temp"; series_zip (num2 Qcminus) a b);
  df ← assign df "avg_temp"
         (a ← col df "max_temp"; b ← col df "min_temp";
          s ← series_zip (num2 Qcplus) a b; smap (λ x, x / qz 2) s);
  df ← add_humidity df;
  (* AOD transformations *)
  df ← assign df "aod_log"
         (c ← col df "satellite_aod"; series_map (num1 (np_log1p lib)) c);
  df ← assign df "aod_squared" (c ← col df "satellite_aod"; smap (λ x, x * x) c);
  df ← assign df "aod_sqrt"
         (c ← col df "satellite_aod"; series_map (num1 (np_sqrt lib)) c);
  (* weather-AOD interactions *)
  df ← assign df "aod_temp_interaction"
         (a ← col df "satellite_aod"; t ← col df "avg_temp";
          series_zip (num2 Qcmult) a t);
  df ← assign df "aod_rainfall_interaction"
         (a ← col df "satellite_aod"; rf ← col df "rainfall";
          r1 ← smap (λ x, 1 + x) rf; series_zip (num2 Qcmult) a r1);
  df ← sort_values df "recorded_at";
  df ← add_lags df;
  df ← add_rolling df;
  (* volatility *)
  df ← assign df "aod_volatility_3h" (s ← col df "satellite_aod"; rolling_std 3 s);
  df ← assign df "temp_volatility_6h" (s ← col df "avg_temp"; rolling_std 6 s);
  (* seasonal and diurnal patterns *)
  df ← assign df "day_of_year"
         (c ← col df "recorded_at"; series_map (dt_field dayofyear_of) c);
  df ← assign df "season_sin"
         (c ← col df "day_of_year";
          smap (λ d, np_sin_turn lib (d / qfrac 36525 100)) c);
  df ← assign df "season_cos"
         (c ← col df "day_of_year";
          smap (λ d, np_cos_turn lib (d / qfrac 36525 100)) c);
  df ← assign df "hour_sin"
         (c ← col df "hour"; smap (λ h, np_sin_turn lib (h / qz 24)) c);
  df ← assign df "hour_cos"
         (c ← col df "hour"; smap (λ h, np_cos_turn lib (h / qz 24)) c);
  (* df.fillna(method='bfill').fillna(method='ffill') *)
  Ok {| nrows := nrows df; columns := (ffill ∘ bfill) <$> columns df |}.

End FeatureEngineering.

(** ** The calibration service ([calibration_api/app.py]) *)

(** The module-level globals after [load_models()]: [None] until the
    artifact has been loaded. *)
Record Registry : Type := {
  basic_model : option Regressor;
  basic_scaler : option StandardScaler;
  ensemble_model : option EnsembleModel;
  advanced_model : option Regressor;
  advanced_scaler : option StandardScaler;
  advanced_features : option (list string);
}.

(** A response: the JSON body and the HTTP status. *)
Definition response : Type := json * Z.

Definition jsonify (body : json) : response := (body, 200%Z).

Definition error_body (msg : string) : json := PyDict [("error", PyStr msg)].

Definition none_has_no (attr : string) : exn :=
  AttributeError ("'NoneType' object has no attribute '" +:+ attr +:+ "'").

(** [np.array([[...]])] of JSON values, as the numeric array the scaler
    accepts; an entry that is not a number makes the later validation
    raise, which is raised here. *)
Definition np_array (rows : list (list json)) : result array_like :=
  rows' ← mapM (mapM to_float) rows;
  Ok (NdArray (length (default [] (head rows'))) rows').

(** [a[0]] on a prediction array. *)
Definition first (a : list Qc) : result Qc :=
  of_option (head a) (IndexError "index 0 is out of bounds for axis 0 with size 0").

(** [ensemble_pred[0]]. *)
Definition first_out (p : pred_out) : result Qc :=
  match p with
  | PArr a => first a
  | PInt _ => Raise (TypeError "'int' object is not subscriptable")
  end.

(** The cell a JSON value becomes in the one-row frame
    [pd.DataFrame([{...}])]: a number gives a numeric column and a boolean
    one that counts as 0 or 1 (the arithmetic of two boolean columns with
    each other, which numpy treats apart, is not modelled); [None], like a
    list or a dict, gives an object column, on which arithmetic raises. *)
Definition cell_of_json (v : json) : cell :=
  match v with
  | PyNum q => Num q
  | PyBool b => Num (if b then 1 else 0)
  | PyStr s => Str s
  | PyNone | PyList _ | PyDict _ => Obj
  end.

(** The numeric value of a cell when a frame is validated as an array. *)
Definition cell_to_float (c : cell) : result Qc :=
  match c with
  | Num q => Ok q
  | NaN => Raise (ValueError "Input contains NaN")
  | _ => Raise (ValueError "could not convert to float")
  end.

(** The rows of the frame made of [cols], as a numeric array. *)
Definition frame_array (n : nat) (cols : list series) : result array_like :=
  rows ← mapM (λ i, mapM (λ c, cell_to_float (default NaN (c !! i))) cols) (seq 0 n);
  Ok (NdArray (length cols) rows).

(** [x is not None]. *)
Definition is_not_none {A} (o : option A) : bool :=
  match o with Some _ => true | None => false end.

Definition weights_json (w : gmap string Qc) : json :=
  PyDict ((λ kv, (kv.1, PyNum kv.2)) <$> map_to_list w).

(** What a view reads of the HTTP request: a content type that is not
    JSON (as when the request has no body at all), a JSON content type
    whose body is empty or is not valid JSON, or a body that parses to
    [data] (to [PyNone] for the literal [null]). *)
Inductive Request : Type :=
  | NotJson
  | BadJson
  | JsonBody (data : json).

(** The HTTP exceptions of werkzeug that [get_json] raises. *)
Inductive HTTPException : Type :=
  | UnsupportedMediaType
  | BadRequest.

Definition code (e : HTTPException) : Z :=
  match e with UnsupportedMediaType => 415 | BadRequest => 400 end.

(** [request.get_json()] without arguments (Flask 2.1 and later): it
    raises 415 when the content type is not JSON and 400 when the body
    does not parse; nothing in a view catches either. *)
Definition request_get_json (request : Request) : HTTPException + json :=
  match request with
  | NotJson => inl UnsupportedMediaType
  | BadJson => inl BadRequest
  | JsonBody data => inr data
  end.

(** What the client gets from a view: the response the view returned, or,
    when an HTTP exception left the view, the error page Flask renders for
    it, an HTML page with the status [code e]. *)
Inductive reply : Type :=
  | Returned (r : response)
  | Aborted (e : HTTPException).

Section App.
Variable lib : NumLib.
Variable reg : Registry.
(** [pd.Timestamp.now()] at the time of the request. *)
Variable now : Z.

Definition calibrate_with_basic_model (data : json) : response :=
  let attempt : result json :=
    f1 ← subscript data "satellite_aod";
    f2 ← subscript data "min_temp";
    f3 ← subscript data "max_temp";
    f4 ← subscript data "rainfall";
    features ← np_array [[f1; f2; f3; f4]];
    scaler ← of_option (basic_scaler reg) (none_has_no "transform");
    features_scaled ← transform scaler features;
    model ← of_option (basic_model reg) (none_has_no "predict");
    p ← reg_predict model features_scaled;
    calibrated_pm25 ← first p;
    Ok (PyDict [("calibrated_pm25", PyNum (round2 calibrated_pm25));
                ("source", PyStr "basic_model");
                ("model_version", PyStr "1.0");
                ("confidence", PyStr "standard")]) in
  match attempt with
  | Ok body => jsonify body
  | Raise e => (error_body ("Basic model error: " +:+ str_exn e), 500%Z)
  end.

Definition calibrate_with_ensemble_model (data : json) : response :=
  let attempt : result json :=
    f1 ← subscript data "satellite_aod";
    f2 ← subscript data "min_temp";
    f3 ← subscript data "max_temp";
    f4 ← subscript data "rainfall";
    let features := [f1; f2; f3; f4] in
    ens ← of_option (ensemble_model reg) (none_has_no "predict");
    p ← EnsembleModel.predict ens (PyRows [features]);
    calibrated_pm25 ← first_out p;
    let model_info := EnsembleModel.get_model_info ens in
    Ok (PyDict [("calibrated_pm25", PyNum (round2 calibrated_pm25));
                ("source", PyStr "ensemble_model");
                ("model_version", PyStr "2.0");
                ("confidence", PyStr "high");
                ("ensemble_weights",
                 weights_json (EnsembleModel.info_weights model_info))]) in
  match attempt with
  | Ok body => jsonify body
  | Raise e => (error_body ("Ensemble model error: " +:+ str_exn e), 500%Z)
  end.

Definition calibrate_with_advanced_model (data : json) : response :=
  let attempt : result json :=
    f1 ← subscript data "satellite_aod";
    f2 ← subscript data "min_temp";
    f3 ← subscript data "max_temp";
    f4 ← subscript data "rainfall";
    let test_df :=
      {| nrows := 1;
         columns := <["date" := [Time now] ]>
                    (<["rainfall" := [cell_of_json f4] ]>
                    (<["max_temp" := [cell_of_json f3] ]>
                    (<["min_temp" := [cell_of_json f2] ]>
                    (<["satellite_aod" := [cell_of_json f1] ]> ∅)))) |} in
    test_advanced ← create_advanced_features lib test_df;
    features ← of_option (advanced_features reg)
                 (TypeError "'NoneType' object is not iterable");
    (* test_advanced[advanced_features].fillna(0) *)
    selected ← mapM (col test_advanced) features;
    let X_test := map fillna0 selected in
    scaler ← of_option (advanced_scaler reg) (none_has_no "transform");
    X ← frame_array (nrows test_advanced) X_test;
    X_test_scaled ← transform scaler X;
    model ← of_option (advanced_model reg) (none_has_no "predict");
    p ← reg_predict model X_test_scaled;
    calibrated_pm25 ← first p;
    Ok (PyDict [("calibrated_pm25", PyNum (round2 calibrated_pm25));
                ("source", PyStr "advanced_model");
                ("model_version", PyStr "3.0");
                ("confidence", PyStr "very_high");
                ("features_used", PyNum (qz (Z.of_nat (length features))))]) in
  match attempt with
  | Ok body => jsonify body
  | Raise e => (error_body ("Advanced model error: " +:+ str_exn e), 500%Z)
  end.

Definition no_json_data : response := (error_body "No JSON data provided", 400%Z).

(** [POST /calibrate]: uses the best available model. *)
Definition calibrate_aod (request : Request) : reply :=
  match request_get_json request with
  | inl e => Aborted e
  | inr data =>
      Returned
        (if negb (truthy data) then no_json_data
         else if truthy (advanced_model reg) && truthy (advanced_scaler reg)
                 && truthy (advanced_features reg)
         then calibrate_with_advanced_model data
         else if truthy (ensemble_model reg) then calibrate_with_ensemble_model data
         else if truthy (basic_model reg) && truthy (basic_scaler reg)
         then calibrate_with_basic_model data
         else (error_body "No models available", 500%Z))
  end.

(** [POST /calibrate/basic]. *)
Definition calibrate_basic (request : Request) : reply :=
  match request_get_json request with
  | inl e => Aborted e
  | inr data =>
      Returned
        (if negb (truthy data) then no_json_data
         else if negb (truthy (basic_model reg) && truthy (basic_scaler reg))
         then (error_body "Basic model not available", 500%Z)
         else calibrate_with_basic_model data)
  end.

(** [POST /calibrate/ensemble]. *)
Definition calibrate_ensemble (request : Request) : reply :=
  match request_get_json request with
  | inl e => Aborted e
  | inr data =>
      Returned
        (if negb (truthy data) then no_json_data
         else if negb (truthy (ensemble_model reg))
         then (error_body "Ensemble model not available", 500%Z)
         else calibrate_with_ensemble_model data)
  end.

(** [POST /calibrate/advanced]. *)
Definition calibrate_advanced (request : Request) : reply :=
  match request_get_json request with
  | inl e => Aborted e
  | inr data =>
      Returned
        (if negb (truthy data) then no_json_data
         else if negb (truthy (advanced_model reg) && truthy (advanced_scaler reg)
                       && truthy (advanced_features reg))
         then (error_body "Advanced model not available", 500%Z)
         else calibrate_with_advanced_model data)
  end.

(** The [default_model] entry of [GET /health]. *)
Definition default_model : string :=
  if truthy (advanced_model reg) && truthy (advanced_scaler reg)
     && truthy (advanced_features reg) then "advanced"
  else if truthy (ensemble_model reg) then "ensemble"
  else if truthy (basic_model reg) && truthy (basic_scaler reg) then "basic"
  else "none".

(** [GET /health]. *)
Definition health_check : response :=
  jsonify (PyDict
    [("status", PyStr "healthy");
     ("models_available", PyDict
        [("basic", PyBool (is_not_none (basic_model reg)
                           && is_not_none (basic_scaler reg)));
         ("ensemble", PyBool (is_not_none (ensemble_model reg)));
         ("advanced", PyBool (is_not_none (advanced_model reg)
                              && is_not_none (advanced_scaler reg)
                              && is_not_none (advanced_features reg)))]);
     ("default_model", PyStr default_model)]).

End App.

(** ** The remaining endpoints of the service ([calibration_api/app.py]) *)

(** The sample observation of [GET /test]. *)
Definition test_input : json :=
  PyDict [("satellite_aod", PyNum (qz 300)); ("min_temp", PyNum (qz 25));
          ("max_temp", PyNum (qz 35)); ("rainfall", PyNum 0)].

(** [result.get_json()] on what a handler returned to a Python caller.  A
    handler returns the bare [jsonify(...)] object when it succeeds (status
    200 here) and the tuple [(jsonify(...), 500)] when it fails; a tuple has
    no method [get_json]. *)
Definition get_json (r : response) : result json :=
  if decide (r.2 = 200%Z) then Ok r.1
  else Raise (AttributeError "'tuple' object has no attribute 'get_json'").

(** [try: results[key] = result.get_json() except Exception as e:
    results[key] = {'error': str(e)}]. *)
Definition try_get_json (r : response) : json :=
  match get_json r with
  | Ok body => body
  | Raise e => error_body (str_exn e)
  end.

(** [GET /test]. *)
Definition test_endpoint (lib : NumLib) (reg : Registry) (now : Z) : response :=
  let results : list (string * json) :=
    ((if truthy (basic_model reg) && truthy (basic_scaler reg)
     then [("basic", try_get_json (calibrate_with_basic_model reg test_input))]
     else [])
    ++ (if truthy (ensemble_model reg)
        then [("ensemble", try_get_json (calibrate_with_ensemble_model reg test_input))]
        else [])
    ++ (if truthy (advanced_model reg) && truthy (advanced_scaler reg)
           && truthy (advanced_features reg)
        then [("advanced",
               try_get_json (calibrate_with_advanced_model lib reg now test_input))]
        else []))%list in
  jsonify (PyDict [("test_input", test_input); ("results", PyDict results)]).

Definition names_json (l : list string) : json := PyList (PyStr <$> l).

(** The score record [model_scores] as JSON; [None] before [set_scores]. *)
Definition scores_json (s : option (gmap string score)) : json :=
  match s with
  | None => PyNone
  | Some m =>
      PyDict ((λ kv, (kv.1, PyDict [("r2", PyNum (r2 kv.2)); ("mae", PyNum (mae kv.2))]))
              <$> map_to_list m)
  end.

(** [GET /models/info]. *)
Definition models_info (reg : Registry) : response :=
  let basic_features := ["satellite_aod"; "min_temp"; "max_temp"; "rainfall"] in
  let ensemble_info :=
    [("available", PyBool (is_not_none (ensemble_model reg)));
     ("features", names_json basic_features);
     ("version", PyStr "2.0");
     ("description", PyStr "Ensemble of multiple algorithms")] in
  let ensemble_info :=
    match ensemble_model reg with
    | Some ens =>
        if truthy ens then
          let model_info := EnsembleModel.get_model_info ens in
          (ensemble_info
           ++ [("weights", weights_json (EnsembleModel.info_weights model_info));
               ("component_scores",
                scores_json (EnsembleModel.info_scores model_info))])%list
        else ensemble_info
    | None => ensemble_info
    end in
  jsonify (PyDict
    [("basic_model", PyDict
        [("available", PyBool (is_not_none (basic_model reg)
                               && is_not_none (basic_scaler reg)));
         ("features", names_json basic_features);
         ("version", PyStr "1.0");
         ("description", PyStr "Basic GradientBoosting model")]);
     ("ensemble_model", PyDict ensemble_info);
     ("advanced_model", PyDict
        [("available", PyBool (is_not_none (advanced_model reg)
                               && is_not_none (advanced_scaler reg)
                               && is_not_none (advanced_features reg)));
         ("features", names_json (if truthy (advanced_features reg)
                                  then default [] (advanced_features reg) else []));
         ("version", PyStr "3.0");
         ("description",
          PyStr "Advanced model with temporal and interaction features")])]).

(** ** Loading the artifacts ([load_models], [test_models]) *)

(** The artifact files under [processing/]: for each path, [None] when
    the file does not exist ([os.path.exists]), else what [joblib.load]
    returns or raises on it. *)
Record ModelFiles : Type := {
  basic_model_path : option (result Regressor);
  basic_scaler_path : option (result StandardScaler);
  ensemble_path : option (result EnsembleModel);
  advanced_model_path : option (result Regressor);
  advanced_scaler_path : option (result StandardScaler);
  advanced_features_path : option (result (list string));
}.

(** The module-level globals before [load_models()]. *)
Definition initial_globals : Registry :=
  {| basic_model := None; basic_scaler := None; ensemble_model := None;
     advanced_model := None; advanced_scaler := None; advanced_features := None |}.

(** Assignments to the globals. *)
Definition set_basic_model (reg : Registry) (m : Regressor) : Registry :=
  {| basic_model := Some m; basic_scaler := basic_scaler reg;
     ensemble_model := ensemble_model reg; advanced_model := advanced_model reg;
     advanced_scaler := advanced_scaler reg;
     advanced_features := advanced_features reg |}.
Definition set_basic_scaler (reg : Registry) (s : StandardScaler) : Registry :=
  {| basic_model := basic_model reg; basic_scaler := Some s;
     ensemble_model := ensemble_model reg; advanced_model := advanced_model reg;
     advanced_scaler := advanced_scaler reg;
     advanced_features := advanced_features reg |}.
Definition set_ensemble_model (reg : Registry) (e : EnsembleModel) : Registry :=
  {| basic_model := basic_model reg; basic_scaler := basic_scaler reg;
     ensemble_model := Some e; advanced_model := advanced_model reg;
     advanced_scaler := advanced_scaler reg;
     advanced_features := advanced_features reg |}.
Definition set_advanced_model (reg : Registry) (m : Regressor) : Registry :=
  {| basic_model := basic_model reg; basic_scaler := basic_scaler reg;
     ensemble_model := ensemble_model reg; advanced_model := Some m;
     advanced_scaler := advanced_scaler reg;
     advanced_features := advanced_features reg |}.
Definition set_advanced_scaler (reg : Registry) (s : StandardScaler) : Registry :=
  {| basic_model := basic_model reg; basic_scaler := basic_scaler reg;
     ensemble_model := ensemble_model reg; advanced_model := advanced_model reg;
     advanced_scaler := Some s;
     advanced_features := advanced_features reg |}.
Definition set_advanced_features (reg : Registry) (f : list string) : Registry :=
  {| basic_model := basic_model reg; basic_scaler := basic_scaler reg;
     ensemble_model := ensemble_model reg; advanced_model := advanced_model reg;
     advanced_scaler := advanced_scaler reg;
     advanced_features := Some f |}.

(** A step of a [try] block of [load_models]: the globals so far, or the
    globals at the point where [joblib.load] raised, with the exception. *)
Definition loading : Type := Registry * option exn.

Definition load_into {A} (set : Registry → A → Registry) (file : result A)
    (st : loading) : loading :=
  match st with
  | (reg, Some e) => (reg, Some e)
  | (reg, None) =>
      match file with
      | Ok a => (set reg a, None)
      | Raise e => (reg, Some e)
      end
  end.

(** The end of a [try] block: [except Exception as e: logging.error(...)]. *)
Definition logged (what : string) (st : loading) : Registry * list string :=
  match st with
  | (reg, None) => (reg, [])
  | (reg, Some e) => (reg, [what +:+ str_exn e])
  end.

Definition load_basic (files : ModelFiles) (reg : Registry) : Registry * list string :=
  match basic_model_path files, basic_scaler_path files with
  | Some model_file, Some scaler_file =>
      logged "Error loading basic model: "
        (load_into set_basic_scaler scaler_file
           (load_into set_basic_model model_file (reg, None)))
  | _, _ => (reg, [])
  end.

Definition load_ensemble (files : ModelFiles) (reg : Registry) : Registry * list string :=
  match ensemble_path files with
  | Some ensemble_file =>
      logged "Error loading ensemble model: "
        (load_into set_ensemble_model ensemble_file (reg, None))
  | None => (reg, [])
  end.

Definition load_advanced (files : ModelFiles) (reg : Registry) : Registry * list string :=
  match advanced_model_path files, advanced_scaler_path files,
        advanced_features_path files with
  | Some model_file, Some scaler_file, Some features_file =>
      logged "Error loading advanced model: "
        (load_into set_advanced_features features_file
           (load_into set_advanced_scaler scaler_file
              (load_into set_advanced_model model_file (reg, None))))
  | _, _, _ => (reg, [])
  end.

(** [except Exception as e: logging.error(f"... test failed: {e}")]. *)
Definition test_failed {A} (what : string) (attempt : result A) : list string :=
  match attempt with
  | Ok _ => []
  | Raise e => [what +:+ str_exn e]
  end.

(** [test_models()]: the error lines it logs. *)
Definition test_models (lib : NumLib) (reg : Registry) (now : Z) : list string :=
  let test_input := [PyNum (qz 300); PyNum (qz 25); PyNum (qz 35); PyNum 0] in
  ((if truthy (basic_model reg) && truthy (basic_scaler reg) then
      test_failed "Basic model test failed: "
        (scaler ← of_option (basic_scaler reg) (none_has_no "transform");
         test_scaled ← transform scaler (PyRows [test_input]);
         model ← of_option (basic_model reg) (none_has_no "predict");
         p ← reg_predict model test_scaled;
         first p)
    else [])
   ++ (if truthy (ensemble_model reg) then
         test_failed "Ensemble model test failed: "
           (ens ← of_option (ensemble_model reg) (none_has_no "predict");
            p ← EnsembleModel.predict ens (PyRows [test_input]);
            first_out p)
       else [])
   ++ (if truthy (advanced_model reg) && truthy (advanced_scaler reg)
          && truthy (advanced_features reg) then
         test_failed "Advanced model test failed: "
           (let test_df :=
              {| nrows := 1;
                 columns := <["date" := [Time now] ]>
                            (<["rainfall" := [Num 0] ]>
                            (<["max_temp" := [Num (qz 35)] ]>
                            (<["min_temp" := [Num (qz 25)] ]>
                            (<["satellite_aod" := [Num (qz 300)] ]> ∅)))) |} in
            test_advanced ← create_advanced_features lib test_df;
            features ← of_option (advanced_features reg)
                         (TypeError "'NoneType' object is not iterable");
            selected ← mapM (col test_advanced) features;
            let X_test := map fillna0 selected in
            scaler ← of_option (advanced_scaler reg) (none_has_no "transform");
            X ← frame_array (nrows test_advanced) X_test;
            X_test_scaled ← transform scaler X;
            model ← of_option (advanced_model reg) (none_has_no "predict");
            p ← reg_predict model X_test_scaled;
            first p)
       else []))%list.

(** [load_models()]: the globals it leaves and the error lines it logs. *)
Definition load_models (lib : NumLib) (files : ModelFiles) (reg : Registry) (now : Z)
    : Registry * list string :=
  let '(reg, log1) := load_basic files reg in
  let '(reg, log2) := load_ensemble files reg in
  let '(reg, log3) := load_advanced files reg in
  (reg, (log1 ++ log2 ++ log3 ++ test_models lib reg now)%list).

(** ** Training the ensemble ([create_ensemble_model]) *)

(** The keys of the [models] dict of the script, in its order. *)
Definition learner_names : list string := ["gb"; "rf"; "mlp"; "linear"].

Section Training.
(** [model.fit(X_train, y_train)] on the learner of that name and its
    evaluation on the held-out split: the fitted learner with its R² and
    MAE, or the exception either step raises. *)
Variable fit_and_score : string → result (Regressor * score).
(** The scaler fitted on the whole data set, and the held-out rows. *)
Variable fitted_scaler : StandardScaler.
Variable X_test : list (list Qc).
(** [joblib.dump(ensemble, 'ensemble_calibrator.pkl')]. *)
Variable dump : EnsembleModel → result unit.

(** [trained_models[name] = model; model_scores[name] = {...}], one turn
    of the training loop. *)
Definition train_step (acc : result (gmap string Regressor * gmap string score))
    (name : string) : result (gmap string Regressor * gmap string score) :=
  st ← acc;
  fitted ← fit_and_score name;
  Ok (<[name := fitted.1]> st.1, <[name := fitted.2]> st.2).

(** [create_ensemble_model()] on a data set of [n_rows] complete rows: the
    ensemble it returns, [None] when the data is insufficient or anything
    in its [try] block raises. *)
Definition create_ensemble_model (n_rows : nat) : option EnsembleModel :=
  if (n_rows <? 100)%nat then None
  else
    let attempt : result EnsembleModel :=
      st ← foldl train_step (Ok (∅, ∅)) learner_names;
      let trained_models := st.1 in
      let model_scores := st.2 in
      weights ← derive_weights model_scores;
      let ensemble :=
        EnsembleModel.set_scores
          (EnsembleModel.__init__ trained_models weights fitted_scaler) model_scores in
      ensemble_pred ← EnsembleModel.predict ensemble (NdArray 4 X_test);
      _ ← dump ensemble;
      Ok ensemble in
    match attempt with
    | Ok ensemble => Some ensemble
    | Raise _ => None
    end.

End Training.

(** ** The feature list of the advanced model
    ([get_advanced_feature_list], [train_advanced_model]) *)

Definition get_advanced_feature_list : list string :=
  let base_features := ["satellite_aod"; "min_temp"; "max_temp"; "rainfall"] in
  let advanced_features :=
    [ (* temporal *)
      "hour"; "day_of_week"; "month"; "is_weekend";
      "hour_sin"; "hour_cos"; "season_sin"; "season_cos";
      (* meteorological *)
      "temp_range"; "avg_temp"; "humidity";
      (* AOD transformations *)
      "aod_log"; "aod_squared"; "aod_sqrt";
      (* interactions *)
      "aod_temp_interaction"; "aod_rainfall_interaction";
      (* lag features *)
      "aod_lag_1"; "aod_lag_2"; "aod_lag_3";
      (* rolling averages *)
      "aod_rolling_3"; "aod_rolling_6"; "temp_rolling_3";
      (* volatility *)
      "aod_volatility_3h" ] in
  (base_features ++ advanced_features)%list.

(** [[f for f in feature_list if f in df_advanced.columns]]. *)
Definition available_features (feature_list : list string) (df_advanced : DataFrame)
    : list string :=
  List.filter (has_col df_advanced) feature_list.


(** ** Notions of the specification, stated over the model *)

Inductive tier : Type := Basic | Ensemble | Advanced.

(** The availability test the dispatcher applies to a tier. *)
Definition available (reg : Registry) (t : tier) : bool :=
  match t with
  | Basic => truthy (basic_model reg) && truthy (basic_scaler reg)
  | Ensemble => truthy (ensemble_model reg)
  | Advanced => truthy (advanced_model reg) && truthy (advanced_scaler reg)
                && truthy (advanced_features reg)
  end.

(** Every sub-artifact of the tier has been loaded. *)
Definition loaded (reg : Registry) (t : tier) : bool :=
  match t with
  | Basic => is_not_none (basic_model reg) && is_not_none (basic_scaler reg)
  | Ensemble => is_not_none (ensemble_model reg)
  | Advanced => is_not_none (advanced_model reg) && is_not_none (advanced_scaler reg)
                && is_not_none (advanced_features reg)
  end.

(** [best_tier()]: strict priority advanced > ensemble > basic > none. *)
Definition best_tier (reg : Registry) : option tier :=
  if available reg Advanced then Some Advanced
  else if available reg Ensemble then Some Ensemble
  else if available reg Basic then Some Basic
  else None.

Definition run_tier (lib : NumLib) (reg : Registry) (now : Z) (t : tier)
    (data : json) : response :=
  match t with
  | Basic => calibrate_with_basic_model reg data
  | Ensemble => calibrate_with_ensemble_model reg data
  | Advanced => calibrate_with_advanced_model lib reg now data
  end.

(** The forced-tier endpoint of a tier. *)
Definition calibrate_forced (lib : NumLib) (reg : Registry) (now : Z) (t : tier)
    (request : Request) : reply :=
  match t with
  | Basic => calibrate_basic reg request
  | Ensemble => calibrate_ensemble reg request
  | Advanced => calibrate_advanced lib reg now request
  end.

(** The HTTP status of a reply. *)
Definition status (r : reply) : Z :=
  match r with Returned resp => resp.2 | Aborted e => code e end.

Definition source_name (t : tier) : string :=
  match t with
  | Basic => "basic_model" | Ensemble => "ensemble_model" | Advanced => "advanced_model"
  end.

Definition tier_label (t : tier) : string :=
  match t with Basic => "Basic" | Ensemble => "Ensemble" | Advanced => "Advanced" end.

Definition model_version (t : tier) : string :=
  match t with Basic => "1.0" | Ensemble => "2.0" | Advanced => "3.0" end.

Definition confidence (t : tier) : string :=
  match t with Basic => "standard" | Ensemble => "high" | Advanced => "very_high" end.

Definition response_field (r : response) (k : string) : option json :=
  match r.1 with PyDict kv => dict_get kv k | _ => None end.

(** A field of the JSON body of a reply; an error page has none. *)
Definition reply_field (r : reply) (k : string) : option json :=
  match r with Returned resp => response_field resp k | Aborted _ => None end.

(** The error a tier's handler answers when its work raises [e]. *)
Definition tier_error (t : tier) (e : exn) : response :=
  (error_body (tier_label t +:+ " model error: " +:+ str_exn e), 500%Z).

(** The error a forced endpoint answers when its tier is not available. *)
Definition tier_unavailable (t : tier) : response :=
  (error_body (tier_label t +:+ " model not available"), 500%Z).

Definition required_fields : list string :=
  ["satellite_aod"; "min_temp"; "max_temp"; "rainfall"].

(** The parsed body is falsy, or lacks one of the four required fields. *)
Definition invalid_body (data : json) : bool :=
  negb (truthy data)
  || existsb (λ k, negb (is_ok (subscript data k))) required_fields.

(** The request has no JSON body, or an invalid one. *)
Definition invalid_request (request : Request) : bool :=
  match request with
  | NotJson | BadJson => true
  | JsonBody data => invalid_body data
  end.

(** The four calibration endpoints on one request. *)
Definition endpoints (lib : NumLib) (reg : Registry) (now : Z) (request : Request)
    : list reply :=
  [calibrate_aod lib reg now request; calibrate_basic reg request;
   calibrate_ensemble reg request; calibrate_advanced lib reg now request].

(** The three handlers behind the endpoints on one parsed body. *)
Definition handlers (lib : NumLib) (reg : Registry) (now : Z) (data : json)
    : list response :=
  [run_tier lib reg now Basic data; run_tier lib reg now Ensemble data;
   run_tier lib reg now Advanced data].

(** The tier-specific extra of a result: the weight map of the ensemble,
    the number of features the advanced model consumes. *)
Definition tier_extra (reg : Registry) (t : tier) : list (string * json) :=
  match t with
  | Basic => []
  | Ensemble =>
      match ensemble_model reg with
      | Some ens => [("ensemble_weights", weights_json (weights ens))]
      | None => []
      end
  | Advanced =>
      match advanced_features reg with
      | Some features => [("features_used", PyNum (qz (Z.of_nat (length features))))]
      | None => []
      end
  end.

(** [v] is the first value the tier's predictor returned on some input. *)
Definition predicted_by (reg : Registry) (t : tier) (v : Qc) : Prop :=
  match t with
  | Basic =>
      ∃ model X p, basic_model reg = Some model
                   ∧ reg_predict model X = Ok p ∧ head p = Some v
  | Ensemble =>
      ∃ ens X p, ensemble_model reg = Some ens
                 ∧ EnsembleModel.predict ens X = Ok p ∧ first_out p = Ok v
  | Advanced =>
      ∃ model X p, advanced_model reg = Some model
                   ∧ reg_predict model X = Ok p ∧ head p = Some v
  end.

(** The normalized result of a tier for the predicted value [v]. *)
Definition tier_result (reg : Registry) (t : tier) (v : Qc) : response :=
  jsonify (PyDict ([("calibrated_pm25", PyNum (round2 v));
                    ("source", PyStr (source_name t));
                    ("model_version", PyStr (model_version t));
                    ("confidence", PyStr (confidence t))] ++ tier_extra reg t)).

(** Every response the body [data] can get: from the four endpoints on a
    request that carries it and from the three handlers behind them. *)
Definition calibration_responses (lib : NumLib) (reg : Registry) (now : Z)
    (data : json) : list reply :=
  endpoints lib reg now (JsonBody data) ++ (Returned <$> handlers lib reg now data).

(** The learners of the ensemble accept the rows of [X]. *)
Definition accepted (self : EnsembleModel) (X : array_like) (rows : list (list Qc))
    : Prop :=
  as_float_rows X = Ok rows
  ∧ ∀ name m, models self !! name = Some m →
              check_width (reg_n_features m) rows = Ok rows.

(** The same ensemble with another weight map. *)
Definition with_weights (self : EnsembleModel) (ws : gmap string Qc) : EnsembleModel :=
  {| models := models self; weights := ws;
     scaler := scaler self; scores := scores self |}.

(** The sum over the model map of [weight[name] * prediction[name]] for
    one row, accumulated in the order the combiner adds. *)
Definition blend (self : EnsembleModel) (row : list Qc) : Qc :=
  foldl (λ s nm, s + default 0 (weights self !! nm.1) * reg_fn nm.2 row)
        (qz 0) (map_to_list (models self)).

(** The frame the advanced handler builds from one observation taken at
    time [now]. *)
Definition single_observation (aod tmin tmax rain : Qc) (now : Z) : DataFrame :=
  {| nrows := 1;
     columns := <["date" := [Time now] ]>
                (<["rainfall" := [Num rain] ]>
                (<["max_temp" := [Num tmax] ]>
                (<["min_temp" := [Num tmin] ]>
                (<["satellite_aod" := [Num aod] ]> ∅)))) |}.

Definition lag_features : list string :=
  ["aod_lag_1"; "aod_lag_2"; "aod_lag_3"; "aod_lag_6"; "aod_lag_12"; "aod_lag_24"].
Definition aod_rolling_features : list string :=
  ["aod_rolling_3"; "aod_rolling_6"; "aod_rolling_12"; "aod_rolling_24"].
Definition temp_rolling_features : list string :=
  ["temp_rolling_3"; "temp_rolling_6"; "temp_rolling_12"; "temp_rolling_24"].
Definition volatility_features : list string :=
  ["aod_volatility_3h"; "temp_volatility_6h"].

(** The four fields a handler reads of a body, in the order of the
    feature row. *)
Definition request_fields (data : json) : result (list json) :=
  f1 ← subscript data "satellite_aod";
  f2 ← subscript data "min_temp";
  f3 ← subscript data "max_temp";
  f4 ← subscript data "rainfall";
  Ok [f1; f2; f3; f4].

(** The number the advanced tier reads for a feature in the frame of one
    observation: the cell of the first row, an undefined one counting as
    0. *)
Definition feature_value (out : DataFrame) (feature : string) : option Qc :=
  match columns out !! feature with
  | Some (Num q :: _) => Some q
  | Some (NaN :: _) => Some 0
  | _ => None
  end.

(** The feature row of the observation taken at time [now]. *)
Definition feature_row (lib : NumLib) (now : Z) (features : list string)
    (aod tmin tmax rain : Qc) : option (list Qc) :=
  match create_advanced_features lib (single_observation aod tmin tmax rain now) with
  | Ok out => mapM (feature_value out) features
  | Raise _ => None
  end.

(** The value a tier predicts for an observation: the basic model on the
    standardized observation, the blend of the ensemble on the observation
    as it is, the advanced model on the standardized feature row. *)
Definition tier_prediction (lib : NumLib) (reg : Registry) (now : Z) (t : tier)
    (aod tmin tmax rain : Qc) : option Qc :=
  match t with
  | Basic =>
      model ← basic_model reg; scaler ← basic_scaler reg;
      Some (reg_fn model (scale_row scaler [aod; tmin; tmax; rain]))
  | Ensemble =>
      ens ← ensemble_model reg; Some (blend ens [aod; tmin; tmax; rain])
  | Advanced =>
      model ← advanced_model reg; scaler ← advanced_scaler reg;
      features ← advanced_features reg;
      row ← feature_row lib now features aod tmin tmax rain;
      Some (reg_fn model (scale_row scaler row))
  end.

(** The humidity the pipeline synthesizes from one row. *)
Definition synthetic_humidity (max_temp rainfall : Qc) : Qc :=
  clip (qz 20) (qz 90) (qz 50 + (max_temp - qz 25) * qfrac (-3) 2 + rainfall * qz 2).

(** *** Notions used to follow a frame through the pipeline *)

(** The computation returns a value that satisfies [Q]. *)
Definition returns {A} (m : result A) (Q : A → Prop) : Prop :=
  ∃ a, m = Ok a ∧ Q a.

(** The entries of [xs] in the row order [order]. *)
Definition pick {A} (d : A) (order : list nat) (xs : list A) : list A :=
  (λ i, default d (xs !! i)) <$> order.

(** The trailing window of numbers that ends at position [i]. *)
Definition window_q (w i : nat) (xs : list Qc) : list Qc :=
  drop (S i - w) (take (S i) xs).

(** The rolling mean and rolling standard deviation of a column of
    numbers, as the cells the pipeline stores. *)
Definition rolling_mean_cells (w : nat) (xs : list Qc) : series :=
  (λ i, match window_q w i xs with [] => NaN | ys => Num (mean ys) end)
  <$> seq 0 (length xs).

Definition rolling_std_cells (lib : NumLib) (w : nat) (xs : list Qc) : series :=
  (λ i, match window_q w i xs with
        | [] | [_] => NaN
        | ys => np_sqrt lib (variance ys)
        end) <$> seq 0 (length xs).

(** The timestamps of the rows are [T]: read from a [recorded_at] column,
    else from a [date] column, else the default hourly range. *)
Definition timestamped (df : DataFrame) (T : list Z) : Prop :=
  columns df !! "recorded_at" = Some (Time <$> T)
  ∨ (columns df !! "recorded_at" = None
     ∧ columns df !! "date" = Some (Time <$> T))
  ∨ (columns df !! "recorded_at" = None ∧ columns df !! "date" = None
     ∧ T = (λ i, (1748736000 + 3600 * Z.of_nat i)%Z) <$> seq 0 (nrows df)).

(** The lag and rolling columns with their offset or window. *)
Definition lag_columns : list (string * nat) :=
  [("aod_lag_1", 1); ("aod_lag_2", 2); ("aod_lag_3", 3);
   ("aod_lag_6", 6); ("aod_lag_12", 12); ("aod_lag_24", 24)]%nat.
Definition aod_rolling_columns : list (string * nat) :=
  [("aod_rolling_3", 3); ("aod_rolling_6", 6);
   ("aod_rolling_12", 12); ("aod_rolling_24", 24)]%nat.
Definition temp_rolling_columns : list (string * nat) :=
  [("temp_rolling_3", 3); ("temp_rolling_6", 6);
   ("temp_rolling_12", 12); ("temp_rolling_24", 24)]%nat.

(** The columns of the frame the pipeline returns for observations with
    AOD [A], temperatures [Tmin] and [Tmax] and rainfall [R], whose rows
    the sort puts in the order [order]. *)
Definition derived_columns (lib : NumLib) (order : list nat)
    (A Tmin Tmax R : list Qc) (out : DataFrame) : Prop :=
  let A' := pick 0 order A in
  let avg := pick 0 order ((λ x, x / qz 2) <$> zip_with Qcplus Tmax Tmin) in
  columns out !! "satellite_aod" = Some (Num <$> A')
  ∧ columns out !! "max_temp" = Some (Num <$> pick 0 order Tmax)
  ∧ columns out !! "rainfall" = Some (Num <$> pick 0 order R)
  ∧ columns out !! "avg_temp" = Some (Num <$> avg)
  ∧ columns out !! "humidity"
    = Some (Num <$> pick 0 order (zip_with synthetic_humidity Tmax R))
  ∧ Forall (λ nl, columns out !! nl.1
                  = Some ((ffill ∘ bfill) (shift nl.2 (Num <$> A')))) lag_columns
  ∧ Forall (λ nw, columns out !! nw.1
                  = Some ((ffill ∘ bfill) (rolling_mean_cells nw.2 A')))
           aod_rolling_columns
  ∧ Forall (λ nw, columns out !! nw.1
                  = Some ((ffill ∘ bfill) (rolling_mean_cells nw.2 avg)))
           temp_rolling_columns
  ∧ columns out !! "aod_volatility_3h"
    = Some ((ffill ∘ bfill) (rolling_std_cells lib 3 A'))
  ∧ columns out !! "temp_volatility_6h"
    = Some ((ffill ∘ bfill) (rolling_std_cells lib 6 avg)).

(** ** Fixtures used by the closed examples *)

Definition lib0 : NumLib :=
  {| np_log1p := Num; np_sqrt := Num;
     np_sin_turn := λ x, x; np_cos_turn := λ x, x;
     parse_datetime := λ _, Raise (ValueError "unparsed") |}.

(** A linear learner on the first feature. *)
Definition lin (k : Z) (n : nat) : Regressor :=
  {| reg_n_features := n; reg_len := None;
     reg_fn := λ row, qz k * default 0 (row !! 0%nat) |}.

Definition scaler4 : StandardScaler :=
  {| mean_ := [qz 100; 0; 0; 0]; scale_ := [qz 10; 1; 1; 1] |}.

Definition ens_ab : EnsembleModel :=
  {| models := <["a" := lin 1 4]> (<["b" := lin 3 4]> ∅);
     weights := <["a" := qfrac 1 2]> (<["b" := qfrac 1 2]> ∅);
     scaler := scaler4;
     scores := None |}.

(** The weight map names a learner [b] that the model map does not have. *)
Definition ens_orphan_weight : EnsembleModel :=
  {| models := {["a" := lin 1 4]};
     weights := <["a" := qfrac 1 2]> (<["b" := qfrac 1 2]> ∅);
     scaler := scaler4;
     scores := None |}.

(** The model map has a learner [b] that the weight map does not name. *)
Definition ens_missing_weight : EnsembleModel :=
  {| models := <["a" := lin 1 4]> (<["b" := lin 3 4]> ∅);
     weights := {["a" := 1]};
     scaler := scaler4;
     scores := None |}.

Definition sc (n : Z) (d : positive) : score := {| r2 := qfrac n d; mae := 0 |}.

(** The scenario of the specification: two members, R² 0.8 and 0.4. *)
Definition scores_ab : gmap string score :=
  <["a" := sc 8 10]> (<["b" := sc 4 10]> ∅).

(** The four learners of the training script, with R² scores that cancel
    once divided by the best one. *)
Definition scores_cancel : gmap string score :=
  <["gb" := sc 1 2]> (<["rf" := sc (-1) 2]>
  (<["mlp" := sc 1 4]> (<["linear" := sc (-1) 4]> ∅))).

(** Four learners none of which beats the constant predictor. *)
Definition scores_negative : gmap string score :=
  <["gb" := sc (-1) 2]> (<["rf" := sc (-3) 4]>
  (<["mlp" := sc 0 1]> (<["linear" := sc (-2) 1]> ∅))).

Definition reg_none : Registry :=
  {| basic_model := None; basic_scaler := None; ensemble_model := None;
     advanced_model := None; advanced_scaler := None; advanced_features := None |}.

Definition reg_basic : Registry :=
  {| basic_model := Some (lin 2 4); basic_scaler := Some scaler4;
     ensemble_model := None;
     advanced_model := None; advanced_scaler := None; advanced_features := None |}.

Definition reg_all : Registry :=
  {| basic_model := Some (lin 2 4); basic_scaler := Some scaler4;
     ensemble_model := Some ens_ab;
     advanced_model := Some (lin 1 2);
     advanced_scaler := Some {| mean_ := [0; 0]; scale_ := [1; 1] |};
     advanced_features := Some ["satellite_aod"; "aod_lag_1"] |}.

(** The observation of the service's self-test, as the list of rows the
    service passes to the combiner and as a numpy array. *)
Definition test_rows : array_like :=
  PyRows [[PyNum (qz 300); PyNum (qz 25); PyNum (qz 35); PyNum 0]].
Definition test_array : array_like :=
  NdArray 4 [[qz 300; qz 25; qz 35; 0]].

(** A learner that returns feature number [i]. *)
Definition feature_at (i n : nat) : Regressor :=
  {| reg_n_features := n; reg_len := None;
     reg_fn := λ row, default 0 (row !! i) |}.

(** An advanced tier whose model returns the lag-1 feature unchanged. *)
Definition reg_lag : Registry :=
  {| basic_model := None; basic_scaler := None; ensemble_model := None;
     advanced_model := Some (feature_at 1 2);
     advanced_scaler := Some {| mean_ := [0; 0]; scale_ := [1; 1] |};
     advanced_features := Some ["satellite_aod"; "aod_lag_1"] |}.

(** The three observations of the training script's own test. *)
Definition test_frame : DataFrame :=
  {| nrows := 3;
     columns := list_to_map
       [("satellite_aod", Num <$> [qz 300; qz 600; qz 1200]);
        ("min_temp", Num <$> [qz 20; qz 25; qz 35]);
        ("max_temp", Num <$> [qz 30; qz 35; qz 45]);
        ("rainfall", Num <$> [0; 0; 0]);
        ("date", Time <$> [1751331600; 1751328000; 1751335200]%Z)] |}.



Definition body_ok : json :=
  PyDict [("satellite_aod", PyNum (qz 300)); ("min_temp", PyNum (qz 25));
          ("max_temp", PyNum (qz 35)); ("rainfall", PyNum 0)].

Definition body_no_rainfall : json :=
  PyDict [("satellite_aod", PyNum (qz 300)); ("min_temp", PyNum (qz 25));
          ("max_temp", PyNum (qz 35))].

(** ** Notions used to state properties of the remaining endpoints *)

(** The value at a path of keys in a JSON object. *)
Fixpoint json_path (j : json) (ks : list string) : option json :=
  match ks with
  | [] => Some j
  | k :: ks' =>
      match j with
      | PyDict kv => match dict_get kv k with Some j' => json_path j' ks' | None => None end
      | _ => None
      end
  end.

(** The key of a tier in [GET /health] and [GET /test]. *)
Definition tier_key (t : tier) : string :=
  match t with Basic => "basic" | Ensemble => "ensemble" | Advanced => "advanced" end.

(** The key of a tier in [GET /models/info]. *)
Definition tier_info_key (t : tier) : string :=
  match t with
  | Basic => "basic_model" | Ensemble => "ensemble_model" | Advanced => "advanced_model"
  end.

(** An advanced tier whose saved feature list is empty. *)
Definition reg_no_features : Registry :=
  {| basic_model := Some (lin 2 4); basic_scaler := Some scaler4;
     ensemble_model := None;
     advanced_model := Some (lin 1 2);
     advanced_scaler := Some {| mean_ := [0; 0]; scale_ := [1; 1] |};
     advanced_features := Some [] |}.

(** A request that carries more than the four required fields. *)
Definition body_with_extras : json :=
  PyDict [("humidity", PyNum (qz 55)); ("satellite_aod", PyNum (qz 300));
          ("recorded_at", PyStr "2025-07-01T10:00:00"); ("min_temp", PyNum (qz 25));
          ("max_temp", PyNum (qz 35)); ("rainfall", PyNum 0);
          ("source", PyStr "client")].

(** An observation as a request body. *)
Definition observation (aod tmin tmax rain : Qc) : json :=
  PyDict [("satellite_aod", PyNum aod); ("min_temp", PyNum tmin);
          ("max_temp", PyNum tmax); ("rainfall", PyNum rain)].

(** An ensemble without learners. *)
Definition ens_empty : EnsembleModel :=
  {| models := ∅; weights := ∅; scaler := scaler4; scores := None |}.

Definition reg_ens_empty : Registry :=
  {| basic_model := None; basic_scaler := None; ensemble_model := Some ens_empty;
     advanced_model := None; advanced_scaler := None; advanced_features := None |}.

(** Every file of the tier exists and loads. *)
Definition files_load (files : ModelFiles) (t : tier) : bool :=
  match t with
  | Basic =>
      match basic_model_path files, basic_scaler_path files with
      | Some (Ok _), Some (Ok _) => true
      | _, _ => false
      end
  | Ensemble =>
      match ensemble_path files with Some (Ok _) => true | _ => false end
  | Advanced =>
      match advanced_model_path files, advanced_scaler_path files,
            advanced_features_path files with
      | Some (Ok _), Some (Ok _), Some (Ok _) => true
      | _, _, _ => false
      end
  end.

(** The artifacts a tier's files hold, when all of them load. *)
Definition files_registry (files : ModelFiles) : Registry :=
  let get {A} (f : option (result A)) : option A :=
    match f with Some (Ok a) => Some a | _ => None end in
  {| basic_model := get (basic_model_path files);
     basic_scaler := get (basic_scaler_path files);
     ensemble_model := get (ensemble_path files);
     advanced_model := get (advanced_model_path files);
     advanced_scaler := get (advanced_scaler_path files);
     advanced_features := get (advanced_features_path files) |}.

(** The line [test_models] logs when the self-test of a tier raises [e]. *)
Definition self_test_line (t : tier) (e : exn) : string :=
  tier_label t +:+ " model test failed: " +:+ str_exn e.

(** [sum of the R² scores of the record]. *)
Definition total_r2 (model_scores : gmap string score) : Qc :=
  qsum (r2 <$> (map_to_list model_scores).*2).

(** A training run on which every learner fits: linear learners with the
    scores of the specification's scenario. *)
Definition fit_all (name : string) : result (Regressor * score) :=
  Ok (lin 1 4, sc 8 10).

(** Two learners, one of which does no better than the constant
    predictor. *)
Definition scores_mixed : gmap string score :=
  <["a" := sc 3 4]> (<["b" := sc (-1) 4]> ∅).

(** *** Invariants of a frame along the pipeline *)

(** Every column has as many cells as the frame has rows. *)
Definition well_formed (df : DataFrame) : Prop :=
  ∀ k c, columns df !! k = Some c → length c = nrows df.

(** The columns the pipeline reads from its input. *)
Definition base_columns : list string :=
  ["satellite_aod"; "min_temp"; "max_temp"; "rainfall"].

(** The columns the pipeline writes before it sorts the rows: on every
    input, and only when the input has a humidity or pressure column. *)
Definition early_names : list string :=
  ["hour"; "day_of_week"; "month"; "is_weekend"; "time_category";
   "temp_range"; "avg_temp"; "humidity";
   "aod_log"; "aod_squared"; "aod_sqrt";
   "aod_temp_interaction"; "aod_rainfall_interaction"].
Definition early_optional_names : list string :=
  ["humidity_pressure"; "temp_humidity"].

(** The columns it writes after the sort: on every input, and only when
    the input has a ground-truth column. *)
Definition late_names : list string :=
  ["aod_lag_1"; "aod_lag_2"; "aod_lag_3"; "aod_lag_6"; "aod_lag_12"; "aod_lag_24";
   "aod_rolling_3"; "temp_rolling_3"; "aod_rolling_6"; "temp_rolling_6";
   "aod_rolling_12"; "temp_rolling_12"; "aod_rolling_24"; "temp_rolling_24";
   "aod_volatility_3h"; "temp_volatility_6h";
   "day_of_year"; "season_sin"; "season_cos"; "hour_sin"; "hour_cos"].
Definition late_optional_names : list string :=
  ["pm25_lag_1"; "pm25_lag_2"; "pm25_lag_3"; "pm25_lag_6"; "pm25_lag_12";
   "pm25_lag_24"].

(** The columns the pipeline writes on every input. *)
Definition derived_names : list string :=
  ("recorded_at" :: early_names ++ late_names)%list.

(** The columns it writes on some inputs only. *)
Definition optional_names : list string :=
  (early_optional_names ++ late_optional_names)%list.

(** The columns it writes whatever the input holds: all of the above but
    [humidity], which it keeps when the input has one. *)
Definition overwritten_names : list string :=
  List.filter (λ k, negb (String.eqb k "humidity")) (derived_names ++ optional_names).

(** What holds of a frame [df] the pipeline has reached from the input
    [df0]: the row count is unchanged, the columns [P] are present, no
    input column was dropped, every other column has a name of [W], and
    the frame is well formed if the input was. *)
Definition frame_inv (df0 : DataFrame) (W P : list string) (df : DataFrame) : Prop :=
  nrows df = nrows df0
  ∧ (∀ k, k ∈ P → is_Some (columns df !! k))
  ∧ (∀ k, is_Some (columns df0 !! k) → is_Some (columns df !! k))
  ∧ (∀ k, is_Some (columns df !! k) → k ∈ W ∨ is_Some (columns df0 !! k))
  ∧ (well_formed df0 → well_formed df).

(** A column of the frame [dfb] whose name is not in [W'] holds in [df]
    the cells it had in [dfb], rearranged by [g]. *)
Definition passes (dfb : DataFrame) (W' : list string) (g : series → series)
    (df : DataFrame) : Prop :=
  ∀ k c, columns dfb !! k = Some c → k ∉ W' → columns df !! k = Some (g c).

(** A frame without a rainfall column. *)
Definition frame_no_rainfall : DataFrame :=
  {| nrows := 2;
     columns := list_to_map
       [("satellite_aod", Num <$> [qz 300; qz 600]);
        ("min_temp", Num <$> [qz 20; qz 25]);
        ("max_temp", Num <$> [qz 30; qz 35])] |}.

(** The order the sort compares keys in: [a] does not come after [b]. *)
Definition time_le (a b : cell) : Prop := time_lt b a = false.

(** Every element is related to all the elements after it. *)
Fixpoint sorted_by {A} (R : A → A → Prop) (l : list A) : Prop :=
  match l with
  | [] => True
  | x :: l' => Forall (R x) l' ∧ sorted_by R l'
  end.

(** The timestamps never decrease along the list. *)
Definition ascending (ts : list Z) : Prop :=
  ∀ i j a b, (i ≤ j)%nat → ts !! i = Some a → ts !! j = Some b → (a ≤ b)%Z.

(** The label of an hour of the day under the bins [[0, 6, 12, 18, 24]]. *)
Definition hour_label (h : Z) : string :=
  if (h <=? 6)%Z then "night"
  else if (h <=? 12)%Z then "morning"
  else if (h <=? 18)%Z then "afternoon"
  else "evening".

(** A frame with a humidity column and a station label, in reverse time
    order. *)
Definition frame_with_humidity : DataFrame :=
  {| nrows := 2;
     columns := list_to_map
       [("satellite_aod", Num <$> [qz 300; qz 600]);
        ("min_temp", Num <$> [qz 20; qz 25]);
        ("max_temp", Num <$> [qz 30; qz 35]);
        ("rainfall", Num <$> [0; 0]);
        ("humidity", Num <$> [qz 95; qz 10]);
        ("station", [Str "b"; Str "a"]);
        ("recorded_at", Time <$> [1751331600; 1751328000]%Z)] |}.

(** A lag column after the final fill: with more rows than the lag, the
    first rows take the first value and the others the value [k] rows
    above; otherwise nothing is defined. *)
Definition filled_lag (k : nat) (xs : list Qc) : series :=
  if decide (k < length xs)%nat
  then Num <$> (replicate k (default 0 (head xs)) ++ take (length xs - k) xs)%list
  else replicate (length xs) NaN.






(** * Verification *)

(** Closed computations: evaluate, then compare the rationals up to the
    canonicity proofs they carry. *)
Ltac qc_eq := solve [ reflexivity | apply Qc_is_canon; reflexivity ].
Ltac qc_compute := vm_compute; repeat first [ qc_eq | f_equal ].


(** ** Case analysis on the result monad *)

(** Case analysis on the first computation of a chain of binds. *)
Ltac case_bind :=
  match goal with
  | |- context [@mbind result _ _ _ _ ?m] =>
      let E := fresh "E" in destruct m eqn:E; cbn [mbind result_bind]
  end.

(** ** The dispatcher *)

Lemma available_loaded reg t : available reg t = true → loaded reg t = true.
Proof.
  destruct reg as [bm bs em am asc af], t; cbn;
    repeat match goal with o : option _ |- _ => destruct o end; cbn;
    rewrite ?andb_false_r; auto.
Qed.

(** A tier's handler answers either a result that names the tier, or the
    tier's own error. *)
Lemma run_tier_cases lib reg now t data :
  (∃ v extra, run_tier lib reg now t data =
      jsonify (PyDict ([("calibrated_pm25", PyNum (round2 v));
                        ("source", PyStr (source_name t));
                        ("model_version", PyStr (model_version t));
                        ("confidence", PyStr (confidence t))] ++ extra)))
  ∨ (∃ e, run_tier lib reg now t data = tier_error t e).
Proof.
  destruct t; cbn [run_tier];
    [ unfold calibrate_with_basic_model
    | unfold calibrate_with_ensemble_model
    | unfold calibrate_with_advanced_model ];
    repeat (case_bind; [| right; eexists; reflexivity ]).
  - left. eexists _, []. reflexivity.
  - left. eexists _, [_]. reflexivity.
  - left. eexists _, [_]. reflexivity.
Qed.

Lemma run_tier_missing_field lib reg now t data k :
  k ∈ required_fields → is_ok (subscript data k) = false →
  ∃ e, run_tier lib reg now t data = tier_error t e.
Proof.
  intros Hk Hmiss.
  assert (∃ e, (f1 ← subscript data "satellite_aod";
                f2 ← subscript data "min_temp";
                f3 ← subscript data "max_temp";
                f4 ← subscript data "rainfall";
                Ok (f1, f2, f3, f4)) = Raise e) as [e He].
  { unfold required_fields in Hk.
    repeat (apply elem_of_cons in Hk as [-> | Hk]);
      [ .. | by apply elem_of_nil in Hk ];
      repeat (case_bind; [| eexists; reflexivity ]); discriminate. }
  exists e. revert He.
  destruct t; cbn [run_tier];
    [ unfold calibrate_with_basic_model
    | unfold calibrate_with_ensemble_model
    | unfold calibrate_with_advanced_model ];
    repeat (case_bind; [| intros [= ->]; reflexivity ]); discriminate.
Qed.

Lemma response_field_tier_error t e k : k ≠ "error" → response_field (tier_error t e) k = None.
Proof.
  intros Hk. unfold response_field, tier_error, error_body. cbn.
  destruct (decide ("error" = k)); congruence.
Qed.

Lemma calibrate_aod_dispatch lib reg now data :
  truthy data = true →
  calibrate_aod lib reg now (JsonBody data) =
    Returned match best_tier reg with
             | Some t => run_tier lib reg now t data
             | None => (error_body "No models available", 500%Z)
             end.
Proof.
  intros Hd. unfold calibrate_aod, best_tier, available.
  cbn [request_get_json]. rewrite Hd. cbn [negb]. f_equal.
  repeat match goal with |- context [if ?b then _ else _] => destruct b eqn:? end;
    reflexivity.
Qed.

(** A forced endpoint on any request. *)
Lemma calibrate_forced_cases lib reg now t request :
  calibrate_forced lib reg now t request =
    match request with
    | NotJson => Aborted UnsupportedMediaType
    | BadJson => Aborted BadRequest
    | JsonBody data =>
        Returned (if truthy data
                  then if available reg t then run_tier lib reg now t data
                       else tier_unavailable t
                  else no_json_data)
    end.
Proof.
  destruct t; cbn [calibrate_forced run_tier available];
    [ unfold calibrate_basic | unfold calibrate_ensemble | unfold calibrate_advanced ];
    destruct request as [| |data]; cbn [request_get_json]; try reflexivity;
    destruct (truthy data); cbn [negb]; try reflexivity;
    match goal with |- context [negb ?b] => destruct b end; reflexivity.
Qed.

Lemma calibrate_forced_dispatch lib reg now t data :
  truthy data = true →
  calibrate_forced lib reg now t (JsonBody data) =
    Returned (if available reg t then run_tier lib reg now t data
              else tier_unavailable t).
Proof. intros Hd. by rewrite calibrate_forced_cases, Hd. Qed.

(** What the endpoints answer to a request without a parsed body, and to a
    body that parses to a falsy value. *)
Lemma endpoints_aborted lib reg now request e :
  request_get_json request = inl e →
  endpoints lib reg now request = [Aborted e; Aborted e; Aborted e; Aborted e].
Proof.
  intros He. unfold endpoints, calibrate_aod, calibrate_basic, calibrate_ensemble,
    calibrate_advanced. by rewrite He.
Qed.

Lemma endpoints_falsy lib reg now data :
  truthy data = false →
  endpoints lib reg now (JsonBody data)
  = [Returned no_json_data; Returned no_json_data;
     Returned no_json_data; Returned no_json_data].
Proof.
  intros Hd. unfold endpoints, calibrate_aod, calibrate_basic, calibrate_ensemble,
    calibrate_advanced. cbn [request_get_json]. by rewrite Hd.
Qed.

(** The [default_model] that [GET /health] reports is the best tier. *)
Lemma default_model_best_tier reg :
  default_model reg
  = match best_tier reg with
    | Some Advanced => "advanced"
    | Some Ensemble => "ensemble"
    | Some Basic => "basic"
    | None => "none"
    end.
Proof.
  unfold default_model, best_tier, available.
  repeat match goal with |- context [if ?b then _ else _] => destruct b end;
    reflexivity.
Qed.

(** C1 (as amended).  On a request whose body parses to a truthy value,
    [calibrate_aod] runs the handler of the best tier in the order advanced
    > ensemble > basic, a tier being available only when all its
    sub-artifacts are loaded; the answer is either a result naming that tier
    as its source or that tier's own error with status 500; with no tier
    available the answer is the 500 error "No models available". *)
Theorem calibrate_aod_selects_best_tier lib reg now data :
  truthy data = true →
  match best_tier reg with
  | Some t =>
      loaded reg t = true
      ∧ calibrate_aod lib reg now (JsonBody data)
        = Returned (run_tier lib reg now t data)
      ∧ (status (calibrate_aod lib reg now (JsonBody data)) = 200%Z
         ∧ reply_field (calibrate_aod lib reg now (JsonBody data)) "source"
           = Some (PyStr (source_name t))
         ∨ ∃ e, calibrate_aod lib reg now (JsonBody data) = Returned (tier_error t e))
  | None =>
      calibrate_aod lib reg now (JsonBody data)
      = Returned (error_body "No models available", 500%Z)
  end.
Proof.
  intros Hd. rewrite (calibrate_aod_dispatch _ _ _ _ Hd).
  destruct (best_tier reg) as [t|] eqn:Hb; [| reflexivity].
  split; [| split; [reflexivity |]].
  - apply available_loaded. unfold best_tier in Hb.
    repeat match type of Hb with
           | (if ?b then _ else _) = _ => destruct b eqn:?
           end; congruence.
  - cbn [status reply_field].
    destruct (run_tier_cases lib reg now t data) as [(v & extra & ->) | [e ->]].
    + left. split; [reflexivity |]. destruct t; reflexivity.
    + right. eauto.
Qed.

Lemma calibrate_aod_selects_best_tier_witness :
  truthy body_ok = true
  ∧ match best_tier reg_all with
    | Some t =>
        loaded reg_all t = true
        ∧ calibrate_aod lib0 reg_all 1751328000 (JsonBody body_ok)
          = Returned (run_tier lib0 reg_all 1751328000 t body_ok)
        ∧ (status (calibrate_aod lib0 reg_all 1751328000 (JsonBody body_ok)) = 200%Z
           ∧ reply_field (calibrate_aod lib0 reg_all 1751328000 (JsonBody body_ok))
               "source"
             = Some (PyStr (source_name t))
           ∨ ∃ e, calibrate_aod lib0 reg_all 1751328000 (JsonBody body_ok)
                  = Returned (tier_error t e))
    | None =>
        calibrate_aod lib0 reg_all 1751328000 (JsonBody body_ok)
        = Returned (error_body "No models available", 500%Z)
    end.
Proof.
  split; [reflexivity |].
  apply (calibrate_aod_selects_best_tier lib0 reg_all 1751328000 body_ok).
  reflexivity.
Defined.

(** C1 (counterexample).  A non-empty body without [rainfall], with only
    the basic tier loaded: the basic tier is selected, and the answer is
    its error with status 500, which carries no source. *)
Lemma calibrate_aod_missing_field_no_source :
  truthy body_no_rainfall = true
  ∧ best_tier reg_basic = Some Basic
  ∧ calibrate_aod lib0 reg_basic 1751328000 (JsonBody body_no_rainfall)
    = Returned (error_body "Basic model error: 'rainfall'", 500%Z)
  ∧ reply_field (calibrate_aod lib0 reg_basic 1751328000 (JsonBody body_no_rainfall))
      "source"
    = None.
Proof. repeat split; vm_compute; reflexivity. Qed.

(** C5 (as amended).  A calibration request without a valid body gets no
    prediction from any calibration endpoint, and the failure depends on
    what is wrong.  A request whose content type is not JSON, as one
    without any body, is aborted by [get_json] with 415, and one whose JSON
    body is empty or malformed with Flask's own 400, both before the view
    looks at the body; a body that parses to a falsy value is answered with
    the 400 error "No JSON data provided"; a truthy body that lacks one of
    the four required fields is answered with a JSON error of status 500:
    the error of the tier that was run, or the error that the tier, or any
    model, is not available. *)
Theorem invalid_body_rejected lib reg now request r :
  invalid_request request = true →
  r ∈ endpoints lib reg now request →
  reply_field r "calibrated_pm25" = None
  ∧ match request with
    | NotJson => r = Aborted UnsupportedMediaType ∧ status r = 415%Z
    | BadJson => r = Aborted BadRequest ∧ status r = 400%Z
    | JsonBody data =>
        if truthy data
        then status r = 500%Z
             ∧ ((∃ t e, r = Returned (tier_error t e))
                ∨ (∃ t, r = Returned (tier_unavailable t))
                ∨ r = Returned (error_body "No models available", 500%Z))
        else r = Returned no_json_data ∧ status r = 400%Z
    end.
Proof.
  intros Hinv Hr.
  destruct request as [| |data].
  - rewrite (endpoints_aborted lib reg now NotJson UnsupportedMediaType eq_refl) in Hr.
    repeat (apply elem_of_cons in Hr as [-> | Hr]);
      [ .. | by apply elem_of_nil in Hr ]; repeat split.
  - rewrite (endpoints_aborted lib reg now BadJson BadRequest eq_refl) in Hr.
    repeat (apply elem_of_cons in Hr as [-> | Hr]);
      [ .. | by apply elem_of_nil in Hr ]; repeat split.
  - cbn [invalid_request] in Hinv. destruct (truthy data) eqn:Hd.
    + (* a truthy body that lacks a field *)
      assert (∃ k, k ∈ required_fields ∧ is_ok (subscript data k) = false)
        as (k & Hk & Hmiss).
      { unfold invalid_body in Hinv. rewrite Hd in Hinv. cbn [negb orb] in Hinv.
        apply existsb_exists in Hinv as (k & Hin & Hk).
        exists k. split; [by apply list_elem_of_In | by apply negb_true_iff]. }
      pose (failed (r : reply) :=
              reply_field r "calibrated_pm25" = None
              ∧ status r = 500%Z
              ∧ ((∃ t e, r = Returned (tier_error t e))
                 ∨ (∃ t, r = Returned (tier_unavailable t))
                 ∨ r = Returned (error_body "No models available", 500%Z))).
      assert (∀ t, failed (Returned (run_tier lib reg now t data))) as Hrun.
      { intros t. destruct (run_tier_missing_field lib reg now t data k Hk Hmiss) as [e ->].
        split; [by apply response_field_tier_error |].
        split; [reflexivity | left; by eexists _, _]. }
      assert (∀ t, failed (calibrate_forced lib reg now t (JsonBody data))) as Hforced.
      { intros t. rewrite (calibrate_forced_dispatch _ _ _ _ _ Hd).
        destruct (available reg t); [apply Hrun |].
        split; [by destruct t |]. split; [reflexivity | right; left; by eexists]. }
      assert (failed r) as Hfailed; [| by destruct Hfailed as (? & ? & ?)].
      unfold endpoints in Hr.
      repeat (apply elem_of_cons in Hr as [-> | Hr]);
        [ | apply (Hforced Basic) | apply (Hforced Ensemble) | apply (Hforced Advanced)
          | by apply elem_of_nil in Hr ].
      rewrite (calibrate_aod_dispatch _ _ _ _ Hd).
      destruct (best_tier reg) as [t|]; [apply Hrun |].
      split; [reflexivity |]. split; [reflexivity | by right; right].
    + (* a body that parses to a falsy value *)
      rewrite (endpoints_falsy lib reg now data Hd) in Hr.
      repeat (apply elem_of_cons in Hr as [-> | Hr]);
        [ .. | by apply elem_of_nil in Hr ]; repeat split.
Qed.

Lemma invalid_body_rejected_witness :
  invalid_request (JsonBody body_no_rainfall) = true
  ∧ calibrate_aod lib0 reg_all 0 (JsonBody body_no_rainfall)
    ∈ endpoints lib0 reg_all 0 (JsonBody body_no_rainfall)
  ∧ reply_field (calibrate_aod lib0 reg_all 0 (JsonBody body_no_rainfall))
      "calibrated_pm25" = None
  ∧ status (calibrate_aod lib0 reg_all 0 (JsonBody body_no_rainfall)) = 500%Z.
Proof.
  assert (Hin : calibrate_aod lib0 reg_all 0 (JsonBody body_no_rainfall)
                ∈ endpoints lib0 reg_all 0 (JsonBody body_no_rainfall))
    by apply list_elem_of_here.
  split; [reflexivity | split; [exact Hin |]].
  destruct (invalid_body_rejected lib0 reg_all 0 (JsonBody body_no_rainfall) _
              eq_refl Hin) as [Hnone Hcase].
  split; [exact Hnone |]. exact (proj1 Hcase).
Defined.

(** C5 (counterexample).  The body lacks [rainfall] and the basic tier is
    loaded: the forced basic endpoint answers with status 500 and the
    basic tier's error, not with the 400 of a bad input. *)
Lemma missing_field_is_server_error :
  invalid_request (JsonBody body_no_rainfall) = true
  ∧ calibrate_basic reg_basic (JsonBody body_no_rainfall)
    = Returned (error_body "Basic model error: 'rainfall'", 500%Z)
  ∧ status (calibrate_basic reg_basic (JsonBody body_no_rainfall)) ≠ 400%Z.
Proof. repeat split; vm_compute; congruence. Qed.

(** C6 (as amended).  On a request whose body parses to a truthy value, a
    forced-tier endpoint runs the handler of exactly its tier when the tier
    is available, and otherwise answers the 500 error "<Tier> model not
    available"; a tier with a sub-artifact that is not loaded is never
    available; no other tier's result is ever served.  The tier is looked
    at after the body: a body that parses to a falsy value is answered
    with the 400 error "No JSON data provided", and a request that
    [get_json] aborts (415 without a JSON content type, 400 when the JSON
    body is empty or malformed) gets Flask's error page. *)
Theorem forced_tier_dispatch lib reg now t request :
  (loaded reg t = false → available reg t = false)
  ∧ calibrate_forced lib reg now t request
    = match request with
      | NotJson => Aborted UnsupportedMediaType
      | BadJson => Aborted BadRequest
      | JsonBody data =>
          Returned (if truthy data
                    then if available reg t then run_tier lib reg now t data
                         else tier_unavailable t
                    else no_json_data)
      end
  ∧ ∀ t', reply_field (calibrate_forced lib reg now t request) "source"
          = Some (PyStr (source_name t')) → t' = t ∧ available reg t = true.
Proof.
  split; [| split].
  - intros Hl. destruct (available reg t) eqn:Ha; [| reflexivity].
    apply available_loaded in Ha. congruence.
  - apply calibrate_forced_cases.
  - intros t'. rewrite calibrate_forced_cases.
    destruct request as [| |data]; cbn [reply_field]; [discriminate .. |].
    destruct (truthy data); [| discriminate].
    destruct (available reg t).
    + destruct (run_tier_cases lib reg now t data) as [(v & extra & ->) | [e ->]].
      * destruct t, t'; cbn; intros [=]; auto.
      * rewrite response_field_tier_error by done. discriminate.
    + destruct t; cbn; discriminate.
Qed.

(** C6 (counterexample).  Forced-tier requests for a tier that is not
    loaded: without a JSON content type the answer is Flask's 415, and with
    the body [null] it is the 400 error "No JSON data provided"; neither is
    the error that names the unavailable tier. *)
Lemma forced_tier_unloaded_no_body :
  loaded reg_basic Ensemble = false
  ∧ calibrate_forced lib0 reg_basic 0 Ensemble NotJson = Aborted UnsupportedMediaType
  ∧ calibrate_forced lib0 reg_basic 0 Ensemble (JsonBody PyNone) = Returned no_json_data
  ∧ calibrate_forced lib0 reg_basic 0 Ensemble NotJson
    ≠ Returned (tier_unavailable Ensemble)
  ∧ calibrate_forced lib0 reg_basic 0 Ensemble (JsonBody PyNone)
    ≠ Returned (tier_unavailable Ensemble).
Proof. repeat split; vm_compute; congruence. Qed.

(** C10 (as amended).  A body that parses to the empty object is answered
    by every calibration endpoint with the 400 error "No JSON data
    provided", whatever artifacts are loaded, and so is every body that
    parses to a falsy value ([null] among them): the check tests falsiness,
    so such a body never reaches a handler and gets no prediction. *)
Theorem empty_object_rejected lib reg now :
  endpoints lib reg now (JsonBody (PyDict []))
  = [Returned no_json_data; Returned no_json_data;
     Returned no_json_data; Returned no_json_data]
  ∧ no_json_data = (error_body "No JSON data provided", 400%Z)
  ∧ (∀ data, truthy data = false →
       endpoints lib reg now (JsonBody data)
       = endpoints lib reg now (JsonBody (PyDict [])))
  ∧ (∀ r, r ∈ endpoints lib reg now (JsonBody (PyDict [])) →
       status r = 400%Z ∧ reply_field r "calibrated_pm25" = None).
Proof.
  split; [by apply endpoints_falsy |]. split; [reflexivity |]. split.
  - intros data Hd. by rewrite !endpoints_falsy.
  - intros r Hr. rewrite endpoints_falsy in Hr by done.
    repeat (apply elem_of_cons in Hr as [-> | Hr]);
      [ .. | by apply elem_of_nil in Hr ]; split; reflexivity.
Qed.

(** C10 (counterexample).  A request with no body at all is not answered
    as the empty object is: [get_json] aborts it before the check, with 415
    when the request has no JSON content type, and with Flask's own 400
    page, not the JSON error, when the content type is JSON and the body is
    empty. *)
Lemma no_body_is_not_empty_object :
  endpoints lib0 reg_all 0 NotJson
  = [Aborted UnsupportedMediaType; Aborted UnsupportedMediaType;
     Aborted UnsupportedMediaType; Aborted UnsupportedMediaType]
  ∧ status <$> endpoints lib0 reg_all 0 NotJson = [415; 415; 415; 415]%Z
  ∧ endpoints lib0 reg_all 0 BadJson
    = [Aborted BadRequest; Aborted BadRequest; Aborted BadRequest; Aborted BadRequest]
  ∧ status <$> endpoints lib0 reg_all 0 (JsonBody (PyDict [])) = [400; 400; 400; 400]%Z
  ∧ endpoints lib0 reg_all 0 NotJson ≠ endpoints lib0 reg_all 0 (JsonBody (PyDict []))
  ∧ endpoints lib0 reg_all 0 BadJson ≠ endpoints lib0 reg_all 0 (JsonBody (PyDict [])).
Proof. repeat split; vm_compute; congruence. Qed.

(** ** Rounding to two decimals *)

Lemma rint_close (x : Qc) :
  (inject_Z (rint x) - (1 # 2) <= x)%Q ∧ (x <= inject_Z (rint x) + (1 # 2))%Q.
Proof.
  unfold rint.
  pose proof (Qfloor_le x) as Hlo. pose proof (Qlt_floor x) as Hhi.
  rewrite inject_Z_plus in Hhi. change (inject_Z 1) with 1%Q in Hhi.
  set (f := Qfloor x) in *.
  assert (Hr : (this (x - qz f) == x - inject_Z f)%Q).
  { cbn. rewrite !Qred_correct. ring. }
  destruct (Qccompare (x - qz f) (qfrac 1 2)) eqn:Hc.
  - apply Qceq_alt in Hc. apply (f_equal this) in Hc.
    assert ((x - inject_Z f == 1 # 2)%Q) as Hh.
    { rewrite <- Hr, Hc. reflexivity. }
    destruct (Z.even f); rewrite ?inject_Z_plus; change (inject_Z 1) with 1%Q; lra.
  - apply Qclt_alt in Hc. unfold Qclt in Hc. rewrite Hr in Hc.
    change (this (qfrac 1 2)) with (1 # 2)%Q in Hc. lra.
  - apply Qcgt_alt in Hc. unfold Qclt in Hc. rewrite Hr in Hc.
    change (this (qfrac 1 2)) with (1 # 2)%Q in Hc.
    rewrite inject_Z_plus. change (inject_Z 1) with 1%Q. lra.
Qed.

(** [round2 v] is a whole number of hundredths, at most half a hundredth
    away from [v]. *)
Lemma round2_two_decimals (v : Qc) :
  round2 v * qz 100 = qz (rint (v * qz 100))
  ∧ round2 v - qfrac 1 200 ≤ v ∧ v ≤ round2 v + qfrac 1 200.
Proof.
  split.
  { unfold round2. field. discriminate. }
  destruct (rint_close (v * qz 100)) as [Hlo Hhi].
  set (n := rint (v * qz 100)) in *.
  assert (Hm : (this (v * qz 100) == v * 100)%Q).
  { cbn. rewrite !Qred_correct. ring. }
  rewrite Hm in Hlo, Hhi.
  assert (Hr : (this (round2 v) == inject_Z n * (1 # 100))%Q).
  { unfold round2. fold n. unfold Qcdiv, Qcmult, Qcinv. cbn.
    rewrite !Qred_correct. reflexivity. }
  assert (Hsub : (this (round2 v - qfrac 1 200) == round2 v - (1 # 200))%Q).
  { unfold Qcminus, Qcplus, Qcopp. cbn [this Q2Qc]. rewrite !Qred_correct. reflexivity. }
  assert (Hadd : (this (round2 v + qfrac 1 200) == round2 v + (1 # 200))%Q).
  { unfold Qcplus. cbn [this Q2Qc]. rewrite !Qred_correct. reflexivity. }
  unfold Qcle. rewrite Hsub, Hadd, Hr. clearbody n. split; lra.
Qed.

(** ** The response contract *)

Lemma first_head (p : list Qc) v : first p = Ok v → head p = Some v.
Proof. unfold first. destruct (head p); cbn; congruence. Qed.

(** A handler that answers 200 answers the normalized result of its tier,
    for a value its predictor returned. *)
Lemma run_tier_success lib reg now t data :
  (run_tier lib reg now t data).2 = 200%Z →
  ∃ v, predicted_by reg t v ∧ run_tier lib reg now t data = tier_result reg t v.
Proof.
  unfold tier_result, tier_extra, predicted_by.
  destruct t; cbn [run_tier];
    [ unfold calibrate_with_basic_model
    | unfold calibrate_with_ensemble_model
    | unfold calibrate_with_advanced_model ];
    repeat (case_bind; [| discriminate ]); intros _.
  - destruct (basic_model reg) as [model|]; [| discriminate].
    match goal with H : of_option (Some _) _ = Ok _ |- _ => injection H as <- end.
    eexists. split; [| reflexivity].
    eexists _, _, _. eauto using first_head.
  - destruct (ensemble_model reg) as [ens|]; [| discriminate].
    match goal with H : of_option (Some _) _ = Ok _ |- _ => injection H as <- end.
    eexists. split; [| reflexivity].
    eexists _, _, _. eauto.
  - destruct (advanced_model reg) as [model|]; [| discriminate].
    destruct (advanced_features reg) as [features|]; [| discriminate].
    repeat match goal with H : of_option (Some _) _ = Ok _ |- _ => injection H as <- end.
    eexists. split; [| reflexivity].
    eexists _, _, _. eauto using first_head.
Qed.

(** ** The ensemble combiner *)

Lemma foldl_raise {A B} (f : result A → B → result A) (l : list B) e :
  (∀ e' b, f (Raise e') b = Raise e') → foldl f (Raise e) l = Raise e.
Proof. intros Hf. induction l as [|b l IH]; cbn; [done | by rewrite Hf]. Qed.

Section Combiner.
Context (self : EnsembleModel).
Import EnsembleModel.

Lemma sum_step_missing_weight ws preds (l : list string) acc name :
  name ∈ l → ws !! name = None →
  ∃ e, foldl (sum_step ws preds) acc l = Raise e.
Proof.
  intros Hin Hw. revert acc.
  induction l as [|x l IH]; intros acc; [by apply elem_of_nil in Hin |].
  cbn [foldl]. apply elem_of_cons in Hin as [<- | Hin]; [| by apply IH].
  exists (match acc with Ok _ => KeyError name | Raise e => e end).
  destruct acc as [a|e]; cbn; [rewrite Hw; cbn |]; by apply foldl_raise.
Qed.

Lemma sum_step_extra_weight ws preds (l : list string) acc name w :
  name ∉ l →
  foldl (sum_step (<[name := w]> ws) preds) acc l = foldl (sum_step ws preds) acc l.
Proof.
  revert acc. induction l as [|x l IH]; intros acc Hnot; [done |].
  apply not_elem_of_cons in Hnot as [Hne Hnot].
  cbn [foldl]. rewrite IH by done. f_equal.
  unfold sum_step. by rewrite lookup_insert_ne.
Qed.

Lemma run_step_spec X rows (l : list (string * Regressor)) acc :
  NoDup l.*1 →
  (∀ name m, (name, m) ∈ l → reg_predict m X = Ok (map (reg_fn m) rows)) →
  ∃ preds, foldl (run_step X) (Ok acc) l = Ok preds
           ∧ (∀ name m, (name, m) ∈ l → preds !! name = Some (map (reg_fn m) rows))
           ∧ (∀ name, name ∉ l.*1 → preds !! name = acc !! name).
Proof.
  revert acc. induction l as [|[n m] l IH]; intros acc Hnd Hok.
  - exists acc. split; [done |]. split; [| done].
    intros ?? Hin. by apply elem_of_nil in Hin.
  - apply NoDup_cons in Hnd as [Hn Hnd]. cbn [foldl]. unfold run_step at 2. cbn [fst snd mbind result_bind].
    rewrite (Hok n m) by apply list_elem_of_here. cbn [mbind result_bind].
    destruct (IH (<[n := map (reg_fn m) rows]> acc) Hnd) as (preds & Hf & Hin & Hout).
    { intros name' m' ?. apply (Hok name'). by apply list_elem_of_further. }
    exists preds. split; [exact Hf |]. split.
    + intros name m' [[= -> ->] | Hm]%elem_of_cons; [| by apply Hin].
      rewrite Hout by done. apply lookup_insert_eq.
    + intros name [Hne Hnot]%not_elem_of_cons.
      rewrite Hout by done. by apply lookup_insert_ne.
Qed.

Lemma sum_step_spec (ws : gmap string Qc) preds rows (l : list (string * Regressor)) a :
  (∀ name m, (name, m) ∈ l →
     preds !! name = Some (map (reg_fn m) rows) ∧ is_Some (ws !! name)) →
  foldl (sum_step ws preds) (Ok a) l.*1
  = Ok (foldl (λ a nm, add_weighted a (default 0 (ws !! nm.1)) (map (reg_fn nm.2) rows))
              a l).
Proof.
  revert a. induction l as [|[n m] l IH]; intros a Hl; [done |].
  destruct (Hl n m) as [Hp [w Hw]]; [apply list_elem_of_here |].
  cbn [fmap list_fmap foldl fst snd]. unfold sum_step at 2.
  cbn [mbind result_bind]. rewrite Hw, Hp. cbn.
  apply IH. intros ???. apply Hl. by apply list_elem_of_further.
Qed.

Lemma add_weighted_rows (ws : gmap string Qc) (rows : list (list Qc)) (l : list (string * Regressor))
    (g : list Qc → Qc) :
  foldl (λ a nm, add_weighted a (default 0 (ws !! nm.1)) (map (reg_fn nm.2) rows))
        (PArr (map g rows)) l
  = PArr (map (λ row, foldl (λ s nm, s + default 0 (ws !! nm.1) * reg_fn nm.2 row)
                            (g row) l) rows).
Proof.
  revert g. induction l as [|[n m] l IH]; intros g; [done |].
  cbn [foldl add_weighted fst snd].
  rewrite <- (IH (λ row, g row + default 0 (ws !! n) * reg_fn m row)).
  do 2 f_equal. clear IH. induction rows as [|row rows IHr]; [done |].
  cbn. by rewrite IHr.
Qed.

(** What the two loops of [predict] compute on an input the learners
    accept, when every learner has a weight. *)
Lemma blend_loops X rows :
  accepted self X rows →
  (∀ name, is_Some (models self !! name) → is_Some (weights self !! name)) →
  EnsembleModel.run_models self X ≫= EnsembleModel.weighted_sum self
  = Ok (match map_to_list (models self) with
        | [] => PInt 0
        | _ => PArr (map (blend self) rows)
        end).
Proof.
  intros [Hrows Hwidth] Hws.
  unfold EnsembleModel.run_models, EnsembleModel.weighted_sum.
  destruct (run_step_spec X rows (map_to_list (models self)) ∅) as (preds & Hf & Hin & _).
  { apply NoDup_fst_map_to_list. }
  { intros name m Hm%elem_of_map_to_list. unfold reg_predict.
    rewrite Hrows. cbn. rewrite (Hwidth name m Hm). reflexivity. }
  rewrite Hf. cbn [mbind result_bind].
  rewrite (sum_step_spec _ _ rows).
  2:{ intros name m Hm. split; [by apply Hin |].
      apply Hws. apply elem_of_map_to_list in Hm. eauto. }
  f_equal. unfold blend.
  destruct (map_to_list (models self)) as [|[n m] l]; [done |].
  cbn [foldl add_weighted fst snd].
  rewrite <- (add_weighted_rows _ _ _ (λ row, qz 0 + default 0 (weights self !! n) * reg_fn m row)).
  do 2 f_equal. clear. induction rows as [|row rows IH]; [done |].
  cbn. by rewrite IH.
Qed.

Lemma run_step_keys X (l : list (string * Regressor)) acc preds :
  foldl (run_step X) acc l = Ok preds →
  ∀ name, name ∈ l.*1 → is_Some (preds !! name).
Proof.
  assert (∀ l acc preds, foldl (run_step X) acc l = Ok preds →
            ∀ name a, acc = Ok a → is_Some (a !! name) → is_Some (preds !! name))
    as Hkeep.
  { clear. induction l as [|[n m] l IH]; intros acc preds Hf name a -> Ha.
    - cbn in Hf. by injection Hf as <-.
    - cbn [foldl] in Hf. unfold run_step at 2 in Hf. cbn [fst snd mbind result_bind] in Hf.
      destruct (reg_predict m X) as [p|e]; cbn [mbind result_bind] in Hf.
      + eapply IH; [exact Hf | reflexivity |].
        destruct (decide (n = name)) as [->|];
          [rewrite lookup_insert_eq | rewrite lookup_insert_ne]; eauto.
      + rewrite foldl_raise in Hf; [discriminate | by intros ? []]. }
  revert acc. induction l as [|[n m] l IH]; intros acc Hf name Hin.
  - by apply elem_of_nil in Hin.
  - cbn [fmap list_fmap fst] in Hin. cbn [foldl] in Hf.
    apply elem_of_cons in Hin as [-> | Hin]; [| by eapply IH].
    destruct acc as [a|e]; unfold run_step at 2 in Hf; cbn [fst snd mbind result_bind] in Hf.
    + destruct (reg_predict m X) as [p|e]; cbn [mbind result_bind] in Hf.
      * eapply Hkeep; [exact Hf | reflexivity |]. rewrite lookup_insert_eq. eauto.
      * rewrite foldl_raise in Hf; [discriminate | by intros ? []].
    + rewrite foldl_raise in Hf; [discriminate | by intros ? []].
Qed.

Lemma sum_step_first_missing (ws : gmap string Qc) preds (l : list string) a :
  (∀ name, name ∈ l → is_Some (preds !! name)) →
  (∃ name, name ∈ l ∧ ws !! name = None) →
  ∃ name, name ∈ l ∧ ws !! name = None
          ∧ foldl (sum_step ws preds) (Ok a) l = Raise (KeyError name).
Proof.
  revert a. induction l as [|x l IH]; intros a Hp (name & Hin & Hw).
  - by apply elem_of_nil in Hin.
  - cbn [foldl]. unfold sum_step at 2. cbn [mbind result_bind].
    destruct (ws !! x) as [w|] eqn:Hx; cbn [of_option mbind result_bind].
    + destruct (Hp x) as [p Hpx]; [apply list_elem_of_here |].
      rewrite Hpx. cbn [of_option mbind result_bind].
      destruct (IH (add_weighted a w p)) as (name' & Hin' & Hw' & Hf).
      { intros ??. apply Hp. by apply list_elem_of_further. }
      { exists name. split; [| done].
        apply elem_of_cons in Hin as [-> | Hin]; [congruence | done]. }
      exists name'. split; [by apply list_elem_of_further | done].
    + exists x. split; [apply list_elem_of_here | split; [done |]].
      by apply foldl_raise.
Qed.

End Combiner.

Lemma predict_blend self X X' rows :
  EnsembleModel.scale_input self X = Ok X' →
  accepted self X' rows →
  (∀ name, is_Some (models self !! name) → is_Some (weights self !! name)) →
  EnsembleModel.predict self X
  = Ok (match map_to_list (models self) with
        | [] => PInt 0
        | _ => PArr (map (blend self) rows)
        end).
Proof.
  intros Hs Ha Hw. unfold EnsembleModel.predict. rewrite Hs. cbn [mbind result_bind].
  by apply blend_loops.
Qed.

(** C3 (the code at the failing input).  A plain list of rows, which is
    what the service passes, has no [shape]: it reaches the base learners
    unscaled, and the blend is taken over the raw rows; only an array of
    width 4 is transformed by the shared scaler.  On the self-test
    observation the two-learner ensemble [ens_ab] answers 600 for the
    list, and 40, the blend over the scaled row, for the same row given
    as an array of width 4. *)
Theorem predict_list_rows_not_scaled :
  (∀ self rows, EnsembleModel.scale_input self (PyRows rows) = Ok (PyRows rows))
  ∧ (∀ self n rows,
       EnsembleModel.scale_input self (NdArray n rows)
       = if decide (n = 4%nat) then transform (scaler self) (NdArray n rows)
         else Ok (NdArray n rows))
  ∧ (∀ self rows frows,
       accepted self (PyRows rows) frows →
       (∀ name, is_Some (models self !! name) → is_Some (weights self !! name)) →
       models self ≠ ∅ →
       EnsembleModel.predict self (PyRows rows) = Ok (PArr (map (blend self) frows)))
  ∧ EnsembleModel.predict ens_ab test_rows = Ok (PArr [qz 600])
  ∧ EnsembleModel.predict ens_ab test_array = Ok (PArr [qz 40])
  ∧ map (blend ens_ab) [scale_row (scaler ens_ab) [qz 300; qz 25; qz 35; 0]] = [qz 40]
  ∧ reply_field (calibrate_ensemble reg_all (JsonBody body_ok)) "calibrated_pm25"
    = Some (PyNum (qz 600)).
Proof.
  split; [done |]. split.
  { intros self n rows. by do 5 (destruct n as [|n]; [done |]). }
  split.
  { intros self rows frows Ha Hw Hne.
    rewrite (predict_blend self _ (PyRows rows) frows); [| done ..].
    destruct (map_to_list (models self)) eqn:Hl; [| done].
    by apply map_to_list_empty_iff in Hl. }
  repeat split; qc_compute.
Qed.

(** C7 (as amended).  A learner of the model map that has no entry in the
    weight map makes [predict] fail, with a [KeyError] naming such a
    learner once the learners themselves have run; an entry of the weight
    map whose learner is absent from the model map is ignored: the blend
    ranges over the model map only. *)
Theorem predict_weight_map_consistency self X :
  (∀ name, is_Some (models self !! name) → weights self !! name = None →
     (∃ e, EnsembleModel.predict self X = Raise e)
     ∧ ∀ X' preds,
         EnsembleModel.scale_input self X = Ok X' →
         EnsembleModel.run_models self X' = Ok preds →
         ∃ name', is_Some (models self !! name') ∧ weights self !! name' = None
                  ∧ EnsembleModel.predict self X = Raise (KeyError name'))
  ∧ (∀ name w, models self !! name = None →
       EnsembleModel.predict (with_weights self (<[name := w]> (weights self))) X
       = EnsembleModel.predict self X).
Proof.
  split.
  - intros name [m Hm] Hw.
    assert (Hin : name ∈ (map_to_list (models self)).*1).
    { apply list_elem_of_fmap. exists (name, m). split; [done |].
      by apply elem_of_map_to_list. }
    split.
    + unfold EnsembleModel.predict.
      destruct (EnsembleModel.scale_input self X) as [X'|e]; [| by eexists].
      cbn [mbind result_bind].
      destruct (EnsembleModel.run_models self X') as [preds|e]; [| by eexists].
      cbn [mbind result_bind]. by eapply sum_step_missing_weight.
    + intros X' preds Hs Hr. unfold EnsembleModel.predict.
      rewrite Hs. cbn [mbind result_bind]. rewrite Hr. cbn [mbind result_bind].
      destruct (sum_step_first_missing (weights self) preds
                  (map_to_list (models self)).*1 (PInt 0))
        as (name' & Hin' & Hw' & Hf).
      { by apply (run_step_keys X' _ (Ok ∅)). }
      { eauto. }
      exists name'. split; [| done].
      apply list_elem_of_fmap in Hin' as ([n' m'] & -> & Hm').
      apply elem_of_map_to_list in Hm'. cbn. eauto.
  - intros name w Hm. unfold EnsembleModel.predict.
    change (EnsembleModel.scale_input (with_weights self _) X)
      with (EnsembleModel.scale_input self X).
    destruct (EnsembleModel.scale_input self X) as [X'|e]; [| done].
    cbn [mbind result_bind].
    change (EnsembleModel.run_models (with_weights self _) X')
      with (EnsembleModel.run_models self X').
    destruct (EnsembleModel.run_models self X') as [preds|e]; [| done].
    cbn [mbind result_bind]. unfold EnsembleModel.weighted_sum.
    cbn [with_weights models weights]. apply sum_step_extra_weight.
    intros ([n m] & -> & Hin)%list_elem_of_fmap.
    apply elem_of_map_to_list in Hin. cbn in Hm. congruence.
Qed.

(** C7 (counterexample).  The weight map names the learners [a] and [b],
    the model map has only [a]: [predict] returns the blend over [a]
    alone, without any error. *)
Lemma predict_ignores_orphan_weight :
  is_Some (weights ens_orphan_weight !! "b")
  ∧ models ens_orphan_weight !! "b" = None
  ∧ EnsembleModel.predict ens_orphan_weight test_array = Ok (PArr [qz 10]).
Proof.
  split; [by eexists |]. split; [reflexivity |]. qc_compute.
Qed.

Example predict_missing_weight_raises :
  EnsembleModel.predict ens_missing_weight test_array = Raise (KeyError "b").
Proof. reflexivity. Qed.

(** ** The value of a successful response *)

Lemma run_step_ok_inv X (l : list (string * Regressor)) acc preds :
  foldl (EnsembleModel.run_step X) acc l = Ok preds →
  ∀ name m, (name, m) ∈ l → ∃ p, reg_predict m X = Ok p.
Proof.
  revert acc. induction l as [|[n m] l IH]; intros acc Hf name m' Hin.
  - by apply elem_of_nil in Hin.
  - cbn [foldl] in Hf. apply elem_of_cons in Hin as [[= -> ->] | Hin]; [| by eapply IH].
    destruct acc as [a|e]; unfold EnsembleModel.run_step at 2 in Hf;
      cbn [fst snd mbind result_bind] in Hf.
    + destruct (reg_predict m X) as [p|e]; [by eexists |].
      cbn [mbind result_bind] in Hf.
      rewrite foldl_raise in Hf; [discriminate | by intros ? []].
    + rewrite foldl_raise in Hf; [discriminate | by intros ? []].
Qed.

Lemma check_width_ok_inv n rows rows' :
  check_width n rows = Ok rows' →
  rows' = rows ∧ Forall (λ row, length row = n) rows.
Proof.
  unfold check_width. destruct (forallb _ rows) eqn:E; [| discriminate].
  intros [= <-]. split; [reflexivity |].
  apply Forall_forall. intros row Hrow%list_elem_of_In.
  by apply Nat.eqb_eq, (proj1 (forallb_forall _ _) E).
Qed.

Lemma reg_predict_ok_inv m X p :
  reg_predict m X = Ok p →
  ∃ rows, as_float_rows X = Ok rows
          ∧ check_width (reg_n_features m) rows = Ok rows
          ∧ p = map (reg_fn m) rows.
Proof.
  unfold reg_predict. destruct (as_float_rows X) as [rows|e]; [| discriminate].
  cbn [mbind result_bind].
  destruct (check_width (reg_n_features m) rows) as [rows'|e] eqn:E; [| discriminate].
  destruct (check_width_ok_inv _ _ _ E) as [-> _].
  cbn [mbind result_bind]. intros [= <-]. eauto.
Qed.

Lemma transform_ok_inv s X X' :
  transform s X = Ok X' →
  ∃ rows, as_float_rows X = Ok rows
          ∧ Forall (λ row, length row = n_features_in_ s) rows
          ∧ X' = NdArray (n_features_in_ s) (map (scale_row s) rows).
Proof.
  unfold transform. destruct (as_float_rows X) as [rows|e]; [| discriminate].
  cbn [mbind result_bind].
  destruct (check_width (n_features_in_ s) rows) as [rows'|e] eqn:E; [| discriminate].
  destruct (check_width_ok_inv _ _ _ E) as [-> Hw].
  cbn [mbind result_bind]. intros [= <-]. eauto.
Qed.

Lemma as_float_rows_array n rows rows' :
  as_float_rows (NdArray n rows) = Ok rows' → rows' = rows ∧ rows ≠ [].
Proof.
  unfold as_float_rows. cbn [mbind result_bind].
  destruct rows; [discriminate |]. by intros [= <-].
Qed.

(** A prediction of the ensemble is the blend of its learners over the
    rows they accepted; without learners it is the integer 0. *)
Lemma predict_ok_inv self X p :
  EnsembleModel.predict self X = Ok p →
  ∃ X', EnsembleModel.scale_input self X = Ok X'
        ∧ (models self = ∅ ∧ p = PInt 0
           ∨ ∃ rows, accepted self X' rows ∧ p = PArr (map (blend self) rows)).
Proof.
  intros Hp. pose proof Hp as Hp0. unfold EnsembleModel.predict in Hp.
  destruct (EnsembleModel.scale_input self X) as [X'|e] eqn:Hs; [| discriminate].
  cbn [mbind result_bind] in Hp. exists X'. split; [reflexivity |].
  destruct (EnsembleModel.run_models self X') as [preds|e] eqn:Hr; [| discriminate].
  cbn [mbind result_bind] in Hp.
  destruct (map_to_list (models self)) as [|[n m] l] eqn:Hl.
  - left. split; [by apply map_to_list_empty_iff |].
    unfold EnsembleModel.weighted_sum in Hp. rewrite Hl in Hp. cbn in Hp. congruence.
  - right.
    assert (∀ name m', models self !! name = Some m' →
                       ∃ p', reg_predict m' X' = Ok p') as Hall.
    { intros name m' Hm.
      apply (run_step_ok_inv X' (map_to_list (models self)) (Ok ∅) preds Hr name).
      by apply elem_of_map_to_list. }
    destruct (Hall n m) as [p0 Hp0'].
    { apply elem_of_map_to_list. rewrite Hl. apply list_elem_of_here. }
    apply reg_predict_ok_inv in Hp0' as (rows & Hrows & _ & _).
    exists rows.
    assert (accepted self X' rows) as Hacc.
    { split; [exact Hrows |]. intros name m' Hm. destruct (Hall name m' Hm) as [p' Hp'].
      apply reg_predict_ok_inv in Hp' as (rows' & Hrows' & Hw & _). congruence. }
    split; [exact Hacc |].
    assert (∀ name, is_Some (models self !! name) → is_Some (weights self !! name))
      as Hws.
    { intros name [m' Hm]. destruct (weights self !! name) eqn:Hw; [by eexists |].
      exfalso.
      destruct (sum_step_missing_weight (weights self) preds
                  (map_to_list (models self)).*1 (Ok (PInt 0)) name) as [e He];
        [| exact Hw | unfold EnsembleModel.weighted_sum in Hp; congruence].
      apply list_elem_of_fmap. exists (name, m'). split; [done |].
      by apply elem_of_map_to_list. }
    rewrite (predict_blend self X X' rows Hs Hacc Hws), Hl in Hp0. congruence.
Qed.

Lemma request_fields_inv data f1 f2 f3 f4 :
  request_fields data = Ok [f1; f2; f3; f4] →
  subscript data "satellite_aod" = Ok f1 ∧ subscript data "min_temp" = Ok f2
  ∧ subscript data "max_temp" = Ok f3 ∧ subscript data "rainfall" = Ok f4.
Proof.
  unfold request_fields. repeat (case_bind; [| discriminate]). by intros [= -> -> -> ->].
Qed.

(** The row the advanced handler gives the scaler for the first row of the
    frame holds the values of the features. *)
Lemma feature_row_of_selected out (features : list string) selected row :
  mapM (col out) features = Ok selected →
  mapM (λ c, cell_to_float (default NaN (c !! 0%nat))) (map fillna0 selected) = Ok row →
  mapM (feature_value out) features = Some row.
Proof.
  revert selected row. induction features as [|f features IH]; intros selected row.
  - cbn. intros [= <-]. cbn. by intros [= <-].
  - cbn [mapM]. change (col out f) with (of_option (columns out !! f) (KeyError f)).
    destruct (columns out !! f) as [c|] eqn:Hc;
      cbn [of_option mbind result_bind]; [| discriminate].
    destruct (mapM (col out) features) as [sel|e] eqn:Hsel;
      cbn [mbind result_bind mret result_ret]; [| discriminate].
    intros [= <-]. cbn [map mapM].
    destruct (cell_to_float _) as [q|e] eqn:Hq;
      cbn [mbind result_bind]; [| discriminate].
    destruct (mapM _ (map fillna0 sel)) as [rest|e] eqn:Hrest;
      cbn [mbind result_bind mret result_ret]; [| discriminate].
    intros [= <-].
    assert (feature_value out f = Some q) as ->.
    { unfold feature_value. rewrite Hc.
      destruct c as [|[x| | | |] c]; cbn in Hq; try discriminate; by injection Hq as <-. }
    by rewrite (IH sel rest eq_refl Hrest).
Qed.

(** A handler that answers 200 answers the normalized result of its tier
    for a value its predictor returned; when the four fields of the body
    are numbers, the value is the tier's prediction for them. *)
Lemma run_tier_success_value lib reg now t data :
  (run_tier lib reg now t data).2 = 200%Z →
  ∃ v, predicted_by reg t v
       ∧ run_tier lib reg now t data = tier_result reg t v
       ∧ ∀ aod tmin tmax rain,
           request_fields data = Ok [PyNum aod; PyNum tmin; PyNum tmax; PyNum rain] →
           tier_prediction lib reg now t aod tmin tmax rain = Some v.
Proof.
  unfold tier_result, tier_extra, predicted_by.
  destruct t; cbn [run_tier];
    [ unfold calibrate_with_basic_model
    | unfold calibrate_with_ensemble_model
    | unfold calibrate_with_advanced_model ];
    repeat (case_bind; [| discriminate ]); intros _.
  - destruct (basic_model reg) as [model|] eqn:Hm; [| discriminate].
    destruct (basic_scaler reg) as [scaler|] eqn:Hs; [| discriminate].
    repeat match goal with H : of_option (Some _) _ = Ok _ |- _ => injection H as <- end.
    eexists. split; [eexists _, _, _; eauto using first_head |].
    split; [reflexivity |].
    intros aod tmin tmax rain Hreq.
    apply request_fields_inv in Hreq as (H1 & H2 & H3 & H4).
    rewrite H1 in E. rewrite H2 in E0. rewrite H3 in E1. rewrite H4 in E2.
    injection E as <-. injection E0 as <-. injection E1 as <-. injection E2 as <-.
    injection E3 as <-.
    apply transform_ok_inv in E5 as (rows & Hrows & _ & ->).
    apply as_float_rows_array in Hrows as [-> _].
    apply reg_predict_ok_inv in E7 as (rows & Hrows & _ & ->).
    apply as_float_rows_array in Hrows as [-> _].
    injection E8 as <-.
    unfold tier_prediction. by rewrite Hm, Hs.
  - destruct (ensemble_model reg) as [ens|] eqn:He; [| discriminate].
    repeat match goal with H : of_option (Some _) _ = Ok _ |- _ => injection H as <- end.
    eexists. split; [eexists _, _, _; eauto |].
    split; [reflexivity |].
    intros aod tmin tmax rain Hreq.
    apply request_fields_inv in Hreq as (H1 & H2 & H3 & H4).
    rewrite H1 in E. rewrite H2 in E0. rewrite H3 in E1. rewrite H4 in E2.
    injection E as <-. injection E0 as <-. injection E1 as <-. injection E2 as <-.
    apply predict_ok_inv in E4 as (X' & Hs & [[_ ->] | (rows & [Hrows _] & ->)]);
      [discriminate |].
    injection Hs as <-. injection Hrows as <-. injection E5 as <-.
    unfold tier_prediction. by rewrite He.
  - destruct (advanced_model reg) as [model|] eqn:Hm; [| discriminate].
    destruct (advanced_scaler reg) as [scaler|] eqn:Hs; [| discriminate].
    destruct (advanced_features reg) as [features|] eqn:Hf; [| discriminate].
    repeat match goal with H : of_option (Some _) _ = Ok _ |- _ => injection H as <- end.
    eexists. split; [eexists _, _, _; eauto using first_head |].
    split; [reflexivity |].
    intros aod tmin tmax rain Hreq.
    apply request_fields_inv in Hreq as (H1 & H2 & H3 & H4).
    rewrite H1 in E. rewrite H2 in E0. rewrite H3 in E1. rewrite H4 in E2.
    injection E as <-. injection E0 as <-. injection E1 as <-. injection E2 as <-.
    change {| nrows := 1; columns := _ |}
      with (single_observation aod tmin tmax rain now) in E3.
    unfold frame_array in E7.
    destruct (mapM _ (seq 0 (nrows _))) as [rows|e] eqn:Hrows; [| discriminate].
    injection E7 as <-.
    apply transform_ok_inv in E8 as (rows' & Hrows' & _ & ->).
    apply as_float_rows_array in Hrows' as [-> _].
    apply reg_predict_ok_inv in E10 as (rows' & Hrows' & _ & ->).
    apply as_float_rows_array in Hrows' as [-> _].
    destruct rows as [|row rows]; [discriminate |]. injection E11 as <-.
    destruct (nrows _) as [|n]; [discriminate |].
    cbn [seq mapM] in Hrows.
    destruct (mapM _ (map fillna0 _)) as [row0|e] eqn:Hrow; [| discriminate].
    cbn [mbind result_bind] in Hrows.
    destruct (mapM _ (seq 1 n)) as [rest|e]; [| discriminate].
    injection Hrows as <- <-.
    unfold tier_prediction, feature_row. rewrite Hm, Hs, Hf, E3. cbn.
    by rewrite (feature_row_of_selected _ _ _ _ E5 Hrow).
Qed.

(** C9.  Every calibration response with status 200, from any endpoint and
    any tier, is the normalized result of one tier: a value that tier's
    predictor returned, rounded to two decimals, the tier as source, its
    fixed version string and confidence label, and the tier's extra (the
    weight map for the ensemble, the number of features for the advanced
    tier).  When the four fields of the body are numbers, the value is that
    tier's prediction for this observation: the basic model on the
    standardized observation, the blend of the ensemble on the observation
    as sent, the advanced model on the standardized feature row. *)
Theorem successful_response_contract lib reg now data r :
  r ∈ calibration_responses lib reg now data →
  status r = 200%Z →
  ∃ t v, predicted_by reg t v
         ∧ r = Returned (tier_result reg t v)
         ∧ (∀ aod tmin tmax rain,
              request_fields data
              = Ok [PyNum aod; PyNum tmin; PyNum tmax; PyNum rain] →
              tier_prediction lib reg now t aod tmin tmax rain = Some v)
         ∧ reply_field r "calibrated_pm25" = Some (PyNum (round2 v))
         ∧ round2 v * qz 100 = qz (rint (v * qz 100))
         ∧ round2 v - qfrac 1 200 ≤ v ≤ round2 v + qfrac 1 200
         ∧ reply_field r "source" = Some (PyStr (source_name t))
         ∧ reply_field r "model_version" = Some (PyStr (model_version t))
         ∧ reply_field r "confidence" = Some (PyStr (confidence t))
         ∧ match t with
           | Basic => True
           | Ensemble =>
               ∃ ens, ensemble_model reg = Some ens
                      ∧ reply_field r "ensemble_weights"
                        = Some (weights_json (weights ens))
           | Advanced =>
               ∃ features, advanced_features reg = Some features
                           ∧ reply_field r "features_used"
                             = Some (PyNum (qz (Z.of_nat (length features))))
           end.
Proof.
  intros Hr H200.
  assert (∃ t, r = Returned (run_tier lib reg now t data)) as [t ->].
  { unfold calibration_responses, endpoints, handlers in Hr.
    destruct (truthy data) eqn:Hd.
    - pose proof (calibrate_aod_dispatch lib reg now data Hd) as Haod.
      pose proof (λ t, calibrate_forced_dispatch lib reg now t data Hd) as Hf.
      assert (∀ t, calibrate_forced lib reg now t (JsonBody data) = r →
                   ∃ t', r = Returned (run_tier lib reg now t' data)) as Hforced.
      { intros t <-. rewrite Hf in H200 |- *.
        destruct (available reg t); [eauto | destruct t; discriminate]. }
      cbn [app fmap list_fmap] in Hr.
      repeat (apply elem_of_cons in Hr as [-> | Hr]);
        [ | by apply (Hforced Basic) | by apply (Hforced Ensemble)
          | by apply (Hforced Advanced) | eauto .. | by apply elem_of_nil in Hr ].
      rewrite Haod in H200 |- *.
      destruct (best_tier reg); [eauto | discriminate].
    - unfold calibrate_aod, calibrate_basic, calibrate_ensemble, calibrate_advanced
        in Hr.
      cbn [request_get_json] in Hr. rewrite Hd in Hr.
      cbn [negb app fmap list_fmap] in Hr.
      repeat (apply elem_of_cons in Hr as [-> | Hr]);
        [ discriminate .. | eauto | eauto | eauto | by apply elem_of_nil in Hr ]. }
  cbn [status] in H200.
  destruct (run_tier_success_value lib reg now t data H200) as (v & Hv & -> & Hpin).
  exists t, v.
  destruct (round2_two_decimals v) as (Hint & Hlo & Hhi).
  cbn [reply_field].
  repeat (split; [ first [ assumption | reflexivity | by destruct t ] |]).
  destruct t; [exact I | |]; unfold predicted_by in Hv.
  - destruct Hv as (ens & _ & _ & Hens & _). exists ens. split; [done |].
    unfold tier_result, tier_extra. rewrite Hens. reflexivity.
  - unfold tier_result, tier_extra.
    destruct (advanced_features reg) as [features|] eqn:Hf.
    + eexists. split; reflexivity.
    + exfalso. clear Hv Hint Hlo Hhi Hpin. revert H200. cbn [run_tier].
      unfold calibrate_with_advanced_model. rewrite Hf.
      repeat (case_bind; [| discriminate ]). discriminate.
Qed.

Lemma successful_response_contract_witness :
  calibrate_ensemble reg_all (JsonBody body_ok)
  ∈ calibration_responses lib0 reg_all 0 body_ok
  ∧ status (calibrate_ensemble reg_all (JsonBody body_ok)) = 200%Z
  ∧ ∃ t v, predicted_by reg_all t v
           ∧ calibrate_ensemble reg_all (JsonBody body_ok)
             = Returned (tier_result reg_all t v)
           ∧ tier_prediction lib0 reg_all 0 t (qz 300) (qz 25) (qz 35) 0 = Some v.
Proof.
  assert (Hin : calibrate_ensemble reg_all (JsonBody body_ok)
                ∈ calibration_responses lib0 reg_all 0 body_ok).
  { do 2 apply list_elem_of_further. apply list_elem_of_here. }
  split; [exact Hin | split; [reflexivity |]].
  destruct (successful_response_contract lib0 reg_all 0 body_ok _ Hin eq_refl)
    as (t & v & Hp & Hr & Hpin & _).
  exists t, v. split; [exact Hp |]. split; [exact Hr |]. by apply Hpin.
Defined.

(** ** Weight derivation *)

(** Order goals on [Qc], read on the underlying rationals. *)
Ltac qc_lra :=
  unfold Qcle, Qclt, Qcminus, Qcplus, Qcopp, Qcmult in *;
  cbn [this Q2Qc] in *; rewrite ?Qred_correct in *; lra.

Lemma qsum_nonneg (l : list Qc) : (∀ x, x ∈ l → 0 ≤ x) → 0 ≤ qsum l.
Proof.
  unfold qsum. induction l as [|x l IH]; intros H; cbn [foldr]; [done |].
  assert (0 ≤ x) by (apply H, list_elem_of_here).
  assert (0 ≤ foldr Qcplus 0 l) by (apply IH; intros; apply H; by apply list_elem_of_further).
  qc_lra.
Qed.

Lemma qsum_pos (l : list Qc) :
  (∀ x, x ∈ l → 0 ≤ x) → (∃ x, x ∈ l ∧ 0 < x) → 0 < qsum l.
Proof.
  intros Hl (x & Hin & Hx). apply list_elem_of_split in Hin as (l1 & l2 & ->).
  assert (qsum (l1 ++ x :: l2) = qsum l1 + (x + qsum l2)) as ->.
  { unfold qsum. rewrite foldr_app. cbn [foldr].
    generalize (x + foldr Qcplus 0 l2). intros a.
    clear. induction l1 as [|y l1 IH]; cbn [foldr app]; [ring | rewrite IH; ring]. }
  assert (0 ≤ qsum l1).
  { apply qsum_nonneg. intros y Hy. apply Hl. apply elem_of_app. auto. }
  assert (0 ≤ qsum l2).
  { apply qsum_nonneg. intros y Hy. apply Hl. apply elem_of_app. right. by apply list_elem_of_further. }
  qc_lra.
Qed.

Lemma qz_succ (n : nat) : qz (Z.of_nat (S n)) = 1 + qz (Z.of_nat n).
Proof.
  apply Qc_is_canon. unfold qz, Qc_of_Z, Qcplus. cbn [this Q2Qc].
  rewrite Qred_correct, Nat2Z.inj_succ, <- Z.add_1_l, inject_Z_plus. reflexivity.
Qed.

Lemma qz_pos_ne (n : nat) : n ≠ 0%nat → qz (Z.of_nat n) ≠ 0.
Proof.
  intros Hn Heq. apply (f_equal this) in Heq. cbn in Heq.
  injection Heq. lia.
Qed.

Lemma qsum_const {A} (c : Qc) (l : list A) :
  qsum ((λ _, c) <$> l) = qz (Z.of_nat (length l)) * c.
Proof.
  unfold qsum. induction l as [|x l IH]; cbn [fmap list_fmap foldr length].
  - assert (qz (Z.of_nat 0) = 0) as -> by (apply Qc_is_canon; reflexivity). ring.
  - rewrite IH, qz_succ. ring.
Qed.

Lemma qsum_fmap_div (xs : list Qc) (t : Qc) :
  qsum ((λ x, x / t) <$> xs) = qsum xs / t.
Proof.
  unfold qsum. induction xs as [|x xs IH]; cbn [fmap list_fmap foldr].
  - unfold Qcdiv. by rewrite Qcmult_0_l.
  - rewrite IH. unfold Qcdiv. ring.
Qed.

Lemma foldl_plus_qsum {A} (f : A → Qc) (l : list A) (t0 : Qc) :
  foldl (λ t x, t + f x) t0 l = t0 + qsum (f <$> l).
Proof.
  unfold qsum. revert t0.
  induction l as [|x l IH]; intros t0; cbn [fmap list_fmap foldr foldl].
  - ring.
  - rewrite IH. ring.
Qed.

Section WeightLoops.
Context (best : Qc).

Lemma raw_loop_total (l : list (string * score)) w0 t0 :
  (foldl (raw_step best) (w0, t0) l).2 = t0 + qsum (raw_weight best <$> l.*2).
Proof.
  unfold qsum. revert w0 t0.
  induction l as [|[k s] l IH]; intros w0 t0; cbn [fmap list_fmap foldr foldl snd].
  - ring.
  - unfold raw_step at 2. cbn [fst snd]. rewrite IH. ring.
Qed.

Lemma raw_loop_lookup (l : list (string * score)) w0 t0 k :
  NoDup l.*1 →
  (foldl (raw_step best) (w0, t0) l).1 !! k
  = match (list_to_map l : gmap string score) !! k with
    | Some s => Some (raw_weight best s)
    | None => w0 !! k
    end.
Proof.
  revert w0 t0. induction l as [|[k0 s0] l IH]; intros w0 t0 Hnd; [done |].
  apply NoDup_cons in Hnd as [Hk0 Hnd]. cbn [foldl list_to_map foldr].
  unfold raw_step at 2. cbn [fst snd]. rewrite IH by done.
  destruct (decide (k0 = k)) as [<-|Hne].
  - rewrite (not_elem_of_list_to_map_1 l k0) by done.
    by rewrite !lookup_insert_eq.
  - rewrite !(lookup_insert_ne _ k0 k) by done. reflexivity.
Qed.

End WeightLoops.

Lemma raw_weights_eq best (model_scores : gmap string score) :
  raw_weights best model_scores
  = (raw_weight best <$> model_scores, weight_total (raw_weight best <$> model_scores)).
Proof.
  unfold raw_weights.
  match goal with |- ?x = _ => rewrite (surjective_pairing x) end. f_equal.
  - apply map_eq. intros k.
    rewrite (raw_loop_lookup best _ ∅ 0 k) by apply NoDup_fst_map_to_list.
    rewrite list_to_map_to_list, lookup_fmap, lookup_empty.
    by destruct (model_scores !! k).
  - rewrite (raw_loop_total best). unfold weight_total.
    rewrite map_to_list_fmap, Qcplus_0_l. f_equal.
    induction (map_to_list model_scores) as [|[k s] l IH]; [done |].
    cbn. by rewrite IH.
Qed.

Lemma normalize_loop (t : Qc) (l : list string) (ws0 : gmap string Qc) :
  t ≠ 0 → NoDup l → (∀ k, k ∈ l → is_Some (ws0 !! k)) →
  ∃ ws, foldl (normalize_step t) (Ok ws0) l = Ok ws
        ∧ ∀ k, ws !! k = if decide (k ∈ l) then (λ x, x / t) <$> ws0 !! k else ws0 !! k.
Proof.
  intros Ht. revert ws0. induction l as [|k0 l IH]; intros ws0 Hnd Hs.
  - exists ws0. split; [done |]. intros k. by rewrite decide_False by apply not_elem_of_nil.
  - apply NoDup_cons in Hnd as [Hk0 Hnd].
    destruct (Hs k0) as [w Hw]; [apply list_elem_of_here |].
    cbn [foldl]. unfold normalize_step at 2. cbn [mbind result_bind].
    rewrite Hw. cbn [of_option mbind result_bind]. rewrite (decide_False _ _ Ht).
    destruct (IH (<[k0 := w / t]> ws0) Hnd) as (ws & Hf & Hl).
    { intros k Hk. destruct (decide (k0 = k)) as [->|];
        [rewrite lookup_insert_eq | rewrite lookup_insert_ne by done]; eauto.
      apply Hs. by apply list_elem_of_further. }
    exists ws. split; [exact Hf |]. intros k. rewrite Hl.
    destruct (decide (k0 = k)) as [<-|Hne].
    + rewrite (decide_False _ _ Hk0), lookup_insert_eq, Hw.
      by rewrite decide_True by apply list_elem_of_here.
    + rewrite lookup_insert_ne by done.
      destruct (decide (k ∈ l)) as [Hin|Hnin].
      * by rewrite decide_True by by apply list_elem_of_further.
      * rewrite decide_False; [done |].
        intros [?|?]%elem_of_cons; congruence.
Qed.

Lemma normalize_weights_ok (ws : gmap string Qc) (t : Qc) :
  t ≠ 0 → normalize_weights ws t = Ok ((λ x, x / t) <$> ws).
Proof.
  intros Ht. unfold normalize_weights.
  destruct (normalize_loop t (map_to_list ws).*1 ws Ht) as (ws' & -> & Hl).
  { apply NoDup_fst_map_to_list. }
  { intros k ([k' x] & -> & Hin)%list_elem_of_fmap.
    apply elem_of_map_to_list in Hin. eauto. }
  f_equal. apply map_eq. intros k. rewrite Hl, lookup_fmap.
  destruct (decide _) as [|Hnot]; [done |].
  destruct (ws !! k) as [x|] eqn:Hk; [| done].
  exfalso. apply Hnot. apply list_elem_of_fmap. exists (k, x).
  split; [done |]. by apply elem_of_map_to_list.
Qed.

Lemma normalize_weights_zero (ws : gmap string Qc) :
  ws ≠ ∅ → normalize_weights ws 0 = Raise ZeroDivisionError.
Proof.
  intros Hne. unfold normalize_weights.
  destruct (map_to_list ws) as [|[k x] l] eqn:Hl.
  { by apply map_to_list_empty_iff in Hl. }
  assert (ws !! k = Some x) as Hk.
  { apply elem_of_map_to_list. rewrite Hl. apply list_elem_of_here. }
  cbn [fmap list_fmap foldl fst]. unfold normalize_step at 2.
  cbn [mbind result_bind]. rewrite Hk.
  cbn [of_option mbind result_bind]. rewrite decide_True by done. apply foldl_raise. by intros ? ?.
Qed.

Lemma weight_total_normalized (ws : gmap string Qc) :
  weight_total ws ≠ 0 →
  weight_total ((λ x, x / weight_total ws) <$> ws) = 1.
Proof.
  intros Ht. unfold weight_total at 1. rewrite map_to_list_fmap.
  replace ((prod_map id (λ x, x / weight_total ws) <$> map_to_list ws).*2)
    with ((λ x, x / weight_total ws) <$> (map_to_list ws).*2).
  - rewrite qsum_fmap_div. fold (weight_total ws). field. done.
  - induction (map_to_list ws) as [|[k x] l IH]; [done |]. cbn. by rewrite IH.
Qed.

Lemma best_r2_of_max (l : list score) b :
  best_r2_of l = Ok b → (∀ s, s ∈ l → r2 s ≤ b) ∧ ∃ s, s ∈ l ∧ r2 s = b.
Proof.
  destruct l as [|s0 rest]; [discriminate |]. cbn [best_r2_of]. intros [= <-].
  assert (∀ rest b0,
            let b := foldl (λ best x, if decide (best < r2 x) then r2 x else best) b0 rest in
            b0 ≤ b ∧ (∀ s, s ∈ rest → r2 s ≤ b) ∧ (b = b0 ∨ ∃ s, s ∈ rest ∧ r2 s = b))
    as Hmax.
  { clear. induction rest as [|x rest IH]; intros b0; cbn [foldl].
    - split; [done |]. split; [| by left]. intros s Hs. by apply elem_of_nil in Hs.
    - destruct (IH (if decide (b0 < r2 x) then r2 x else b0)) as (Hle & Hall & Hatt).
      set (b := foldl _ _ rest) in *.
      assert (b0 ≤ b ∧ r2 x ≤ b) as [Hb0 Hx].
      { destruct (decide (b0 < r2 x)) as [Hlt|Hnlt].
        - split; [| done]. etrans; [| exact Hle]. by apply Qclt_le_weak.
        - split; [done |]. etrans; [| exact Hle]. by apply Qcnot_lt_le. }
      split; [done |]. split.
      + intros s [-> | Hs]%elem_of_cons; [done | by apply Hall].
      + destruct Hatt as [Heq | (s & Hs & Heq)].
        * destruct (decide (b0 < r2 x)); [| by left].
          right. exists x. split; [apply list_elem_of_here | done].
        * right. exists s. split; [by apply list_elem_of_further | done]. }
  destruct (Hmax rest (r2 s0)) as (Hle & Hall & Hatt). split.
  - intros s [-> | Hs]%elem_of_cons; [done | by apply Hall].
  - destruct Hatt as [Heq | (s & Hs & Heq)].
    + exists s0. split; [apply list_elem_of_here | done].
    + exists s. split; [by apply list_elem_of_further | done].
Qed.

Lemma derive_weights_unfold scores best :
  best_r2_of (map_to_list scores).*2 = Ok best →
  derive_weights scores
  = normalize_weights (raw_weight best <$> scores)
      (weight_total (raw_weight best <$> scores)).
Proof.
  intros Hb. unfold derive_weights. rewrite Hb. cbn [mbind result_bind].
  by rewrite raw_weights_eq.
Qed.

Lemma values_of_map (scores : gmap string score) s :
  s ∈ (map_to_list scores).*2 ↔ ∃ name, scores !! name = Some s.
Proof.
  rewrite list_elem_of_fmap. split.
  - intros ([name s'] & -> & Hin). exists name. by apply elem_of_map_to_list.
  - intros [name Hs]. exists (name, s). split; [done |]. by apply elem_of_map_to_list.
Qed.

(** C2 (as amended).  With [best] the best R² of a non-empty score record:
    every learner gets the raw weight R²/best, or the constant 0.25 when
    best ≤ 0; when the raw weights have a non-zero total the derivation
    returns them divided by that total, and the resulting map sums to
    exactly 1; on a zero total it fails with a division by zero.  The
    total is non-zero whenever best ≤ 0 (the result is then the uniform
    1/N) and whenever no score is negative.  Scores 0.8 and 0.4 give raw
    weights 1 and 1/2 and final weights 2/3 and 1/3. *)
Theorem derive_weights_normalized scores best :
  best_r2_of (map_to_list scores).*2 = Ok best →
  let raw := raw_weight best <$> scores in
  (∀ name s, scores !! name = Some s →
     r2 s ≤ best
     ∧ raw !! name = Some (if decide (0 < best) then r2 s / best else qfrac 1 4))
  ∧ (weight_total raw ≠ 0 →
       derive_weights scores = Ok ((λ w, w / weight_total raw) <$> raw)
       ∧ weight_total ((λ w, w / weight_total raw) <$> raw) = 1)
  ∧ (weight_total raw = 0 → derive_weights scores = Raise ZeroDivisionError)
  ∧ (¬ 0 < best →
       derive_weights scores = Ok ((λ _, 1 / qz (Z.of_nat (size scores))) <$> scores))
  ∧ ((∀ name s, scores !! name = Some s → 0 ≤ r2 s) → 0 < best → weight_total raw ≠ 0)
  ∧ (raw_weights (qfrac 8 10) scores_ab).1 = <["a" := 1]> (<["b" := qfrac 1 2]> ∅)
  ∧ derive_weights scores_ab = Ok (<["a" := qfrac 2 3]> (<["b" := qfrac 1 3]> ∅)).
Proof.
  intros Hb raw.
  pose proof (derive_weights_unfold scores best Hb) as Hd. fold raw in Hd.
  destruct (best_r2_of_max _ _ Hb) as [Hmax (sb & Hsb & Hbest)].
  assert (scores ≠ ∅) as Hne.
  { intros ->. rewrite map_to_list_empty in Hsb. by apply elem_of_nil in Hsb. }
  split; [| split; [| split; [| split; [| split]]]].
  - intros name s Hs. split.
    + apply Hmax. apply values_of_map. eauto.
    + unfold raw. rewrite lookup_fmap, Hs. reflexivity.
  - intros Ht. rewrite Hd, normalize_weights_ok by done.
    split; [done |]. by apply weight_total_normalized.
  - intros Ht. rewrite Hd, Ht. apply normalize_weights_zero.
    unfold raw. intros Hraw. apply Hne. by apply fmap_empty_inv in Hraw.
  - intros Hnb.
    assert (raw = (λ _, qfrac 1 4) <$> scores) as Hraw.
    { unfold raw. apply map_fmap_ext. intros ?? _. unfold raw_weight.
      by rewrite decide_False. }
    assert (weight_total raw = qz (Z.of_nat (size scores)) * qfrac 1 4) as Ht.
    { rewrite Hraw. unfold weight_total. rewrite map_to_list_fmap.
      rewrite <- (length_map_to_list scores), <- (qsum_const (qfrac 1 4) (map_to_list scores)).
      f_equal. generalize (map_to_list scores). clear. intros l.
      induction l as [|[??] l IH]; [done |].
      cbn [fmap list_fmap prod_map snd]. f_equal. exact IH. }
    assert (qz (Z.of_nat (size scores)) ≠ 0) as HN.
    { apply qz_pos_ne. by rewrite map_size_empty_iff. }
    rewrite Hd, normalize_weights_ok.
    + f_equal. rewrite Hraw, <- map_fmap_compose. apply map_fmap_ext. intros ?? _.
      cbn. rewrite Hraw in Ht. rewrite Ht. field. done.
    + rewrite Ht. intros [H0 | H0]%Qcmult_integral; [done | discriminate].
  - intros Hnn Hpos Ht.
    assert (0 < weight_total raw) as Hlt; [| rewrite Ht in Hlt; by apply Qclt_not_eq in Hlt].
    unfold weight_total. apply qsum_pos.
    + intros x ([name w] & -> & Hin)%list_elem_of_fmap.
      apply elem_of_map_to_list in Hin. unfold raw in Hin.
      rewrite lookup_fmap in Hin. destruct (scores !! name) as [s|] eqn:Hs; [| done].
      injection Hin as <-. cbn. unfold raw_weight. rewrite decide_True by done.
      unfold Qcdiv. apply Qcmult_nonneg_nonneg; [by eapply Hnn |].
      by apply Qclt_le_weak, Qcinv_pos.
    + apply values_of_map in Hsb as [name Hs].
      exists 1. split; [| done].
      apply list_elem_of_fmap. exists (name, 1). split; [done |].
      apply elem_of_map_to_list. unfold raw. rewrite lookup_fmap, Hs. cbn.
      unfold raw_weight. rewrite decide_True by done. rewrite Hbest.
      f_equal. field. intros H0. rewrite H0 in Hpos. by apply Qclt_not_eq in Hpos.
  - split; qc_compute.
Qed.

Lemma derive_weights_normalized_witness :
  best_r2_of (map_to_list scores_ab).*2 = Ok (qfrac 8 10)
  ∧ derive_weights scores_ab
    = Ok ((λ w, w / weight_total (raw_weight (qfrac 8 10) <$> scores_ab))
          <$> (raw_weight (qfrac 8 10) <$> scores_ab))
  ∧ weight_total ((λ w, w / weight_total (raw_weight (qfrac 8 10) <$> scores_ab))
                  <$> (raw_weight (qfrac 8 10) <$> scores_ab)) = 1.
Proof.
  assert (Hb : best_r2_of (map_to_list scores_ab).*2 = Ok (qfrac 8 10))
    by (vm_compute; reflexivity).
  split; [exact Hb |].
  apply (derive_weights_normalized scores_ab (qfrac 8 10) Hb).
  intros H0. apply (f_equal this) in H0. vm_compute in H0. discriminate.
Defined.

(** C2 (counterexample).  The four learners of the script with R² scores
    1/2, -1/2, 1/4 and -1/4: the best score is positive, the raw weights
    1, -1, 1/2 and -1/2 add up to zero, and the renormalization divides
    by zero: no weight map is produced. *)
Lemma derive_weights_zero_total :
  best_r2_of (map_to_list scores_cancel).*2 = Ok (qfrac 1 2)
  ∧ (raw_weights (qfrac 1 2) scores_cancel).2 = 0
  ∧ derive_weights scores_cancel = Raise ZeroDivisionError.
Proof. repeat split; qc_compute. Qed.

(** ** The advanced feature pipeline *)

Lemma mean_singleton (x : Qc) : mean [x] = x.
Proof.
  unfold mean, qsum. cbn [foldr length].
  assert (qz (Z.of_nat 1) = 1) as -> by (apply Qc_is_canon; reflexivity).
  field. discriminate.
Qed.


(** *** Series operations on columns of numbers *)

Lemma mapM_ok {A B} (f : A → result B) (g : A → B) (l : list A) :
  (∀ x, x ∈ l → f x = Ok (g x)) → mapM f l = Ok (g <$> l).
Proof.
  induction l as [|x l IH]; intros Hf; [done |].
  cbn [mapM]. rewrite (Hf x) by apply list_elem_of_here. cbn [mbind result_bind].
  rewrite IH; [done |]. intros y Hy. apply Hf. by apply list_elem_of_further.
Qed.

Lemma series_map_num1 (g : Qc → cell) (xs : list Qc) :
  series_map (num1 g) (Num <$> xs) = Ok (g <$> xs).
Proof.
  unfold series_map. rewrite (mapM_ok _ (λ c, match c with Num x => g x | _ => NaN end)).
  - f_equal. by rewrite <- list_fmap_compose.
  - by intros c (x & -> & _)%list_elem_of_fmap.
Qed.

Lemma smap_num (f : Qc → Qc) (xs : list Qc) :
  smap f (Num <$> xs) = Ok (Num <$> (f <$> xs)).
Proof. unfold smap. rewrite series_map_num1. by rewrite <- list_fmap_compose. Qed.

Lemma series_zip_num2 (f : Qc → Qc → Qc) (xs ys : list Qc) :
  series_zip (num2 f) (Num <$> xs) (Num <$> ys) = Ok (Num <$> zip_with f xs ys).
Proof.
  unfold series_zip.
  rewrite (mapM_ok _ (λ p, match p with (Num x, Num y) => Num (f x y) | _ => NaN end)).
  - f_equal. revert ys. induction xs as [|x xs IH]; intros [|y ys]; [done .. |].
    cbn. by rewrite <- IH.
  - intros [a b] Hin. apply elem_of_zip_l in Hin as Ha. apply elem_of_zip_r in Hin as Hb.
    apply list_elem_of_fmap in Ha as (x & -> & _).
    apply list_elem_of_fmap in Hb as (y & -> & _). reflexivity.
Qed.

Lemma series_map_dt_field (f : Z → Z) (ts : list Z) :
  series_map (dt_field f) (Time <$> ts) = Ok (Num <$> ((λ t, qz (f t)) <$> ts)).
Proof.
  unfold series_map.
  rewrite (mapM_ok _ (λ c, match c with Time t => Num (qz (f t)) | _ => NaN end)).
  - f_equal. by rewrite <- !list_fmap_compose.
  - by intros c (x & -> & _)%list_elem_of_fmap.
Qed.

Lemma series_map_to_datetime lib (ts : list Z) :
  series_map (to_datetime lib) (Time <$> ts) = Ok (Time <$> ts).
Proof.
  unfold series_map. rewrite (mapM_ok _ id).
  - by rewrite list_fmap_id.
  - by intros c (x & -> & _)%list_elem_of_fmap.
Qed.

Lemma window_nums_num (ys : list Qc) : window_nums (Num <$> ys) = Ok ys.
Proof.
  unfold window_nums. induction ys as [|y ys IH].
  - exact eq_refl.
  - rewrite fmap_cons. cbn [foldr]. rewrite IH. exact eq_refl.
Qed.

Lemma window_at_num (w i : nat) (xs : list Qc) :
  window_at w i (Num <$> xs) = Num <$> window_q w i xs.
Proof. unfold window_at, window_q. by rewrite <- fmap_take, <- fmap_drop. Qed.

Lemma rolling_mean_num (w : nat) (xs : list Qc) :
  rolling_mean w (Num <$> xs) = Ok (rolling_mean_cells w xs).
Proof.
  unfold rolling_mean, rolling_mean_cells. rewrite length_fmap.
  apply mapM_ok. intros i _. rewrite window_at_num, window_nums_num.
  cbn [mbind result_bind]. by destruct (window_q w i xs) as [|? [|??]].
Qed.

Lemma rolling_std_num lib (w : nat) (xs : list Qc) :
  rolling_std lib w (Num <$> xs) = Ok (rolling_std_cells lib w xs).
Proof.
  unfold rolling_std, rolling_std_cells. rewrite length_fmap.
  apply mapM_ok. intros i _. rewrite window_at_num, window_nums_num.
  cbn [mbind result_bind]. by destruct (window_q w i xs) as [|? [|??]].
Qed.

(** *** Filling, shifting and sorting *)

Lemma bfill_num (xs : list Qc) : bfill (Num <$> xs) = Num <$> xs.
Proof. induction xs as [|x xs IH]; [done |]. cbn. by rewrite IH. Qed.

Lemma ffill_from_num (last : cell) (xs : list Qc) :
  ffill_from last (Num <$> xs) = Num <$> xs.
Proof.
  revert last. induction xs as [|x xs IH]; intros last; [done |]. cbn. by rewrite IH.
Qed.

Lemma fill_num (xs : list Qc) : (ffill ∘ bfill) (Num <$> xs) = Num <$> xs.
Proof. cbn. rewrite bfill_num. apply ffill_from_num. Qed.

Lemma elem_of_insert_by_time x y l :
  y ∈ insert_by_time x l → y = x ∨ y ∈ l.
Proof.
  induction l as [|z l IH]; cbn [insert_by_time].
  - intros ->%list_elem_of_singleton. by left.
  - destruct (time_lt z.1 x.1).
    + intros [-> | Hy]%elem_of_cons; [right; apply list_elem_of_here |].
      destruct (IH Hy) as [-> | ?]; [by left | right; by apply list_elem_of_further].
    + intros [-> | Hy]%elem_of_cons; [by left | by right].
Qed.

Lemma length_insert_by_time x l : length (insert_by_time x l) = S (length l).
Proof.
  induction l as [|z l IH]; cbn [insert_by_time]; [done |].
  destruct (time_lt z.1 x.1); cbn; by rewrite ?IH.
Qed.

Lemma sort_order_in_range (keys : series) i :
  i ∈ sort_order keys → (i < length keys)%nat.
Proof.
  unfold sort_order. intros ([k j] & -> & Hin)%list_elem_of_fmap. cbn.
  assert (∀ l : list (cell * nat), (k, j) ∈ foldr insert_by_time [] l → (k, j) ∈ l) as Hsub.
  { clear. induction l as [|x l IH]; cbn [foldr]; [done |].
    intros [-> | H]%elem_of_insert_by_time;
      [apply list_elem_of_here | by apply list_elem_of_further, IH]. }
  apply Hsub, elem_of_zip_r in Hin. cbn in Hin.
  apply elem_of_seq in Hin. lia.
Qed.

Lemma length_sort_order (keys : series) : length (sort_order keys) = length keys.
Proof.
  unfold sort_order. rewrite length_fmap.
  assert (∀ l : list (cell * nat), length (foldr insert_by_time [] l) = length l) as Hlen.
  { induction l as [|x l IH]; cbn [foldr]; [done |].
    by rewrite length_insert_by_time, IH. }
  rewrite Hlen, length_zip, length_seq. lia.
Qed.

Lemma reindex_fmap {A} (f : A → cell) (d : A) (order : list nat) (xs : list A) :
  (∀ i, i ∈ order → (i < length xs)%nat) →
  reindex order (f <$> xs) = f <$> pick d order xs.
Proof.
  intros Hr. unfold reindex, pick. rewrite <- list_fmap_compose.
  apply list_fmap_ext. intros ? i Hi%list_elem_of_lookup_2. cbn [compose].
  rewrite list_lookup_fmap.
  destruct (lookup_lt_is_Some_2 xs i (Hr i Hi)) as [x ->]. reflexivity.
Qed.

Lemma length_pick {A} (d : A) order (xs : list A) : length (pick d order xs) = length order.
Proof. unfold pick. by rewrite length_fmap. Qed.

(** *** Following a frame through the pipeline *)

Lemma returns_bind {A B} (m : result A) (k : A → result B) (Q : B → Prop) :
  returns m (λ a, returns (k a) Q) → returns (m ≫= k) Q.
Proof. intros (a & -> & b & Hk & HQ). exists b. by split. Qed.

Lemma returns_ok {A} (a : A) (Q : A → Prop) : Q a → returns (Ok a) Q.
Proof. intros HQ. by exists a. Qed.

Lemma returns_foldl_cons {B} (body : DataFrame → B → result DataFrame) df x l
    (Q : DataFrame → Prop) :
  returns (body df x)
    (λ df', returns (foldl (λ acc y, d ← acc; body d y) (Ok df') l) Q) →
  returns (foldl (λ acc y, d ← acc; body d y) (Ok df) (x :: l)) Q.
Proof. intros (df' & Hb & HQ). cbn [foldl mbind result_bind]. by rewrite Hb. Qed.

Lemma returns_foldl_nil {B} (step : result DataFrame → B → result DataFrame) df
    (Q : DataFrame → Prop) :
  Q df → returns (foldl step (Ok df) []) Q.
Proof. intros HQ. by exists df. Qed.

Lemma has_col_some df name v : columns df !! name = Some v → has_col df name = true.
Proof. intros H. unfold has_col. rewrite H. by apply bool_decide_eq_true. Qed.

Lemma has_col_none df name : columns df !! name = None → has_col df name = false.
Proof.
  intros H. unfold has_col. rewrite H. apply bool_decide_eq_false. by intros [? ?].
Qed.

Lemma set_col_other df n v k (c : option series) :
  columns df !! k = c → n ≠ k → columns (set_col df n v) !! k = c.
Proof. intros <- Hne. cbn. by rewrite lookup_insert_ne. Qed.

Lemma set_col_same df n v : columns (set_col df n v) !! n = Some v.
Proof. cbn. by rewrite lookup_insert_eq. Qed.

Lemma fmap_cols_lookup (f : series → series) df k (c : option series) n :
  columns df !! k = c →
  columns {| nrows := n; columns := f <$> columns df |} !! k = f <$> c.
Proof. intros <-. cbn. by rewrite lookup_fmap. Qed.

(** Two column names differ. *)
Ltac names_differ :=
  let H := fresh in intros H; vm_compute in H; discriminate H.

(** After [df[n] = v]: restate what is known of the columns of [df] for the
    new frame, and forget [df]. *)
Ltac track_set_col :=
  match goal with
  | |- context [set_col ?df ?n ?v] =>
      let n' := eval vm_compute in n in
      change n with n';
      let Hnew := fresh "Hcol" in
      pose proof (set_col_same df n' v) as Hnew;
      repeat match goal with
             | H : columns df !! ?k = _ |- _ =>
                 first [ apply (set_col_other df n' v) in H; [| names_differ ]
                       | clear H ]
             end;
      let df' := fresh "df" in
      generalize dependent (set_col df n' v); intros df'; intros;
      try clear df
  end.

Lemma col_lookup df name v : columns df !! name = Some v → col df name = Ok v.
Proof. intros Hv. unfold col. by rewrite Hv. Qed.

Lemma returns_assign_val df name (r : result series) v (Q : DataFrame → Prop) :
  r = Ok v → Q (set_col df name v) → returns (assign df name r) Q.
Proof. intros -> HQ. by exists (set_col df name v). Qed.

(** Evaluate a right-hand side that reads known columns of numbers. *)
Ltac eval_series :=
  repeat match goal with
         | H : columns ?df !! ?k = Some ?v |- context [col ?df ?k] =>
             rewrite (col_lookup df k v H)
         end;
  cbn [mbind result_bind];
  repeat (first [ rewrite series_zip_num2 | rewrite smap_num
                | rewrite series_map_num1 | rewrite series_map_dt_field
                | rewrite series_map_to_datetime
                | rewrite rolling_mean_num | rewrite rolling_std_num ];
          cbn [mbind result_bind]);
  reflexivity.

(** One assignment of the pipeline. *)
Ltac enter_bind :=
  lazymatch goal with
  | |- returns (mbind _ _) _ => apply returns_bind
  | _ => idtac
  end.

Ltac step_assign :=
  enter_bind;
  eapply returns_assign_val; [ eval_series | cbv beta; track_set_col ].

Lemma sort_order_range (keys : series) {A} (xs : list A) :
  length xs = length keys → ∀ i, i ∈ sort_order keys → (i < length xs)%nat.
Proof. intros ->. apply sort_order_in_range. Qed.

(** Lengths of derived columns. *)
Ltac solve_len :=
  repeat first [ rewrite length_fmap | rewrite length_zip_with ]; lia.

(** After a step that maps [f] over every column: restate what is known
    of the columns for the new frame, and forget the old one. *)
Ltac track_fmap :=
  match goal with
  | |- context [ {| nrows := ?n; columns := ?f <$> columns ?df |} ] =>
      repeat match goal with
             | H : columns df !! ?k = ?c |- _ =>
                 apply (fmap_cols_lookup f df k c n) in H;
                 cbn [fmap option_fmap option_map] in H
             end;
      let df' := fresh "df" in
      generalize dependent {| nrows := n; columns := f <$> columns df |};
      intros df'; intros; try clear df
  end.

(** Columns of numbers and of timestamps keep their shape when the rows
    are reordered, and are left alone by the final fill. *)
Ltac simpl_sorted :=
  repeat match goal with
         | H : columns _ !! _ = Some (reindex _ (_ <$> _)) |- _ =>
             first [ rewrite (reindex_fmap _ (Q2Qc 0)) in H
                       by (apply sort_order_range; solve_len)
                   | rewrite (reindex_fmap _ 0%Z) in H
                       by (apply sort_order_range; solve_len) ]
         end.

Ltac simpl_filled :=
  repeat match goal with
         | H : columns _ !! _ = Some ((ffill ∘ bfill) (Num <$> _)) |- _ =>
             rewrite fill_num in H
         end.

(** The test [has_col df name] on a column the context knows. *)
Ltac test_col name :=
  match goal with
  | H : columns ?df !! name = _ |- context [has_col ?df name] =>
      first [ rewrite (has_col_some _ _ _ H) | rewrite (has_col_none _ _ H) ]
  end.

(** One turn of a loop of the pipeline. *)
Ltac step_loop := apply returns_foldl_cons; cbv beta.

Lemma date_range_times (n : nat) :
  date_range_2025_06_01 n
  = Time <$> ((λ i, (1748736000 + 3600 * Z.of_nat i)%Z) <$> seq 0 n).
Proof. unfold date_range_2025_06_01. by rewrite <- list_fmap_compose. Qed.

(** The whole pipeline on a frame of observations. *)
Ltac follow_pipeline T :=
  unfold create_advanced_features;
  enter_bind; unfold add_recorded_at; test_col "recorded_at";
  try test_col "date"; cbv iota;
  first [ step_assign
        | apply returns_ok; cbv beta; rewrite date_range_times;
          match goal with H : T = _ |- _ => rewrite <- H; clear H end;
          track_set_col ];
  do 7 step_assign;
  enter_bind; unfold add_humidity; test_col "humidity"; cbv iota;
  do 7 step_assign;
  enter_bind; unfold sort_values;
  match goal with H : columns _ !! "recorded_at" = Some _ |- _ =>
    rewrite (col_lookup _ _ _ H) end;
  cbn [mbind result_bind]; apply returns_ok; cbv beta;
  track_fmap; set (order := sort_order (Time <$> T)) in *; simpl_sorted;
  enter_bind; unfold add_lags;
  do 6 (step_loop; step_assign; test_col "ground_truth_pm25"; cbv iota;
        first [ step_assign | apply returns_ok; cbv beta ]);
  apply returns_foldl_nil;
  enter_bind; unfold add_rolling;
  do 4 (step_loop; step_assign; step_assign);
  apply returns_foldl_nil;
  do 7 step_assign;
  apply returns_ok; track_fmap; simpl_filled.

Lemma humidity_formula (Tmax R : list Qc) :
  clip (qz 20) (qz 90) <$>
    zip_with Qcplus
      ((λ x, qz 50 + x) <$> ((λ x, x * qfrac (-3) 2) <$> ((λ x, x - qz 25) <$> Tmax)))
      ((λ x, x * qz 2) <$> R)
  = zip_with synthetic_humidity Tmax R.
Proof.
  revert R. induction Tmax as [|t Tmax IH]; intros [|r R]; [done .. |].
  cbn [fmap list_fmap zip_with]. f_equal. apply IH.
Qed.

(** The pipeline returns on every frame of observations, with the columns
    [derived_columns] describes. *)
Lemma pipeline_on_observations lib df (A Tmin Tmax R : list Qc) (T : list Z)
    (G : option series) :
  columns df !! "satellite_aod" = Some (Num <$> A) →
  columns df !! "max_temp" = Some (Num <$> Tmax) →
  columns df !! "min_temp" = Some (Num <$> Tmin) →
  columns df !! "rainfall" = Some (Num <$> R) →
  timestamped df T →
  columns df !! "humidity" = None →
  columns df !! "ground_truth_pm25" = G →
  length A = length T → length Tmin = length T →
  length Tmax = length T → length R = length T →
  returns (create_advanced_features lib df)
    (derived_columns lib (sort_order (Time <$> T)) A Tmin Tmax R).
Proof.
  intros Haod Hmax Hmin Hrain Htime Hhum Hg HlA HlTmin HlTmax HlR.
  destruct Htime as [Hrec | [[Hrec Hdate] | (Hrec & Hdate & HT)]];
    destruct G as [g|]; cbn [fmap option_fmap option_map] in *.
  all: follow_pipeline T.
  all: rewrite humidity_formula in *.
  all: unfold derived_columns, lag_columns, aod_rolling_columns, temp_rolling_columns.
  all: repeat first [ split | apply Forall_cons | apply Forall_nil ]; assumption.
Qed.







(** ** A single observation *)

Lemma shift_singleton (lag : nat) (c : cell) : lag ≠ 0%nat → shift lag [c] = [NaN].
Proof. by destruct lag. Qed.

Lemma rolling_mean_cells_singleton (w : nat) (x : Qc) :
  w ≠ 0%nat → rolling_mean_cells w [x] = [Num x].
Proof.
  destruct w as [|w]; [done |]. intros _.
  unfold rolling_mean_cells, window_q. cbn [length seq fmap list_fmap].
  replace (1 - S w)%nat with 0%nat by lia. cbn [take drop].
  by rewrite mean_singleton.
Qed.

Lemma rolling_std_cells_singleton lib (w : nat) (x : Qc) :
  w ≠ 0%nat → rolling_std_cells lib w [x] = [NaN].
Proof.
  destruct w as [|w]; [done |]. intros _.
  unfold rolling_std_cells, window_q. cbn [length seq fmap list_fmap].
  replace (1 - S w)%nat with 0%nat by lia. reflexivity.
Qed.

(** C4 (as amended).  On a single observation the pipeline is not an
    error.  Every rolling mean equals the current value: the AOD for the
    AOD windows, the average temperature for the temperature windows.
    Every lag feature and both rolling standard deviations are undefined
    (NaN) in the frame the pipeline returns, and become 0 under the
    zero-fill the dispatcher applies. *)
Theorem single_observation_features lib (aod tmin tmax rain : Qc) (now : Z) :
  ∃ out,
    create_advanced_features lib (single_observation aod tmin tmax rain now) = Ok out
    ∧ Forall (λ name, columns out !! name = Some [Num aod]) aod_rolling_features
    ∧ columns out !! "avg_temp" = Some [Num ((tmax + tmin) / qz 2)]
    ∧ Forall (λ name, columns out !! name = Some [Num ((tmax + tmin) / qz 2)])
             temp_rolling_features
    ∧ Forall (λ name, columns out !! name = Some [NaN]
                      ∧ fillna0 <$> columns out !! name = Some [Num 0])
             (lag_features ++ volatility_features).
Proof.
  destruct (pipeline_on_observations lib (single_observation aod tmin tmax rain now)
              [aod] [tmin] [tmax] [rain] [now] None)
    as (out & Hout & _ & _ & _ & Havg & _ & Hlag & Hra & Hrt & Hva & Hvt);
    [ first [ reflexivity | right; left; split; reflexivity ] .. |].
  change (sort_order (Time <$> [now])) with [0%nat] in *.
  change (pick 0 [0%nat] [aod]) with [aod] in *.
  change (pick 0 [0%nat] ((λ x, x / qz 2) <$> zip_with Qcplus [tmax] [tmin]))
    with [(tmax + tmin) / qz 2] in *.
  exists out. split; [exact Hout |].
  unfold lag_columns, aod_rolling_columns, temp_rolling_columns in *.
  repeat match goal with
         | H : Forall _ (_ :: _) |- _ => apply Forall_cons in H as [? H]
         | H : Forall _ [] |- _ => clear H
         end.
  cbn [fst snd fmap list_fmap] in *.
  rewrite ?rolling_mean_cells_singleton, ?rolling_std_cells_singleton,
    ?shift_singleton in * by done.
  change ((ffill ∘ bfill) [NaN]) with [NaN] in *.
  change ((ffill ∘ bfill) [Num ?x]) with [Num x] in *.
  unfold aod_rolling_features, temp_rolling_features, lag_features,
    volatility_features. cbn [app].
  repeat first [ split | apply Forall_cons | apply Forall_nil ];
    first [ assumption
          | match goal with
            | H : columns out !! ?k = Some [NaN] |- fillna0 <$> columns out !! ?k = _ =>
                by rewrite H
            end ].
Qed.

(** C4 (counterexample).  One observation with AOD 300: the lag-1 feature
    the pipeline returns is NaN, not 300, and so is the rolling standard
    deviation; an advanced tier whose model returns the lag-1 feature
    answers 0 for it. *)
Lemma single_observation_lag_undefined :
  (columns <$> create_advanced_features lib0 (single_observation (qz 300) (qz 25) (qz 35) 0 0))
    ≫= (λ c, Ok (c !! "aod_lag_1", c !! "aod_volatility_3h", c !! "aod_rolling_3"))
  = Ok (Some [NaN], Some [NaN], Some [Num (qz 300)])
  ∧ reply_field (calibrate_advanced lib0 reg_lag 0 (JsonBody body_ok)) "calibrated_pm25"
    = Some (PyNum 0).
Proof. split; qc_compute. Qed.

(** ** The health, information and self-test endpoints *)

Lemma health_check_fields reg :
  json_path (health_check reg).1 ["default_model"] = Some (PyStr (default_model reg))
  ∧ ∀ t, json_path (health_check reg).1 ["models_available"; tier_key t]
         = Some (PyBool (loaded reg t)).
Proof. split; [reflexivity | intros []; reflexivity]. Qed.

(** X1.  [GET /health] and [POST /calibrate] agree.  For a request whose
    body parses to a truthy value, the tier [default_model] names is
    reported as available and is the tier whose handler answers the
    request; when [default_model] is "none" the request gets the 500
    response "No models available". *)
Theorem health_default_model_is_served lib reg now data :
  truthy data = true →
  match best_tier reg with
  | Some t =>
      json_path (health_check reg).1 ["default_model"] = Some (PyStr (tier_key t))
      ∧ json_path (health_check reg).1 ["models_available"; tier_key t]
        = Some (PyBool true)
      ∧ calibrate_aod lib reg now (JsonBody data)
        = Returned (run_tier lib reg now t data)
  | None =>
      json_path (health_check reg).1 ["default_model"] = Some (PyStr "none")
      ∧ calibrate_aod lib reg now (JsonBody data)
        = Returned (error_body "No models available", 500%Z)
  end.
Proof.
  intros Hd. rewrite (calibrate_aod_dispatch lib reg now data Hd).
  destruct (health_check_fields reg) as [-> Hav].
  rewrite (default_model_best_tier reg).
  destruct (best_tier reg) as [t|] eqn:Et; [| done].
  rewrite Hav.
  assert (available reg t = true) as Ha.
  { unfold best_tier in Et.
    repeat match type of Et with
           | (if ?c then _ else _) = _ => destruct c eqn:?
           end; by simplify_eq. }
  rewrite (available_loaded reg t Ha). by destruct t.
Qed.

Lemma health_default_model_is_served_witness :
  truthy body_ok = true
  ∧ json_path (health_check reg_all).1 ["default_model"] = Some (PyStr "advanced")
  ∧ calibrate_aod lib0 reg_all 0 (JsonBody body_ok)
    = Returned (run_tier lib0 reg_all 0 Advanced body_ok).
Proof.
  split; [reflexivity |].
  pose proof (health_default_model_is_served lib0 reg_all 0 body_ok eq_refl) as H.
  change (best_tier reg_all) with (Some Advanced) in H.
  destruct H as (H1 & _ & H3). split; [exact H1 | exact H3].
Defined.

(** X2.  A tier whose artifacts are all loaded but not all truthy (an
    empty feature list, an estimator of length 0) is reported as available
    by [GET /health], is not the [default_model], and its forced endpoint
    answers a body that parses to a truthy value with the 500 response that
    the model is not available. *)
Theorem loaded_but_falsy_tier lib reg now t data :
  loaded reg t = true → available reg t = false → truthy data = true →
  json_path (health_check reg).1 ["models_available"; tier_key t] = Some (PyBool true)
  ∧ json_path (health_check reg).1 ["default_model"] ≠ Some (PyStr (tier_key t))
  ∧ calibrate_forced lib reg now t (JsonBody data) = Returned (tier_unavailable t).
Proof.
  intros Hl Ha Hd. destruct (health_check_fields reg) as [-> Hav].
  rewrite Hav, Hl. split; [done |]. split.
  - rewrite (default_model_best_tier reg). unfold best_tier.
    destruct t; rewrite ?Ha;
      repeat match goal with
             | |- context [if ?c then _ else _] => destruct c
             end; discriminate.
  - by rewrite (calibrate_forced_dispatch lib reg now t data Hd), Ha.
Qed.

Lemma loaded_but_falsy_tier_witness :
  loaded reg_no_features Advanced = true
  ∧ available reg_no_features Advanced = false
  ∧ json_path (health_check reg_no_features).1 ["models_available"; "advanced"]
    = Some (PyBool true)
  ∧ calibrate_advanced lib0 reg_no_features 0 (JsonBody body_ok)
    = Returned (tier_unavailable Advanced).
Proof.
  split; [reflexivity |]. split; [reflexivity |].
  destruct (loaded_but_falsy_tier lib0 reg_no_features 0 Advanced body_ok
              eq_refl eq_refl eq_refl) as (H1 & _ & H3).
  split; [exact H1 | exact H3].
Defined.

Lemma models_info_available reg t :
  json_path (models_info reg).1 [tier_info_key t; "available"]
  = Some (PyBool (loaded reg t)).
Proof.
  destruct t; [reflexivity | | reflexivity].
  unfold models_info, loaded. by destruct (ensemble_model reg).
Qed.

(** X5.  [GET /models/info] reports for every tier the availability
    flag of [GET /health] and the version the tier's responses carry.  Its
    ensemble entry has [weights] and [component_scores] exactly when an
    ensemble is loaded, and the weights are those a successful ensemble
    response returns as [ensemble_weights]. *)
Theorem models_info_consistent reg :
  (∀ t, json_path (models_info reg).1 [tier_info_key t; "available"]
        = json_path (health_check reg).1 ["models_available"; tier_key t])
  ∧ (∀ t, json_path (models_info reg).1 [tier_info_key t; "version"]
          = Some (PyStr (model_version t)))
  ∧ match ensemble_model reg with
    | Some ens =>
        json_path (models_info reg).1 ["ensemble_model"; "weights"]
        = Some (weights_json (weights ens))
        ∧ json_path (models_info reg).1 ["ensemble_model"; "component_scores"]
          = Some (scores_json (scores ens))
    | None =>
        json_path (models_info reg).1 ["ensemble_model"; "weights"] = None
        ∧ json_path (models_info reg).1 ["ensemble_model"; "component_scores"] = None
    end
  ∧ (∀ data, (calibrate_with_ensemble_model reg data).2 = 200%Z →
       response_field (calibrate_with_ensemble_model reg data) "ensemble_weights"
       = json_path (models_info reg).1 ["ensemble_model"; "weights"]).
Proof.
  split; [| split; [| split]].
  - intros t. rewrite models_info_available.
    by destruct (health_check_fields reg) as [_ ->].
  - intros []; [reflexivity | | reflexivity].
    unfold models_info. by destruct (ensemble_model reg).
  - unfold models_info. by destruct (ensemble_model reg).
  - intros data H200.
    destruct (run_tier_success lib0 reg 0 Ensemble data H200) as (v & Hp & Hr).
    cbn [run_tier] in Hr. rewrite Hr.
    destruct Hp as (ens & X & p & Hens & _).
    unfold tier_result, tier_extra. rewrite Hens.
    unfold models_info. rewrite Hens. reflexivity.
Qed.

Lemma try_get_json_cases (r : response) :
  try_get_json r
  = if decide (r.2 = 200%Z) then r.1
    else error_body "'tuple' object has no attribute 'get_json'".
Proof. unfold try_get_json, get_json. by destruct (decide (r.2 = 200%Z)). Qed.

(** X6.  [GET /test] always answers 200 and echoes the sample
    observation.  Its [results] have an entry for a tier exactly when the
    tier is available: the body of the handler's response when the handler
    succeeded, and otherwise the error of calling [get_json] on the tuple
    the handler returned, not the handler's own error message. *)
Theorem test_endpoint_reports lib reg now :
  (test_endpoint lib reg now).2 = 200%Z
  ∧ json_path (test_endpoint lib reg now).1 ["test_input"] = Some test_input
  ∧ ∀ t, json_path (test_endpoint lib reg now).1 ["results"; tier_key t]
         = if available reg t then
             Some (if decide ((run_tier lib reg now t test_input).2 = 200%Z)
                   then (run_tier lib reg now t test_input).1
                   else error_body "'tuple' object has no attribute 'get_json'")
           else None.
Proof.
  split; [reflexivity |]. split; [reflexivity |].
  intros t. unfold test_endpoint, available. rewrite !try_get_json_cases.
  destruct (truthy (basic_model reg) && truthy (basic_scaler reg));
    destruct (truthy (ensemble_model reg));
    destruct (truthy (advanced_model reg) && truthy (advanced_scaler reg)
              && truthy (advanced_features reg));
    destruct t; reflexivity.
Qed.

(** ** What the calibration endpoints read and answer *)

(** X7.  The calibration endpoints and handlers read nothing of a
    request body but its truth value and its four fields: two bodies that
    agree on these get the same responses from all of them. *)
Theorem calibration_reads_four_fields lib reg now data data' :
  truthy data = truthy data' →
  (∀ k, k ∈ required_fields → subscript data k = subscript data' k) →
  calibration_responses lib reg now data = calibration_responses lib reg now data'.
Proof.
  intros Ht Hk.
  assert (subscript data "satellite_aod" = subscript data' "satellite_aod") as E1
    by (apply Hk; set_solver).
  assert (subscript data "min_temp" = subscript data' "min_temp") as E2
    by (apply Hk; set_solver).
  assert (subscript data "max_temp" = subscript data' "max_temp") as E3
    by (apply Hk; set_solver).
  assert (subscript data "rainfall" = subscript data' "rainfall") as E4
    by (apply Hk; set_solver).
  assert (∀ t, run_tier lib reg now t data = run_tier lib reg now t data') as Hrun.
  { intros []; cbn [run_tier];
      unfold calibrate_with_basic_model, calibrate_with_ensemble_model,
        calibrate_with_advanced_model; by rewrite E1, E2, E3, E4. }
  pose proof (Hrun Basic) as Hb. pose proof (Hrun Ensemble) as He.
  pose proof (Hrun Advanced) as Ha. cbn [run_tier] in Hb, He, Ha.
  unfold calibration_responses, endpoints, handlers, calibrate_aod, calibrate_basic,
    calibrate_ensemble, calibrate_advanced. cbn [run_tier request_get_json].
  by rewrite Ht, Hb, He, Ha.
Qed.

Lemma calibration_reads_four_fields_witness :
  truthy body_with_extras = truthy body_ok
  ∧ calibration_responses lib0 reg_all 0 body_with_extras
    = calibration_responses lib0 reg_all 0 body_ok.
Proof.
  split; [reflexivity |].
  apply (calibration_reads_four_fields lib0 reg_all 0 body_with_extras body_ok).
  - reflexivity.
  - intros k Hk. unfold required_fields in Hk.
    repeat (apply elem_of_cons in Hk as [-> | Hk]; [reflexivity |]).
    by apply elem_of_nil in Hk.
Defined.

Lemma run_tier_status lib reg now t data :
  (run_tier lib reg now t data).2 = 200%Z
  ∨ ∃ e, run_tier lib reg now t data = tier_error t e.
Proof.
  destruct (run_tier_cases lib reg now t data) as [(v & extra & ->) | He];
    [by left | by right].
Qed.

Lemma run_tier_shape lib reg now t data :
  let resp := run_tier lib reg now t data in
  (resp.2 = 200%Z ∧ is_Some (response_field resp "calibrated_pm25")
   ∧ response_field resp "error" = None)
  ∨ (resp.2 = 500%Z ∧ ∃ msg, resp.1 = error_body msg).
Proof.
  intros resp. destruct (run_tier_status lib reg now t data) as [H200 | [e He]].
  - left. split; [done |].
    destruct (run_tier_success lib reg now t data H200) as (v & _ & Hr).
    unfold resp. rewrite Hr. split; [by eexists |].
    unfold tier_result, tier_extra.
    destruct t; [reflexivity | |].
    + by destruct (ensemble_model reg).
    + by destruct (advanced_features reg).
  - right. unfold resp. rewrite He. split; [reflexivity | by eexists].
Qed.

Lemma calibrate_aod_cases lib reg now request :
  calibrate_aod lib reg now request =
    match request with
    | NotJson => Aborted UnsupportedMediaType
    | BadJson => Aborted BadRequest
    | JsonBody data =>
        Returned (if truthy data
                  then match best_tier reg with
                       | Some t => run_tier lib reg now t data
                       | None => (error_body "No models available", 500%Z)
                       end
                  else no_json_data)
    end.
Proof.
  destruct request as [| |data]; [reflexivity | reflexivity |].
  destruct (truthy data) eqn:Hd; [by apply calibrate_aod_dispatch |].
  unfold calibrate_aod. cbn [request_get_json]. by rewrite Hd.
Qed.

(** What a calibration endpoint can answer to a request. *)
Lemma endpoints_cases lib reg now request r :
  r ∈ endpoints lib reg now request →
  match request with
  | NotJson => r = Aborted UnsupportedMediaType
  | BadJson => r = Aborted BadRequest
  | JsonBody data =>
      if truthy data
      then (∃ t, r = Returned (run_tier lib reg now t data))
           ∨ (∃ msg, r = Returned (error_body msg, 500%Z))
      else r = Returned no_json_data
  end.
Proof.
  intros Hr.
  assert (r = calibrate_aod lib reg now request
          ∨ ∃ t, r = calibrate_forced lib reg now t request) as [-> | [t ->]].
  { unfold endpoints in Hr.
    repeat (apply elem_of_cons in Hr as [-> | Hr]);
      [ by left | right; by exists Basic | right; by exists Ensemble
      | right; by exists Advanced | by apply elem_of_nil in Hr ]. }
  - rewrite calibrate_aod_cases. destruct request as [| |data]; [done | done |].
    destruct (truthy data); [| done].
    destruct (best_tier reg) as [t|]; [left | right]; by eexists.
  - rewrite calibrate_forced_cases. destruct request as [| |data]; [done | done |].
    destruct (truthy data); [| done].
    destruct (available reg t); [left; by eexists | right; by eexists].
Qed.

(** X8.  A calibration endpoint answers a request either with Flask's own
    rejection, when [get_json] cannot read a body (415 or 400, an error
    page), or with a JSON response.  Every JSON response of an endpoint or
    of a handler is either a 200 with a [calibrated_pm25] field and no
    [error] field, or a 400 or 500 whose body is an error object; the JSON
    400 is the answer "No JSON data provided", which only a body that
    parses to a falsy value gets. *)
Theorem calibration_response_shape lib reg now request data r :
  r ∈ (endpoints lib reg now request ++ (Returned <$> handlers lib reg now data))%list →
  match r with
  | Aborted e =>
      request_get_json request = inl e ∧ (status r = 415%Z ∨ status r = 400%Z)
  | Returned resp =>
      (resp.2 = 200%Z ∧ is_Some (response_field resp "calibrated_pm25")
       ∧ response_field resp "error" = None)
      ∨ ((resp.2 = 400%Z ∨ resp.2 = 500%Z)
         ∧ (resp.2 = 400%Z ↔ resp = no_json_data)
         ∧ (resp = no_json_data →
            ∃ falsy, request = JsonBody falsy ∧ truthy falsy = false)
         ∧ ∃ msg, resp.1 = error_body msg)
  end.
Proof.
  intros Hin.
  assert (∀ body t,
            let resp := run_tier lib reg now t body in
            (resp.2 = 200%Z ∧ is_Some (response_field resp "calibrated_pm25")
             ∧ response_field resp "error" = None)
            ∨ ((resp.2 = 400%Z ∨ resp.2 = 500%Z)
               ∧ (resp.2 = 400%Z ↔ resp = no_json_data)
               ∧ (resp = no_json_data →
                  ∃ falsy, request = JsonBody falsy ∧ truthy falsy = false)
               ∧ ∃ msg, resp.1 = error_body msg)) as Hrun.
  { intros body t resp. destruct (run_tier_shape lib reg now t body) as [? | [H500 ?]];
      [by left | right]. fold resp in H500.
    split; [by right |]. split; [| split; [| done]].
    - split; intros Heq; rewrite Heq in H500; discriminate.
    - intros Heq. rewrite Heq in H500. discriminate. }
  assert (∀ msg, ((error_body msg, 500%Z).2 = 400%Z ∨ (error_body msg, 500%Z).2 = 500%Z)
                 ∧ ((error_body msg, 500%Z).2 = 400%Z
                    ↔ (error_body msg, 500%Z) = no_json_data)
                 ∧ ((error_body msg, 500%Z) = no_json_data →
                    ∃ falsy, request = JsonBody falsy ∧ truthy falsy = false)
                 ∧ ∃ msg', (error_body msg, 500%Z).1 = error_body msg') as H500.
  { intros msg. split; [by right |]. split; [done |]. split; [done | by eexists]. }
  apply elem_of_app in Hin as [Hin | Hin].
  - apply endpoints_cases in Hin. destruct request as [| |body].
    + subst r. split; [reflexivity | by left].
    + subst r. split; [reflexivity | by right].
    + destruct (truthy body) eqn:Hb.
      * destruct Hin as [[t ->] | [msg ->]]; [apply Hrun | right; apply H500].
      * subst r. right. split; [by left |]. split; [done |].
        split; [by exists body | by eexists].
  - unfold handlers in Hin. cbn [fmap list_fmap] in Hin.
    repeat (apply elem_of_cons in Hin as [-> | Hin]); [.. | by apply elem_of_nil in Hin];
      apply Hrun.
Qed.

Lemma calibration_response_shape_witness :
  calibrate_basic reg_basic (JsonBody body_no_rainfall)
    ∈ (endpoints lib0 reg_basic 0 (JsonBody body_no_rainfall)
       ++ (Returned <$> handlers lib0 reg_basic 0 body_no_rainfall))%list
  ∧ ∃ msg, calibrate_basic reg_basic (JsonBody body_no_rainfall)
           = Returned (error_body msg, 500%Z).
Proof.
  assert (calibrate_basic reg_basic (JsonBody body_no_rainfall)
            ∈ (endpoints lib0 reg_basic 0 (JsonBody body_no_rainfall)
               ++ (Returned <$> handlers lib0 reg_basic 0 body_no_rainfall))%list)
    as Hin.
  { apply elem_of_app. left. apply list_elem_of_further, list_elem_of_here. }
  split; [exact Hin |].
  pose proof (calibration_response_shape lib0 reg_basic 0 _ _ _ Hin) as H.
  change (calibrate_basic reg_basic (JsonBody body_no_rainfall))
    with (Returned (error_body "Basic model error: 'rainfall'", 500%Z)) in H |- *.
  cbn beta iota in H. destruct H as [[H200 _] | _]; [discriminate H200 |].
  by eexists.
Defined.

(** ** The value each tier computes *)

Lemma subscript_observation (aod tmin tmax rain : Qc) :
  subscript (observation aod tmin tmax rain) "satellite_aod" = Ok (PyNum aod)
  ∧ subscript (observation aod tmin tmax rain) "min_temp" = Ok (PyNum tmin)
  ∧ subscript (observation aod tmin tmax rain) "max_temp" = Ok (PyNum tmax)
  ∧ subscript (observation aod tmin tmax rain) "rainfall" = Ok (PyNum rain).
Proof. done. Qed.

(** X9.  With a basic scaler and model of width 4, the basic handler
    answers a numeric observation with the model's prediction on the
    standardized row [(x - mean_) / scale_], rounded to two decimals. *)
Theorem basic_tier_value reg model s (aod tmin tmax rain : Qc) :
  basic_model reg = Some model → basic_scaler reg = Some s →
  length (mean_ s) = 4%nat → length (scale_ s) = 4%nat →
  reg_n_features model = 4%nat →
  calibrate_with_basic_model reg (observation aod tmin tmax rain)
  = tier_result reg Basic (reg_fn model (scale_row s [aod; tmin; tmax; rain]))
  ∧ scale_row s [aod; tmin; tmax; rain]
    = zip_with (λ x ms, (x - ms.1) / ms.2) [aod; tmin; tmax; rain]
        (zip (mean_ s) (scale_ s)).
Proof.
  intros Hm Hs Hmean Hscale Hn. split; [| reflexivity].
  unfold calibrate_with_basic_model.
  destruct (subscript_observation aod tmin tmax rain) as (-> & -> & -> & ->).
  rewrite Hm, Hs. cbn [mbind result_bind of_option].
  unfold np_array. cbn [mapM mbind result_bind mret result_ret to_float].
  cbn [head default length].
  unfold transform. cbn [as_float_rows mbind result_bind].
  unfold check_width, n_features_in_. rewrite Hmean.
  cbn [forallb length Nat.eqb andb mbind result_bind map].
  unfold reg_predict. cbn [as_float_rows mbind result_bind].
  unfold check_width. rewrite Hn. cbn [forallb].
  assert (length (scale_row s [aod; tmin; tmax; rain]) = 4%nat) as ->.
  { unfold scale_row. rewrite length_zip_with, length_zip, Hmean, Hscale. reflexivity. }
  reflexivity.
Qed.

Lemma basic_tier_value_witness :
  calibrate_with_basic_model reg_basic (observation (qz 300) (qz 25) (qz 35) 0)
  = tier_result reg_basic Basic
      (reg_fn (lin 2 4) (scale_row scaler4 [qz 300; qz 25; qz 35; 0])).
Proof.
  apply (basic_tier_value reg_basic (lin 2 4) scaler4 (qz 300) (qz 25) (qz 35) 0);
    reflexivity.
Defined.

(** X10.  With an ensemble that has learners, each of width 4 and with
    a weight, the ensemble handler answers a numeric observation with the
    weighted blend of the learners on the row as sent: the handler passes a
    list, which the combiner does not standardize. *)
Theorem ensemble_tier_value reg ens (aod tmin tmax rain : Qc) :
  ensemble_model reg = Some ens →
  models ens ≠ ∅ →
  (∀ name m, models ens !! name = Some m →
     reg_n_features m = 4%nat ∧ is_Some (weights ens !! name)) →
  calibrate_with_ensemble_model reg (observation aod tmin tmax rain)
  = tier_result reg Ensemble (blend ens [aod; tmin; tmax; rain]).
Proof.
  intros Hens Hne Hms.
  unfold calibrate_with_ensemble_model.
  destruct (subscript_observation aod tmin tmax rain) as (-> & -> & -> & ->).
  rewrite Hens. cbn [mbind result_bind of_option].
  rewrite (predict_blend ens _ (PyRows [[PyNum aod; PyNum tmin; PyNum tmax; PyNum rain]])
             [[aod; tmin; tmax; rain]]).
  - destruct (map_to_list (models ens)) as [|x l] eqn:El.
    { by apply map_to_list_empty_iff in El. }
    cbn [map first_out first head of_option mbind result_bind].
    unfold tier_result, tier_extra. rewrite Hens. reflexivity.
  - reflexivity.
  - split; [reflexivity |]. intros name m Hm.
    destruct (Hms name m Hm) as [-> _]. reflexivity.
  - intros name [m Hm]. by destruct (Hms name m Hm).
Qed.

Lemma ensemble_tier_value_witness :
  calibrate_with_ensemble_model reg_all (observation (qz 300) (qz 25) (qz 35) 0)
  = tier_result reg_all Ensemble (blend ens_ab [qz 300; qz 25; qz 35; 0]).
Proof.
  apply (ensemble_tier_value reg_all ens_ab (qz 300) (qz 25) (qz 35) 0).
  - reflexivity.
  - intros H. apply (f_equal (λ m : gmap string Regressor, m !! "a")) in H.
    vm_compute in H. discriminate H.
  - intros name m Hm. unfold ens_ab in Hm. cbn [models] in Hm.
    apply lookup_insert_Some in Hm as [[<- <-] | [_ Hm]].
    { split; [reflexivity | by eexists]. }
    apply lookup_insert_Some in Hm as [[<- <-] | [_ Hm]].
    { split; [reflexivity | by eexists]. }
    by rewrite lookup_empty in Hm.
Defined.

(** X11.  An ensemble without learners predicts the integer 0 for
    every input but an array of width 4, so the ensemble handler, which
    subscripts the prediction, answers every request that has the four
    fields with a 500. *)
Theorem empty_ensemble_cannot_answer reg ens data :
  ensemble_model reg = Some ens → models ens = ∅ →
  (∀ k, k ∈ required_fields → is_ok (subscript data k) = true) →
  calibrate_with_ensemble_model reg data
  = (error_body "Ensemble model error: 'int' object is not subscriptable", 500%Z)
  ∧ ∀ X, (∀ rows, X ≠ NdArray 4 rows) →
         EnsembleModel.predict ens X = Ok (PInt 0).
Proof.
  intros Hens Hempty Hk. split.
  - unfold calibrate_with_ensemble_model.
    assert (is_ok (subscript data "satellite_aod") = true) as H1 by (apply Hk; set_solver).
    assert (is_ok (subscript data "min_temp") = true) as H2 by (apply Hk; set_solver).
    assert (is_ok (subscript data "max_temp") = true) as H3 by (apply Hk; set_solver).
    assert (is_ok (subscript data "rainfall") = true) as H4 by (apply Hk; set_solver).
    destruct (subscript data "satellite_aod"); [| discriminate H1].
    destruct (subscript data "min_temp"); [| discriminate H2].
    destruct (subscript data "max_temp"); [| discriminate H3].
    destruct (subscript data "rainfall"); [| discriminate H4].
    rewrite Hens. cbn [mbind result_bind of_option].
    unfold EnsembleModel.predict. cbn [EnsembleModel.scale_input mbind result_bind].
    unfold EnsembleModel.run_models, EnsembleModel.weighted_sum.
    rewrite Hempty, map_to_list_empty. reflexivity.
  - intros X HX. unfold EnsembleModel.predict.
    assert (EnsembleModel.scale_input ens X = Ok X) as ->.
    { destruct X as [n rows|rows]; [| reflexivity].
      unfold EnsembleModel.scale_input.
      destruct n as [|[|[|[|[|n]]]]]; try reflexivity.
      by destruct (HX rows). }
    cbn [mbind result_bind].
    unfold EnsembleModel.run_models, EnsembleModel.weighted_sum.
    rewrite Hempty, map_to_list_empty. reflexivity.
Qed.

Lemma empty_ensemble_cannot_answer_witness :
  calibrate_with_ensemble_model reg_ens_empty body_ok
  = (error_body "Ensemble model error: 'int' object is not subscriptable", 500%Z).
Proof.
  apply (empty_ensemble_cannot_answer reg_ens_empty ens_empty body_ok);
    [reflexivity | reflexivity |].
  intros k Hk. unfold required_fields in Hk.
  repeat (apply elem_of_cons in Hk as [-> | Hk]; [reflexivity |]).
  by apply elem_of_nil in Hk.
Defined.

(** ** Loading the artifacts *)

Lemma load_models_registry lib files reg now :
  (load_models lib files reg now).1
  = (load_advanced files (load_ensemble files (load_basic files reg).1).1).1.
Proof.
  unfold load_models.
  destruct (load_basic files reg) as [r1 l1]. cbn [fst].
  destruct (load_ensemble files r1) as [r2 l2]. cbn [fst].
  by destruct (load_advanced files r2) as [r3 l3].
Qed.

Lemma load_basic_keeps files reg :
  let reg' := (load_basic files reg).1 in
  ensemble_model reg' = ensemble_model reg
  ∧ advanced_model reg' = advanced_model reg
  ∧ advanced_scaler reg' = advanced_scaler reg
  ∧ advanced_features reg' = advanced_features reg.
Proof.
  unfold load_basic.
  by destruct (basic_model_path files) as [[?|?]|],
              (basic_scaler_path files) as [[?|?]|].
Qed.

Lemma load_ensemble_keeps files reg :
  let reg' := (load_ensemble files reg).1 in
  basic_model reg' = basic_model reg
  ∧ basic_scaler reg' = basic_scaler reg
  ∧ advanced_model reg' = advanced_model reg
  ∧ advanced_scaler reg' = advanced_scaler reg
  ∧ advanced_features reg' = advanced_features reg.
Proof. unfold load_ensemble. by destruct (ensemble_path files) as [[?|?]|]. Qed.

Lemma load_advanced_keeps files reg :
  let reg' := (load_advanced files reg).1 in
  basic_model reg' = basic_model reg
  ∧ basic_scaler reg' = basic_scaler reg
  ∧ ensemble_model reg' = ensemble_model reg.
Proof.
  unfold load_advanced.
  by destruct (advanced_model_path files) as [[?|?]|],
              (advanced_scaler_path files) as [[?|?]|],
              (advanced_features_path files) as [[?|?]|].
Qed.

(** The globals [load_models] leaves, field by field: an artifact is set
    when the files of its tier all exist, it loads, and the files the
    [try] block loads before it load as well. *)
Lemma load_models_globals lib files now :
  let reg := (load_models lib files initial_globals now).1 in
  basic_model reg
  = match basic_model_path files, basic_scaler_path files with
    | Some (Ok m), Some _ => Some m
    | _, _ => None
    end
  ∧ basic_scaler reg
    = match basic_model_path files, basic_scaler_path files with
      | Some (Ok _), Some (Ok s) => Some s
      | _, _ => None
      end
  ∧ ensemble_model reg
    = match ensemble_path files with Some (Ok e) => Some e | _ => None end
  ∧ advanced_model reg
    = match advanced_model_path files, advanced_scaler_path files,
            advanced_features_path files with
      | Some (Ok m), Some _, Some _ => Some m
      | _, _, _ => None
      end
  ∧ advanced_scaler reg
    = match advanced_model_path files, advanced_scaler_path files,
            advanced_features_path files with
      | Some (Ok _), Some (Ok s), Some _ => Some s
      | _, _, _ => None
      end
  ∧ advanced_features reg
    = match advanced_model_path files, advanced_scaler_path files,
            advanced_features_path files with
      | Some (Ok _), Some (Ok _), Some (Ok f) => Some f
      | _, _, _ => None
      end.
Proof.
  intros reg. unfold reg. rewrite load_models_registry.
  set (r1 := (load_basic files initial_globals).1).
  set (r2 := (load_ensemble files r1).1).
  destruct (load_basic_keeps files initial_globals) as (Hb1 & Hb2 & Hb3 & Hb4).
  destruct (load_ensemble_keeps files r1) as (He1 & He2 & He3 & He4 & He5).
  destruct (load_advanced_keeps files r2) as (Ha1 & Ha2 & Ha3).
  cbn zeta in *. fold r1 in Hb1, Hb2, Hb3, Hb4, He1, He2, He3, He4, He5.
  fold r2 in He1, He2, He3, He4, He5, Ha1, Ha2, Ha3.
  rewrite Ha1, Ha2, Ha3, He1, He2.
  split; [| split; [| split; [| split; [| split]]]].
  - unfold r1, load_basic.
    by destruct (basic_model_path files) as [[?|?]|],
                (basic_scaler_path files) as [[?|?]|].
  - unfold r1, load_basic.
    by destruct (basic_model_path files) as [[?|?]|],
                (basic_scaler_path files) as [[?|?]|].
  - unfold r2, load_ensemble.
    destruct (ensemble_path files) as [[?|?]|]; cbn; rewrite ?Hb1; reflexivity.
  - unfold load_advanced.
    destruct (advanced_model_path files) as [[?|?]|],
             (advanced_scaler_path files) as [[?|?]|],
             (advanced_features_path files) as [[?|?]|];
      cbn; rewrite ?He3, ?Hb2; reflexivity.
  - unfold load_advanced.
    destruct (advanced_model_path files) as [[?|?]|],
             (advanced_scaler_path files) as [[?|?]|],
             (advanced_features_path files) as [[?|?]|];
      cbn; rewrite ?He4, ?Hb3; reflexivity.
  - unfold load_advanced.
    destruct (advanced_model_path files) as [[?|?]|],
             (advanced_scaler_path files) as [[?|?]|],
             (advanced_features_path files) as [[?|?]|];
      cbn; rewrite ?He5, ?Hb4; reflexivity.
Qed.

(** X3.  After [load_models()] on the fresh globals a tier is loaded
    exactly when all of its files exist and load.  A tier with a missing or
    unreadable file is never served, although the files read before the
    failure stay assigned; a tier whose files all load is served exactly
    when the artifacts in the files are truthy. *)
Theorem load_models_tiers lib files now t :
  let reg := (load_models lib files initial_globals now).1 in
  loaded reg t = files_load files t
  ∧ (files_load files t = true → available reg t = available (files_registry files) t)
  ∧ (files_load files t = false → available reg t = false).
Proof.
  intros reg.
  destruct (load_models_globals lib files now) as (H1 & H2 & H3 & H4 & H5 & H6).
  fold reg in H1, H2, H3, H4, H5, H6.
  destruct t; unfold loaded, available, files_load, files_registry;
    rewrite ?H1, ?H2, ?H3, ?H4, ?H5, ?H6; cbn.
  - destruct (basic_model_path files) as [[?|?]|],
             (basic_scaler_path files) as [[?|?]|]; try done.
    all: cbn; rewrite ?andb_false_r; done.
  - by destruct (ensemble_path files) as [[?|?]|].
  - destruct (advanced_model_path files) as [[?|?]|],
             (advanced_scaler_path files) as [[?|?]|],
             (advanced_features_path files) as [[?|?]|]; try done.
    all: cbn; rewrite ?andb_false_r; done.
Qed.

(** The outcome of a handler on the sample observation, from the outcome
    of the prediction it wraps. *)
Lemma test_failed_elem {A} (what : string) (attempt : result A) line :
  line ∈ test_failed what attempt ↔ ∃ e, attempt = Raise e ∧ line = what +:+ str_exn e.
Proof.
  destruct attempt as [a|e]; cbn.
  - split; [by intros ?%elem_of_nil | by intros (e & ? & _)].
  - rewrite list_elem_of_singleton. split; [intros ->; by eexists | ].
    by intros (e' & [= ->] & ->).
Qed.

Lemma test_failed_if_elem {A} (c : bool) (what : string) (attempt : result A) line :
  line ∈ (if c then test_failed what attempt else [])
  ↔ c = true ∧ ∃ e, attempt = Raise e ∧ line = what +:+ str_exn e.
Proof.
  destruct c.
  - rewrite test_failed_elem. by split; [| intros [_ ?]].
  - split; [by intros ?%elem_of_nil | by intros [? _]].
Qed.

(** X4.  For an available tier, the start-up self test [test_models]
    logs a failure line for the tier exactly when the tier's handler answers
    the sample observation of [GET /test] with an error, and the line
    carries the exception of that error; otherwise the handler answers 200
    and no line is logged for the tier. *)
Theorem self_test_predicts_sample lib reg now t :
  available reg t = true →
  ((run_tier lib reg now t test_input).2 = 200%Z
   ∧ ∀ e, self_test_line t e ∉ test_models lib reg now)
  ∨ (∃ e, run_tier lib reg now t test_input = tier_error t e
          ∧ self_test_line t e ∈ test_models lib reg now).
Proof.
  intros Ha. unfold test_models.
  set (a1 := scaler ← of_option (basic_scaler reg) _; _).
  set (a2 := ens ← of_option (ensemble_model reg) _; _).
  set (a3 := test_advanced ← create_advanced_features lib _; _).
  assert (∀ (c1 c2 c3 : bool) line,
            line ∈ ((if c1 then test_failed "Basic model test failed: " a1 else [])
                    ++ (if c2 then test_failed "Ensemble model test failed: " a2 else [])
                    ++ (if c3 then test_failed "Advanced model test failed: " a3 else []))%list
            ↔ (c1 = true ∧ ∃ e, a1 = Raise e ∧ line = self_test_line Basic e)
              ∨ (c2 = true ∧ ∃ e, a2 = Raise e ∧ line = self_test_line Ensemble e)
              ∨ (c3 = true ∧ ∃ e, a3 = Raise e ∧ line = self_test_line Advanced e))
    as Hlines.
  { intros c1 c2 c3 line. rewrite !elem_of_app, !test_failed_if_elem. reflexivity. }
  assert (∀ t' e e', self_test_line t e = self_test_line t' e' →
                     t' = t ∧ str_exn e' = str_exn e) as Hinj.
  { intros t' e e' Heq. unfold self_test_line in Heq.
    destruct t, t'; cbn in Heq; simplify_eq; done. }
  assert (run_tier lib reg now t test_input
          = match (match t with Basic => a1 | Ensemble => a2 | Advanced => a3 end) with
            | Ok v => tier_result reg t v
            | Raise e => tier_error t e
            end) as Hrun.
  { change test_input with (observation (qz 300) (qz 25) (qz 35) 0).
    destruct (subscript_observation (qz 300) (qz 25) (qz 35) 0) as (E1 & E2 & E3 & E4).
    unfold tier_result, tier_error, tier_extra.
    destruct t; cbn [run_tier available tier_label source_name model_version
                     confidence] in *.
    - apply andb_prop in Ha as [Hm Hs].
      unfold calibrate_with_basic_model, a1. rewrite E1, E2, E3, E4.
      destruct (basic_model reg) as [m|]; [| discriminate Hm].
      destruct (basic_scaler reg) as [s|]; [| discriminate Hs].
      cbn [of_option mbind result_bind].
      change (np_array [[PyNum (qz 300); PyNum (qz 25); PyNum (qz 35); PyNum 0]])
        with (Ok (NdArray 4 [[qz 300; qz 25; qz 35; 0]])).
      cbn [mbind result_bind].
      change (transform s (PyRows [[PyNum (qz 300); PyNum (qz 25); PyNum (qz 35);
                                    PyNum 0]]))
        with (transform s (NdArray 4 [[qz 300; qz 25; qz 35; 0]])).
      repeat case_bind; reflexivity.
    - unfold calibrate_with_ensemble_model, a2. rewrite E1, E2, E3, E4.
      destruct (ensemble_model reg) as [ens|]; [| discriminate Ha].
      cbn [of_option mbind result_bind].
      repeat case_bind; reflexivity.
    - apply andb_prop in Ha as [Ha Hf]. apply andb_prop in Ha as [Hm Hs].
      unfold calibrate_with_advanced_model, a3. rewrite E1, E2, E3, E4.
      cbn [mbind result_bind cell_of_json].
      destruct (advanced_features reg) as [f|]; [| discriminate Hf].
      destruct (advanced_scaler reg) as [s|]; [| discriminate Hs].
      destruct (advanced_model reg) as [m|]; [| discriminate Hm].
      cbn [of_option mbind result_bind].
      repeat case_bind; reflexivity. }
  clearbody a1 a2 a3.
  rewrite Hrun.
  destruct (match t with Basic => a1 | Ensemble => a2 | Advanced => a3 end)
    as [v|e] eqn:Eat.
  - left. split; [reflexivity |].
    intros e Hin. apply Hlines in Hin.
    destruct Hin as [(_ & e' & Ha1 & Heq) | [(_ & e' & Ha1 & Heq) | (_ & e' & Ha1 & Heq)]];
      apply Hinj in Heq as [<- _]; congruence.
  - right. exists e. split; [reflexivity |].
    apply Hlines. destruct t; cbn [available] in Ha.
    + left. split; [exact Ha | exists e; split; [exact Eat | reflexivity]].
    + right; left. split; [exact Ha | exists e; split; [exact Eat | reflexivity]].
    + right; right. split; [exact Ha | exists e; split; [exact Eat | reflexivity]].
Qed.

Lemma self_test_predicts_sample_witness :
  available reg_all Ensemble = true
  ∧ (run_tier lib0 reg_all 0 Ensemble test_input).2 = 200%Z
  ∧ ∀ e, self_test_line Ensemble e ∉ test_models lib0 reg_all 0.
Proof.
  split; [reflexivity |].
  destruct (self_test_predicts_sample lib0 reg_all 0 Ensemble eq_refl)
    as [H | (e & He & _)]; [exact H |].
  exfalso. apply (f_equal snd) in He. vm_compute in He. discriminate He.
Defined.

(** ** The weights the training script derives *)

Lemma fmap_snd_map_to_list {A B} (f : A → B) (m : gmap string A) :
  (map_to_list (f <$> m)).*2 = f <$> (map_to_list m).*2.
Proof.
  rewrite map_to_list_fmap.
  induction (map_to_list m) as [|[k x] l IH]; [done |]. cbn. by rewrite IH.
Qed.

Lemma weight_total_fmap {A} (f : A → Qc) (m : gmap string A) :
  weight_total (f <$> m) = qsum (f <$> (map_to_list m).*2).
Proof. unfold weight_total. by rewrite fmap_snd_map_to_list. Qed.

Lemma best_r2_positive (scores : gmap string score) best :
  best_r2_of (map_to_list scores).*2 = Ok best →
  (∃ name s, scores !! name = Some s ∧ 0 < r2 s) → 0 < best.
Proof.
  intros Hb (name & s & Hs & Hpos).
  destruct (best_r2_of_max _ _ Hb) as [Hmax _].
  eapply Qclt_le_trans; [exact Hpos |]. apply Hmax, values_of_map. eauto.
Qed.

Lemma best_r2_of_nonempty (scores : gmap string score) :
  scores ≠ ∅ → ∃ best, best_r2_of (map_to_list scores).*2 = Ok best.
Proof.
  intros Hne. destruct (map_to_list scores) as [|[k s] l] eqn:El.
  - by apply map_to_list_empty_iff in El.
  - cbn. by eexists.
Qed.

Lemma raw_total_positive_best (scores : gmap string score) best :
  0 < best →
  weight_total (raw_weight best <$> scores) = total_r2 scores / best.
Proof.
  intros Hpos. rewrite weight_total_fmap. unfold total_r2.
  rewrite <- qsum_fmap_div. f_equal.
  generalize ((map_to_list scores).*2). intros l.
  induction l as [|s l IH]; [done |]. cbn [fmap list_fmap]. f_equal; [| exact IH].
  unfold raw_weight. by rewrite decide_True.
Qed.

Lemma derive_weights_quotient (scores : gmap string score) :
  (∃ name s, scores !! name = Some s ∧ 0 < r2 s) →
  total_r2 scores ≠ 0 →
  derive_weights scores = Ok ((λ s, r2 s / total_r2 scores) <$> scores).
Proof.
  intros Hex Ht.
  assert (scores ≠ ∅) as Hne.
  { destruct Hex as (name & s & Hs & _). intros ->. by rewrite lookup_empty in Hs. }
  destruct (best_r2_of_nonempty scores Hne) as [best Hb].
  pose proof (best_r2_positive scores best Hb Hex) as Hpos.
  assert (best ≠ 0) as Hb0.
  { intros H0. rewrite H0 in Hpos. by apply Qclt_not_eq in Hpos. }
  rewrite (derive_weights_unfold scores best Hb), (raw_total_positive_best _ _ Hpos).
  rewrite normalize_weights_ok.
  - f_equal. rewrite <- map_fmap_compose. apply map_fmap_ext. intros k s _. cbn.
    unfold raw_weight. rewrite decide_True by done. by field.
  - unfold Qcdiv. intros [H0 | H0]%Qcmult_integral; [done |].
    apply (f_equal (Qcmult best)) in H0. rewrite Qcmult_inv_r, Qcmult_0_r in H0 by done.
    discriminate H0.
Qed.

(** X13.  When some learner has a positive R² and the scores do not
    sum to 0, the weight the training derives for a learner is its R²
    divided by the sum of all the R² scores: the best score cancels out. *)
Theorem derive_weights_closed_form (scores : gmap string score) :
  (∃ name s, scores !! name = Some s ∧ 0 < r2 s) →
  total_r2 scores ≠ 0 →
  ∃ ws, derive_weights scores = Ok ws
        ∧ ∀ name, ws !! name = (λ s, r2 s / total_r2 scores) <$> scores !! name.
Proof.
  intros Hex Ht. eexists. split; [by apply derive_weights_quotient |].
  intros name. by rewrite lookup_fmap.
Qed.

Lemma derive_weights_closed_form_witness :
  ∃ ws, derive_weights scores_ab = Ok ws
        ∧ ∀ name, ws !! name = (λ s, r2 s / total_r2 scores_ab) <$> scores_ab !! name.
Proof.
  apply (derive_weights_closed_form scores_ab).
  - exists "a", (sc 8 10). split; [reflexivity | reflexivity].
  - intros H0. apply (f_equal this) in H0. vm_compute in H0. discriminate H0.
Defined.

Lemma qsum_app (l1 l2 : list Qc) : qsum (l1 ++ l2) = qsum l1 + qsum l2.
Proof.
  unfold qsum. induction l1 as [|x l1 IH]; cbn [foldr app]; [ring | rewrite IH; ring].
Qed.

Lemma qsum_elem_le (l : list Qc) x :
  (∀ y, y ∈ l → 0 ≤ y) → x ∈ l → x ≤ qsum l.
Proof.
  intros Hl Hin. apply list_elem_of_split in Hin as (l1 & l2 & ->).
  rewrite qsum_app. change (qsum (x :: l2)) with (x + qsum l2).
  assert (0 ≤ qsum l1).
  { apply qsum_nonneg. intros y Hy. apply Hl, elem_of_app. by left. }
  assert (0 ≤ qsum l2).
  { apply qsum_nonneg. intros y Hy. apply Hl, elem_of_app. right.
    by apply list_elem_of_further. }
  qc_lra.
Qed.

Lemma Qcdiv_le_mono (a b t : Qc) : 0 < t → a ≤ b → a / t ≤ b / t.
Proof.
  intros Ht Hab. unfold Qcdiv. apply Qcmult_le_compat_r; [exact Hab |].
  by apply Qclt_le_weak, Qcinv_pos.
Qed.

Lemma total_r2_positive (scores : gmap string score) :
  (∀ name s, scores !! name = Some s → 0 ≤ r2 s) →
  (∃ name s, scores !! name = Some s ∧ 0 < r2 s) →
  0 < total_r2 scores.
Proof.
  intros Hnn (name & s & Hs & Hpos). unfold total_r2. apply qsum_pos.
  - intros x (s' & -> & Hin)%list_elem_of_fmap.
    apply values_of_map in Hin as [name' Hs']. by eapply Hnn.
  - exists (r2 s). split; [| done]. apply list_elem_of_fmap. exists s.
    split; [done |]. apply values_of_map. eauto.
Qed.

(** X14.  When no R² is negative and one is positive, the
    training derives a weight for every learner and for nothing else, each
    weight lies between 0 and 1, and a learner with a higher R² gets no
    lower weight. *)
Theorem derived_weights_of_nonnegative_scores (scores : gmap string score) :
  (∀ name s, scores !! name = Some s → 0 ≤ r2 s) →
  (∃ name s, scores !! name = Some s ∧ 0 < r2 s) →
  ∃ ws, derive_weights scores = Ok ws
        ∧ (∀ name, is_Some (ws !! name) ↔ is_Some (scores !! name))
        ∧ (∀ name w, ws !! name = Some w → 0 ≤ w ≤ 1)
        ∧ (∀ a b sa sb wa wb,
             scores !! a = Some sa → scores !! b = Some sb →
             ws !! a = Some wa → ws !! b = Some wb →
             r2 sa ≤ r2 sb → wa ≤ wb).
Proof.
  intros Hnn Hex.
  pose proof (total_r2_positive scores Hnn Hex) as HT.
  assert (total_r2 scores ≠ 0) as HT0.
  { intros H0. rewrite H0 in HT. by apply Qclt_not_eq in HT. }
  eexists. split; [by apply derive_weights_quotient |].
  split; [| split].
  - intros name. by rewrite lookup_fmap, fmap_is_Some.
  - intros name w Hw. rewrite lookup_fmap in Hw.
    destruct (scores !! name) as [s|] eqn:Hs; [| done]. injection Hw as <-.
    split.
    + unfold Qcdiv. apply Qcmult_nonneg_nonneg; [by eapply Hnn |].
      by apply Qclt_le_weak, Qcinv_pos.
    + assert (r2 s ≤ total_r2 scores) as Hle.
      { unfold total_r2. apply qsum_elem_le.
        - intros x (s' & -> & Hin)%list_elem_of_fmap.
          apply values_of_map in Hin as [name' Hs']. by eapply Hnn.
        - apply list_elem_of_fmap. exists s. split; [done |].
          apply values_of_map. eauto. }
      apply (Qcdiv_le_mono _ _ _ HT) in Hle.
      assert (total_r2 scores / total_r2 scores = 1) as Hone by by field.
      by rewrite Hone in Hle.
  - intros a b sa sb wa wb Ha Hb Hwa Hwb Hle.
    rewrite lookup_fmap, Ha in Hwa. rewrite lookup_fmap, Hb in Hwb.
    injection Hwa as <-. injection Hwb as <-. by apply Qcdiv_le_mono.
Qed.

Lemma derived_weights_of_nonnegative_scores_witness :
  ∃ ws, derive_weights scores_ab = Ok ws
        ∧ ∀ name w, ws !! name = Some w → 0 ≤ w ≤ 1.
Proof.
  destruct (derived_weights_of_nonnegative_scores scores_ab) as (ws & Hd & _ & Hr & _).
  - intros name s Hs. unfold scores_ab in Hs.
    apply lookup_insert_Some in Hs as [[_ <-] | [_ Hs]]; [done |].
    apply lookup_insert_Some in Hs as [[_ <-] | [_ Hs]]; [done |].
    by rewrite lookup_empty in Hs.
  - exists "a", (sc 8 10). split; reflexivity.
  - exists ws. split; [exact Hd | exact Hr].
Defined.

(** X15.  A learner whose R² is negative gets a negative weight when
    the scores sum to a positive value; the weights still sum to 1. *)
Theorem negative_score_negative_weight (scores : gmap string score) name s :
  scores !! name = Some s → r2 s < 0 → 0 < total_r2 scores →
  ∃ ws w, derive_weights scores = Ok ws ∧ ws !! name = Some w ∧ w < 0
          ∧ weight_total ws = 1.
Proof.
  intros Hs Hneg HT.
  assert (total_r2 scores ≠ 0) as HT0.
  { intros H0. rewrite H0 in HT. by apply Qclt_not_eq in HT. }
  assert (∃ name' s', scores !! name' = Some s' ∧ 0 < r2 s') as Hex.
  { destruct (decide (Exists (λ x, 0 < x) (r2 <$> (map_to_list scores).*2)))
      as [Hsome | Hnone].
    - apply Exists_exists in Hsome as (x & (s' & -> & Hin)%list_elem_of_fmap & Hx).
      apply values_of_map in Hin as [name' Hs']. eauto.
    - exfalso. apply (Qclt_not_le _ _ HT).
      assert (∀ l : list Qc, (∀ x, x ∈ l → x ≤ 0) → qsum l ≤ 0) as Hnp.
      { clear. induction l as [|x l IH]; intros H; [done |].
        change (qsum (x :: l)) with (x + qsum l).
        assert (x ≤ 0) by (apply H, list_elem_of_here).
        assert (qsum l ≤ 0) by (apply IH; intros; apply H; by apply list_elem_of_further).
        qc_lra. }
      apply Hnp. intros x Hx. apply Qcnot_lt_le. intros Hpos. apply Hnone.
      apply Exists_exists. eauto. }
  exists ((λ s, r2 s / total_r2 scores) <$> scores), (r2 s / total_r2 scores).
  split; [by apply derive_weights_quotient |].
  split; [by rewrite lookup_fmap, Hs |].
  split.
  - assert (r2 s / total_r2 scores = - ((- r2 s) / total_r2 scores)) as ->
      by by field.
    assert (0 < (- r2 s) / total_r2 scores) as Hpos.
    { unfold Qcdiv. rewrite <- (Qcmult_0_l (/ total_r2 scores)).
      apply Qcmult_lt_compat_r; [by apply Qcinv_pos |].
      clear -Hneg. qc_lra. }
    qc_lra.
  - rewrite weight_total_fmap.
    rewrite (list_fmap_compose r2 (λ x, x / total_r2 scores)), qsum_fmap_div.
    fold (total_r2 scores). by field.
Qed.

Lemma negative_score_negative_weight_witness :
  ∃ ws w, derive_weights scores_mixed = Ok ws ∧ ws !! "b" = Some w ∧ w < 0
          ∧ weight_total ws = 1.
Proof.
  apply (negative_score_negative_weight scores_mixed "b" (sc (-1) 4));
    [reflexivity | reflexivity | reflexivity].
Defined.

(** ** The blended prediction *)

Lemma qsum_perm (l1 l2 : list Qc) : l1 ≡ₚ l2 → qsum l1 = qsum l2.
Proof.
  induction 1 as [|x l1 l2 _ IH|x y l|l1 l2 l3 _ IH1 _ IH2]; unfold qsum in *;
    cbn [foldr]; [done | by rewrite IH | ring | by rewrite IH1].
Qed.

Lemma weight_total_insert (ws : gmap string Qc) k w :
  ws !! k = None → weight_total (<[k := w]> ws) = w + weight_total ws.
Proof.
  intros Hk. unfold weight_total.
  rewrite (qsum_perm _ ((k, w) :: map_to_list ws).*2); [done |].
  apply fmap_Permutation. by apply map_to_list_insert.
Qed.

(** The weights of the learners, summed over the model map. *)
Lemma weights_over_models (ms : gmap string Regressor) (ws : gmap string Qc) :
  (∀ name, is_Some (ms !! name) ↔ is_Some (ws !! name)) →
  qsum ((λ nm, default 0 (ws !! nm.1)) <$> map_to_list ms) = weight_total ws.
Proof.
  revert ws. induction ms as [|k m ms Hk _ IH] using map_first_key_ind; intros ws Hdom.
  - rewrite map_to_list_empty. cbn.
    assert (ws = ∅) as ->.
    { apply map_empty. intros name. apply eq_None_not_Some. rewrite <- Hdom.
      rewrite lookup_empty. by intros [? ?]. }
    unfold weight_total. by rewrite map_to_list_empty.
  - rewrite (qsum_perm _ ((λ nm, default 0 (ws !! nm.1)) <$> ((k, m) :: map_to_list ms)));
      [| apply fmap_Permutation; by apply map_to_list_insert].
    cbn [fmap list_fmap fst]. change (qsum (?x :: ?l)) with (x + qsum l).
    destruct (proj1 (Hdom k)) as [w Hw]; [rewrite lookup_insert_eq; by eexists |].
    rewrite Hw. cbn [default].
    rewrite <- (insert_delete_id ws k w Hw).
    rewrite weight_total_insert by apply lookup_delete_eq.
    f_equal. rewrite <- (IH (delete k ws)).
    + f_equal. apply list_fmap_ext. intros i [k' m'] Hin. cbn [fst].
      apply list_elem_of_lookup_2, elem_of_map_to_list in Hin.
      assert (k ≠ k') by (intros ->; congruence).
      by rewrite lookup_insert_ne, lookup_delete_ne.
    + intros name. destruct (decide (k = name)) as [<-|Hne].
      * rewrite lookup_delete_eq, Hk. split; by intros [? ?].
      * rewrite lookup_delete_ne by done. rewrite <- Hdom.
        by rewrite lookup_insert_ne.
Qed.

Lemma blend_sum (self : EnsembleModel) (row : list Qc) :
  blend self row
  = qsum ((λ nm, default 0 (weights self !! nm.1) * reg_fn nm.2 row)
          <$> map_to_list (models self)).
Proof.
  unfold blend. rewrite foldl_plus_qsum.
  assert (qz 0 = 0) as -> by (apply Qc_is_canon; reflexivity). ring.
Qed.

Lemma qsum_weighted_bounds {A} (w f : A → Qc) (lo hi : Qc) (l : list A) :
  (∀ x, x ∈ l → 0 ≤ w x) → (∀ x, x ∈ l → lo ≤ f x ≤ hi) →
  lo * qsum (w <$> l) ≤ qsum ((λ x, w x * f x) <$> l)
  ∧ qsum ((λ x, w x * f x) <$> l) ≤ hi * qsum (w <$> l).
Proof.
  induction l as [|x l IH]; intros Hw Hf.
  - cbn. split; rewrite Qcmult_0_r; done.
  - cbn [fmap list_fmap]. change (qsum (?y :: ?l')) with (y + qsum l').
    destruct IH as [IH1 IH2].
    { intros y Hy. apply Hw. by apply list_elem_of_further. }
    { intros y Hy. apply Hf. by apply list_elem_of_further. }
    destruct (Hf x) as [Hlo Hhi]; [apply list_elem_of_here |].
    assert (0 ≤ w x) as Hwx by (apply Hw, list_elem_of_here).
    assert (w x * lo ≤ w x * f x) as H1.
    { rewrite !(Qcmult_comm (w x)). by apply Qcmult_le_compat_r. }
    assert (w x * f x ≤ w x * hi) as H2.
    { rewrite !(Qcmult_comm (w x)). by apply Qcmult_le_compat_r. }
    rewrite !Qcmult_plus_distr_r. rewrite (Qcmult_comm lo (w x)), (Qcmult_comm hi (w x)).
    split; by apply Qcplus_le_compat.
Qed.

(** X12.  When the weights are non-negative, sum to 1 and cover
    exactly the learners, every prediction of the ensemble lies in any
    interval that holds all the learners' predictions on the rows, and the
    ensemble returns one prediction per row. *)
Theorem predict_within_member_range (self : EnsembleModel) X X' rows (lo hi : Qc) :
  EnsembleModel.scale_input self X = Ok X' →
  accepted self X' rows →
  models self ≠ ∅ →
  (∀ name, is_Some (models self !! name) ↔ is_Some (weights self !! name)) →
  (∀ name w, weights self !! name = Some w → 0 ≤ w) →
  weight_total (weights self) = 1 →
  (∀ name m row, models self !! name = Some m → row ∈ rows → lo ≤ reg_fn m row ≤ hi) →
  ∃ values, EnsembleModel.predict self X = Ok (PArr values)
            ∧ length values = length rows
            ∧ Forall (λ v, lo ≤ v ≤ hi) values.
Proof.
  intros Hscale Hacc Hne Hdom Hnn Hone Hbound.
  exists (map (blend self) rows). split; [| split].
  - rewrite (predict_blend self X X' rows Hscale Hacc).
    + destruct (map_to_list (models self)) eqn:El; [| done].
      by apply map_to_list_empty_iff in El.
    + intros name. apply Hdom.
  - by rewrite length_map.
  - apply Forall_forall. intros v (row & -> & Hrow)%list_elem_of_fmap.
    rewrite blend_sum.
    destruct (qsum_weighted_bounds (λ nm, default 0 (weights self !! nm.1))
                (λ nm, reg_fn nm.2 row) lo hi (map_to_list (models self)))
      as [H1 H2].
    + intros [name m] _. cbn [fst].
      destruct (weights self !! name) as [w|] eqn:Hw; [by eapply Hnn | done].
    + intros [name m] Hin. cbn [snd]. apply elem_of_map_to_list in Hin.
      by eapply Hbound.
    + rewrite (weights_over_models _ _ Hdom), Hone, !Qcmult_1_r in H1, H2. done.
Qed.

Lemma predict_within_member_range_witness :
  ∃ values, EnsembleModel.predict ens_ab test_array = Ok (PArr values)
            ∧ length values = 1%nat
            ∧ Forall (λ v, qz 20 ≤ v ≤ qz 60) values.
Proof.
  apply (predict_within_member_range ens_ab test_array
           (NdArray 4 [[qz 20; qz 25; qz 35; 0]]) [[qz 20; qz 25; qz 35; 0]]
           (qz 20) (qz 60)).
  - qc_compute.
  - split; [reflexivity |]. intros name m Hm. unfold ens_ab in Hm. cbn [models] in Hm.
    apply lookup_insert_Some in Hm as [[_ <-] | [_ Hm]]; [reflexivity |].
    apply lookup_insert_Some in Hm as [[_ <-] | [_ Hm]]; [reflexivity |].
    by rewrite lookup_empty in Hm.
  - intros H. apply (f_equal (λ m : gmap string Regressor, m !! "a")) in H.
    vm_compute in H. discriminate H.
  - intros name. unfold ens_ab. cbn [models weights].
    destruct (decide (name = "a")) as [->|Ha].
    { rewrite !lookup_insert_eq. split; by eexists. }
    rewrite !(lookup_insert_ne _ "a") by done.
    destruct (decide (name = "b")) as [->|Hb].
    { rewrite !lookup_insert_eq. split; by eexists. }
    rewrite !(lookup_insert_ne _ "b") by done.
    rewrite !lookup_empty. split; by intros [? ?].
  - intros name w Hw. unfold ens_ab in Hw. cbn [weights] in Hw.
    apply lookup_insert_Some in Hw as [[_ <-] | [_ Hw]]; [done |].
    apply lookup_insert_Some in Hw as [[_ <-] | [_ Hw]]; [done |].
    by rewrite lookup_empty in Hw.
  - qc_compute.
  - intros name m row Hm Hrow. apply list_elem_of_singleton in Hrow as ->.
    unfold ens_ab in Hm. cbn [models] in Hm.
    apply lookup_insert_Some in Hm as [[_ <-] | [_ Hm]]; [done |].
    apply lookup_insert_Some in Hm as [[_ <-] | [_ Hm]]; [done |].
    by rewrite lookup_empty in Hm.
Defined.

(** ** The ensemble the training script builds *)

Lemma train_loop_keys fit (l : list string) m0 s0 m s :
  foldl (train_step fit) (Ok (m0, s0)) l = Ok (m, s) →
  ∀ name, (is_Some (m !! name) ↔ name ∈ l ∨ is_Some (m0 !! name))
          ∧ (is_Some (s !! name) ↔ name ∈ l ∨ is_Some (s0 !! name)).
Proof.
  revert m0 s0. induction l as [|k l IH]; intros m0 s0 Hf name.
  - cbn in Hf. injection Hf as <- <-. rewrite elem_of_nil. tauto.
  - cbn [foldl] in Hf. unfold train_step at 2 in Hf. cbn [mbind result_bind] in Hf.
    destruct (fit k) as [[mk sk]|e]; cbn [mbind result_bind fst snd] in Hf.
    + destruct (IH _ _ Hf name) as [H1 H2]. rewrite H1, H2, elem_of_cons.
      destruct (decide (k = name)) as [<-|Hne].
      * rewrite !lookup_insert_eq. split; split; eauto.
      * rewrite !lookup_insert_ne by done.
        assert (name ≠ k) by congruence. tauto.
    + rewrite foldl_raise in Hf; [discriminate Hf | by intros ? ?].
Qed.

Lemma derive_weights_result (model_scores : gmap string score) ws :
  derive_weights model_scores = Ok ws →
  (∀ name, is_Some (ws !! name) ↔ is_Some (model_scores !! name))
  ∧ weight_total ws = 1.
Proof.
  intros Hd.
  destruct (decide (model_scores = ∅)) as [->|Hne].
  { unfold derive_weights in Hd. rewrite map_to_list_empty in Hd. discriminate Hd. }
  destruct (best_r2_of_nonempty model_scores Hne) as [best Hb].
  rewrite (derive_weights_unfold model_scores best Hb) in Hd.
  set (raw := raw_weight best <$> model_scores) in *.
  destruct (decide (weight_total raw = 0)) as [H0|Ht].
  - rewrite H0, normalize_weights_zero in Hd; [discriminate Hd |].
    unfold raw. intros Hraw. by apply fmap_empty_inv in Hraw.
  - rewrite normalize_weights_ok in Hd by done. injection Hd as <-. split.
    + intros name. unfold raw. by rewrite !lookup_fmap, !fmap_is_Some.
    + by apply weight_total_normalized.
Qed.

(** X16.  An ensemble that [create_ensemble_model] returns was
    trained on at least 100 rows and has exactly the learners gb, rf, mlp
    and linear, with a weight and a recorded score for each; its weights are
    those derived from the recorded scores and sum to 1, it keeps the fitted
    scaler, and it predicts the blend of its learners for every input they
    accept. *)
Theorem trained_ensemble_is_consistent fit sc X_test dump n e :
  create_ensemble_model fit sc X_test dump n = Some e →
  (100 ≤ n)%nat
  ∧ (∀ name, is_Some (models e !! name) ↔ name ∈ learner_names)
  ∧ (∀ name, is_Some (weights e !! name) ↔ name ∈ learner_names)
  ∧ (∃ model_scores,
       scores e = Some model_scores
       ∧ (∀ name, is_Some (model_scores !! name) ↔ name ∈ learner_names)
       ∧ derive_weights model_scores = Ok (weights e))
  ∧ weight_total (weights e) = 1
  ∧ scaler e = sc
  ∧ ∀ X X' rows,
      EnsembleModel.scale_input e X = Ok X' → accepted e X' rows →
      EnsembleModel.predict e X = Ok (PArr (map (blend e) rows)).
Proof.
  unfold create_ensemble_model. intros Hc.
  destruct (n <? 100)%nat eqn:En; [discriminate Hc |].
  apply Nat.ltb_ge in En. split; [exact En |].
  destruct (foldl (train_step fit) (Ok (∅, ∅)) learner_names) as [[ms ss]|?] eqn:Eloop;
    cbn [mbind result_bind fst snd] in Hc; [| discriminate Hc].
  destruct (derive_weights ss) as [ws|?] eqn:Ew;
    cbn [mbind result_bind] in Hc; [| discriminate Hc].
  destruct (EnsembleModel.predict _ (NdArray 4 X_test)) as [?|?];
    cbn [mbind result_bind] in Hc; [| discriminate Hc].
  destruct (dump _) as [?|?]; cbn [mbind result_bind] in Hc; [| discriminate Hc].
  injection Hc as <-. cbn [models weights scores scaler EnsembleModel.set_scores
                           EnsembleModel.__init__].
  pose proof (train_loop_keys fit _ _ _ _ _ Eloop) as Hkeys.
  destruct (derive_weights_result ss ws Ew) as [Hdom Hone].
  assert (∀ name, is_Some (ms !! name) ↔ name ∈ learner_names) as Hms.
  { intros name. destruct (Hkeys name) as [-> _]. rewrite lookup_empty.
    split; [intros [? | [? ?]]; done | by left]. }
  assert (∀ name, is_Some (ss !! name) ↔ name ∈ learner_names) as Hss.
  { intros name. destruct (Hkeys name) as [_ ->]. rewrite lookup_empty.
    split; [intros [? | [? ?]]; done | by left]. }
  assert (∀ name, is_Some (ws !! name) ↔ name ∈ learner_names) as Hws.
  { intros name. by rewrite Hdom. }
  split; [exact Hms |]. split; [exact Hws |].
  split; [exists ss; split; [reflexivity | split; [exact Hss | exact Ew]] |].
  split; [exact Hone |]. split; [reflexivity |].
  intros X X' rows Hscale Hacc.
  rewrite (predict_blend _ X X' rows Hscale Hacc).
  - change (models (EnsembleModel.set_scores (EnsembleModel.__init__ ms ws sc) ss))
      with ms.
    destruct (map_to_list ms) eqn:El; [| done].
    apply map_to_list_empty_iff in El. exfalso.
    assert (is_Some (ms !! "gb")) as [? Hgb]
      by (apply Hms, list_elem_of_here).
    by rewrite El, lookup_empty in Hgb.
  - intros name Hn. apply Hws. by apply Hms.
Qed.

Lemma trained_ensemble_is_consistent_witness :
  ∃ e, create_ensemble_model fit_all scaler4 [[qz 300; qz 25; qz 35; 0]]
         (λ _, Ok tt) 120 = Some e
       ∧ weight_total (weights e) = 1
       ∧ ∀ name, is_Some (weights e !! name) ↔ name ∈ learner_names.
Proof.
  destruct (create_ensemble_model fit_all scaler4 [[qz 300; qz 25; qz 35; 0]]
              (λ _, Ok tt) 120) as [e|] eqn:Ec; [| vm_compute in Ec; discriminate Ec].
  exists e. split; [reflexivity |].
  destruct (trained_ensemble_is_consistent _ _ _ _ _ _ Ec)
    as (_ & _ & Hw & _ & Hone & _).
  split; [exact Hone | exact Hw].
Defined.

(** ** The shape of the frame the pipeline returns *)

Lemma bind_ok_inv {A B} (m : result A) (k : A → result B) b :
  m ≫= k = Ok b → ∃ a, m = Ok a ∧ k a = Ok b.
Proof. destruct m as [a|e]; [| discriminate]. intros H. by exists a. Qed.

Lemma mapM_ok_length {A B} (f : A → result B) (l : list A) l' :
  mapM f l = Ok l' → length l' = length l.
Proof.
  revert l'. induction l as [|x l IH]; intros l' H; cbn in H.
  - by injection H as <-.
  - destruct (f x) as [y|]; [| discriminate H].
    destruct (mapM f l) as [k|]; [| discriminate H].
    cbn in H. injection H as <-. cbn. f_equal. by apply IH.
Qed.

Lemma series_map_length f (s v : series) : series_map f s = Ok v → length v = length s.
Proof. apply mapM_ok_length. Qed.

Lemma smap_length f (s v : series) : smap f s = Ok v → length v = length s.
Proof. apply mapM_ok_length. Qed.

Lemma series_zip_length f (a b v : series) :
  series_zip f a b = Ok v → length v = (length a `min` length b)%nat.
Proof.
  intros H. apply mapM_ok_length in H. by rewrite H, length_zip.
Qed.

Lemma rolling_mean_length w (s v : series) :
  rolling_mean w s = Ok v → length v = length s.
Proof. intros H. apply mapM_ok_length in H. by rewrite H, length_seq. Qed.

Lemma rolling_std_length lib w (s v : series) :
  rolling_std lib w s = Ok v → length v = length s.
Proof. intros H. apply mapM_ok_length in H. by rewrite H, length_seq. Qed.

Lemma length_shift lag (s : series) : length (shift lag s) = length s.
Proof. unfold shift. rewrite length_take, length_app. lia. Qed.

Lemma length_bfill (s : series) : length (bfill s) = length s.
Proof.
  induction s as [|c s IH]; [done |]. cbn [bfill].
  destruct c; cbn [length]; by rewrite IH.
Qed.

Lemma length_ffill_from last (s : series) : length (ffill_from last s) = length s.
Proof.
  revert last. induction s as [|c s IH]; intros last; [done |].
  cbn [ffill_from length]. by rewrite IH.
Qed.

Lemma length_fill (s : series) : length ((ffill ∘ bfill) s) = length s.
Proof. unfold compose, ffill. by rewrite length_ffill_from, length_bfill. Qed.

Lemma length_date_range n : length (date_range_2025_06_01 n) = n.
Proof. unfold date_range_2025_06_01. by rewrite length_fmap, length_seq. Qed.

Lemma col_ok_inv df k c : col df k = Ok c → columns df !! k = Some c.
Proof. unfold col. destruct (columns df !! k); [by intros [= ->] | discriminate]. Qed.

Lemma has_col_true df k : has_col df k = true → is_Some (columns df !! k).
Proof. apply bool_decide_eq_true. Qed.

Lemma has_col_is_Some df k : has_col df k = true ↔ is_Some (columns df !! k).
Proof. apply bool_decide_eq_true. Qed.

Lemma assign_ok_inv df name r df' :
  assign df name r = Ok df' → ∃ v, r = Ok v ∧ df' = set_col df name v.
Proof.
  unfold assign. intros (v & Hv & H)%bind_ok_inv. exists v. split; [done |].
  by injection H.
Qed.

Section FrameInvariant.
Context (df0 : DataFrame) (W : list string).

Lemma frame_inv_start : frame_inv df0 W [] df0.
Proof.
  split; [done |]. split; [by intros k ?%elem_of_nil |].
  split; [done |]. split; [by right | done].
Qed.

Lemma frame_inv_weaken P P' df :
  (∀ k, k ∈ P' → k ∈ P) → frame_inv df0 W P df → frame_inv df0 W P' df.
Proof. intros Hsub (H1 & H2 & H3 & H4 & H5). repeat split; auto. Qed.

Lemma frame_inv_set_col P df name v :
  frame_inv df0 W P df → name ∈ W →
  (well_formed df → length v = nrows df) →
  frame_inv df0 W (name :: P) (set_col df name v).
Proof.
  intros (H1 & H2 & H3 & H4 & H5) HW Hlen. split; [exact H1 |].
  split; [| split; [| split]].
  - intros k [-> | Hk]%elem_of_cons; cbn.
    + rewrite lookup_insert_eq. by eexists.
    + destruct (decide (name = k)) as [->|Hne];
        [rewrite lookup_insert_eq; by eexists | rewrite lookup_insert_ne by done; auto].
  - intros k Hk. cbn. destruct (decide (name = k)) as [->|Hne];
      [rewrite lookup_insert_eq; by eexists | rewrite lookup_insert_ne by done; auto].
  - intros k. cbn. destruct (decide (name = k)) as [->|Hne];
      [by left | rewrite lookup_insert_ne by done; auto].
  - intros Hwf0 k c. cbn. specialize (H5 Hwf0).
    destruct (decide (name = k)) as [->|Hne].
    + rewrite lookup_insert_eq. intros [= <-]. by apply Hlen.
    + rewrite lookup_insert_ne by done. apply H5.
Qed.

Lemma frame_inv_assign P df name r df' reads :
  frame_inv df0 W P df → name ∈ W →
  assign df name r = Ok df' →
  (∀ v, r = Ok v →
     (∀ k, k ∈ reads → is_Some (columns df !! k))
     ∧ (well_formed df → length v = nrows df)) →
  frame_inv df0 W (name :: reads ++ P) df'.
Proof.
  intros Hinv HW (v & Hv & ->)%assign_ok_inv Hr.
  destruct (Hr v Hv) as [Hreads Hlen].
  apply frame_inv_set_col; [| done | done].
  destruct Hinv as (H1 & H2 & H3 & H4 & H5). repeat split; auto.
  intros k [?|?]%elem_of_app; auto.
Qed.

Lemma frame_inv_fmap P df (f : series → series) :
  (well_formed df → ∀ s, length s = nrows df → length (f s) = nrows df) →
  frame_inv df0 W P df →
  frame_inv df0 W P {| nrows := nrows df; columns := f <$> columns df |}.
Proof.
  intros Hf (H1 & H2 & H3 & H4 & H5). split; [exact H1 |].
  split; [| split; [| split]]; cbn.
  - intros k Hk. rewrite lookup_fmap, fmap_is_Some. auto.
  - intros k Hk. rewrite lookup_fmap, fmap_is_Some. auto.
  - intros k. rewrite lookup_fmap, fmap_is_Some. auto.
  - intros Hwf0 k c. cbn. rewrite lookup_fmap.
    destruct (columns df !! k) as [c0|] eqn:Hc; [| done]. intros [= <-].
    apply Hf; [by apply H5 |]. by eapply H5.
Qed.

Lemma frame_inv_foldl {B} (body : DataFrame → B → result DataFrame)
    (names : B → list string) (l : list B) P df df' :
  (∀ P df x df', x ∈ l → frame_inv df0 W P df → body df x = Ok df' →
                 frame_inv df0 W (names x ++ P) df') →
  frame_inv df0 W P df →
  foldl (λ acc x, d ← acc; body d x) (Ok df) l = Ok df' →
  frame_inv df0 W ((l ≫= names) ++ P) df'.
Proof.
  revert P df. induction l as [|x l IH]; intros P df Hbody Hinv Hf.
  - cbn in Hf. by injection Hf as <-.
  - cbn [foldl mbind result_bind] in Hf.
    destruct (body df x) as [df1|e] eqn:Hb.
    + apply (frame_inv_weaken (((l ≫= names) ++ names x ++ P))).
      { intros k. cbn. rewrite !elem_of_app. tauto. }
      apply (IH _ df1); [| | exact Hf].
      * intros ?????. apply Hbody. by apply list_elem_of_further.
      * eapply Hbody; [apply list_elem_of_here | exact Hinv | exact Hb].
    + rewrite foldl_raise in Hf; [discriminate Hf | by intros ? ?].
Qed.

End FrameInvariant.

Section Passes.
Context (dfb : DataFrame) (W' : list string).

Lemma passes_start : passes dfb W' id dfb.
Proof. by intros k c -> _. Qed.

Lemma passes_set_col g df name v :
  passes dfb W' g df → name ∈ W' ∨ columns dfb !! name = None →
  passes dfb W' g (set_col df name v).
Proof.
  intros Hp HW' k c Hk Hnot. cbn.
  destruct (decide (name = k)) as [->|Hne]; [| rewrite lookup_insert_ne by done; auto].
  destruct HW' as [? | Hnone]; [done | congruence].
Qed.

Lemma passes_assign g df name r df' :
  passes dfb W' g df → name ∈ W' ∨ columns dfb !! name = None →
  assign df name r = Ok df' → passes dfb W' g df'.
Proof. intros Hp HW' (v & _ & ->)%assign_ok_inv. by apply passes_set_col. Qed.

Lemma passes_fmap g df n (f : series → series) :
  passes dfb W' g df →
  passes dfb W' (f ∘ g) {| nrows := n; columns := f <$> columns df |}.
Proof. intros Hp k c Hk Hnot. cbn. by rewrite lookup_fmap, (Hp k c Hk Hnot). Qed.

Lemma passes_foldl {B} (body : DataFrame → B → result DataFrame) (l : list B)
    g df df' :
  (∀ df x df', x ∈ l → passes dfb W' g df → body df x = Ok df' →
               passes dfb W' g df') →
  passes dfb W' g df →
  foldl (λ acc x, d ← acc; body d x) (Ok df) l = Ok df' →
  passes dfb W' g df'.
Proof.
  revert df. induction l as [|x l IH]; intros df Hbody Hp Hf.
  - cbn in Hf. by injection Hf as <-.
  - cbn [foldl mbind result_bind] in Hf.
    destruct (body df x) as [df1|e] eqn:Hb.
    + apply (IH df1); [| | exact Hf].
      * intros ????. apply Hbody. by apply list_elem_of_further.
      * eapply Hbody; [apply list_elem_of_here | exact Hp | exact Hb].
    + rewrite foldl_raise in Hf; [discriminate Hf | by intros ? ?].
Qed.

End Passes.

(** A name is in a list of names. *)
Ltac written_name := apply (bool_decide_unpack _); vm_compute; exact I.

(** Lengths of the series a right-hand side computes. *)
Ltac series_lengths :=
  repeat match goal with
         | H : series_map _ _ = Ok _ |- _ => apply series_map_length in H
         | H : smap _ _ = Ok _ |- _ => apply smap_length in H
         | H : series_zip _ _ _ = Ok _ |- _ => apply series_zip_length in H
         | H : rolling_mean _ _ = Ok _ |- _ => apply rolling_mean_length in H
         | H : rolling_std _ _ _ = Ok _ |- _ => apply rolling_std_length in H
         | H : Ok _ = Ok _ |- _ => injection H as <-
         end;
  rewrite ?List.length_map, ?length_shift; lia.

(** The side condition of [frame_inv_assign]: the right-hand side reads
    columns that exist, and computes a series of the length of the frame. *)
Ltac reads_columns :=
  let v := fresh "v" in
  let Hv := fresh "Hv" in
  intros v Hv;
  repeat (lazymatch type of Hv with
          | mbind _ _ = Ok _ => apply bind_ok_inv in Hv as (? & ? & Hv); cbv beta in Hv
          end);
  repeat match goal with
         | H : col _ _ = Ok _ |- _ => apply col_ok_inv in H
         end;
  split;
  [ intros ? Hk;
    repeat (apply elem_of_cons in Hk as [-> | Hk]; [eexists; eassumption |]);
    by apply elem_of_nil in Hk
  | let Hwf := fresh "Hwf" in
    intros Hwf;
    repeat match goal with
           | H : columns _ !! _ = Some _ |- _ => apply Hwf in H
           end;
    series_lengths ].

(** Carry the [passes] facts of the context over an assignment. *)
Ltac pass_assign Hs :=
  lazymatch type of Hs with
  | assign ?df _ _ = Ok ?df' =>
      repeat match goal with
             | Hp : passes ?dfb ?W' ?g df |- _ =>
                 let Hn := fresh "Hp" in
                 assert (passes dfb W' g df') as Hn
                   by (eapply passes_assign; [exact Hp | | exact Hs];
                       first [ left; written_name | right; eassumption ]);
                 clear Hp; rename Hn into Hp
             end
  end.

(** One assignment [df[name] = ...] of the pipeline, which reads the
    columns [reads]. *)
Ltac frame_step H Inv reads :=
  let df := fresh "df" in
  let Hs := fresh "Hs" in
  lazymatch type of H with
  | mbind _ _ = Ok _ => apply bind_ok_inv in H as (df & Hs & H); cbv beta in H
  | _ => rename H into Hs
  end;
  pass_assign Hs;
  apply (frame_inv_assign _ _ _ _ _ _ _ reads Inv) in Hs;
  [ clear Inv; rename Hs into Inv | written_name | reads_columns ].

(** Forget some of the columns known to be present. *)
Ltac frame_weaken Inv :=
  eapply frame_inv_weaken; [| exact Inv];
  first [ apply Forall_forall; apply (bool_decide_unpack _); vm_compute; exact I
        | let k := fresh "k" in
          intros k; cbn [app]; rewrite ?elem_of_app, !elem_of_cons; tauto ].

Section PipelineSteps.
Context (lib : NumLib) (df0 : DataFrame).
Let W := (derived_names ++ optional_names)%list.

Lemma frame_inv_add_recorded_at P df df' :
  frame_inv df0 W P df → add_recorded_at lib df = Ok df' →
  frame_inv df0 W ("recorded_at" :: P) df'.
Proof.
  intros Inv H. unfold add_recorded_at in H.
  destruct (has_col df "recorded_at") eqn:E1; [| destruct (has_col df "date") eqn:E2].
  - frame_step H Inv ["recorded_at"]. frame_weaken Inv.
  - frame_step H Inv ["date"]. frame_weaken Inv.
  - injection H as <-. apply frame_inv_set_col; [done | written_name |].
    intros _. rewrite length_date_range. reflexivity.
Qed.

Lemma frame_inv_add_humidity P df df' :
  frame_inv df0 W ("avg_temp" :: P) df → add_humidity df = Ok df' →
  frame_inv df0 W ("humidity" :: "avg_temp" :: P) df'.
Proof.
  intros Inv H. unfold add_humidity in H.
  destruct (has_col df "humidity") eqn:E1.
  - apply bind_ok_inv in H as (df1 & H1 & H).
    assert (frame_inv df0 W ("humidity" :: "avg_temp" :: P) df1) as Inv1.
    { destruct (has_col df "pressure") eqn:E2.
      - frame_step H1 Inv ["humidity"; "pressure"]. frame_weaken Inv.
      - injection H1 as <-.
        apply has_col_true in E1.
        destruct Inv as (I1 & I2 & I3 & I4 & I5). repeat split; auto.
        intros k [-> | Hk]%elem_of_cons; auto. }
    frame_step H Inv1 ["avg_temp"; "humidity"]. frame_weaken Inv1.
  - frame_step H Inv ["max_temp"; "rainfall"].
    frame_step H Inv ["humidity"]. frame_weaken Inv.
Qed.

Lemma frame_inv_add_lags P df df' :
  frame_inv df0 W P df → add_lags df = Ok df' →
  frame_inv df0 W (["aod_lag_1"; "aod_lag_2"; "aod_lag_3"; "aod_lag_6"; "aod_lag_12";
                    "aod_lag_24"] ++ P) df'.
Proof.
  intros Inv H. unfold add_lags in H.
  apply (frame_inv_foldl df0 W _ (λ lag, ["aod_lag_" +:+ pretty lag]) _ P) in H;
    [exact H | | exact Inv].
  clear. intros P df lag df' Hlag Inv H.
  apply bind_ok_inv in H as (df1 & H1 & H).
  assert (frame_inv df0 W (("aod_lag_" +:+ pretty lag) :: P) df1) as Inv1.
  { repeat (apply elem_of_cons in Hlag as [-> | Hlag];
            [frame_step H1 Inv ["satellite_aod"]; frame_weaken Inv |]).
    by apply elem_of_nil in Hlag. }
  destruct (has_col df1 "ground_truth_pm25"); [| by injection H as <-].
  repeat (apply elem_of_cons in Hlag as [-> | Hlag];
          [frame_step H Inv1 ["ground_truth_pm25"]; frame_weaken Inv1 |]).
  by apply elem_of_nil in Hlag.
Qed.

Lemma frame_inv_add_rolling P df df' :
  frame_inv df0 W P df → add_rolling df = Ok df' →
  frame_inv df0 W
    (["aod_rolling_3"; "temp_rolling_3"; "aod_rolling_6"; "temp_rolling_6";
      "aod_rolling_12"; "temp_rolling_12"; "aod_rolling_24"; "temp_rolling_24"] ++ P)
    df'.
Proof.
  intros Inv H. unfold add_rolling in H.
  apply (frame_inv_foldl df0 W _
           (λ window, ["aod_rolling_" +:+ pretty window;
                       "temp_rolling_" +:+ pretty window]) _ P) in H;
    [exact H | | exact Inv].
  clear. intros P df window df' Hw Inv H.
  repeat (apply elem_of_cons in Hw as [-> | Hw];
          [frame_step H Inv ["satellite_aod"]; frame_step H Inv ["avg_temp"];
           frame_weaken Inv |]).
  by apply elem_of_nil in Hw.
Qed.

End PipelineSteps.

Section PassesSteps.
Context (dfb : DataFrame) (W' : list string).

Lemma passes_add_recorded_at lib g df df' :
  "recorded_at" ∈ W' →
  passes dfb W' g df → add_recorded_at lib df = Ok df' → passes dfb W' g df'.
Proof.
  intros HW Hp H. unfold add_recorded_at in H.
  destruct (has_col df "recorded_at"); [| destruct (has_col df "date")].
  - eapply passes_assign; [exact Hp  | | exact H]; [by left].
  - eapply passes_assign; [exact Hp  | | exact H]; [by left].
  - injection H as <-. apply passes_set_col; [exact Hp | by left].
Qed.

Lemma passes_add_humidity g df df' :
  (∀ k, k ∈ early_optional_names → k ∈ W') →
  "humidity" ∈ W' ∨ (has_col df "humidity" = false → columns dfb !! "humidity" = None) →
  passes dfb W' g df → add_humidity df = Ok df' → passes dfb W' g df'.
Proof.
  intros HW Hh Hp H. unfold add_humidity in H.
  destruct (has_col df "humidity") eqn:E1.
  - apply bind_ok_inv in H as (df1 & H1 & H).
    assert (passes dfb W' g df1) as Hp1.
    { destruct (has_col df "pressure").
      - eapply passes_assign; [exact Hp  | | exact H1]; [left; apply HW; written_name].
      - by injection H1 as <-. }
    eapply passes_assign; [exact Hp1  | | exact H]; [left; apply HW; written_name].
  - assert ("humidity" ∈ W' ∨ columns dfb !! "humidity" = None) as Hside.
    { destruct Hh as [? | Hh]; [by left | right; by apply Hh]. }
    apply bind_ok_inv in H as (df1 & H1 & H).
    eapply passes_assign; [| | exact H]; [| exact Hside].
    eapply passes_assign; [exact Hp  | | exact H1]; [exact Hside].
Qed.

Lemma passes_add_lags g df df' :
  (∀ k, k ∈ late_names → k ∈ W') → (∀ k, k ∈ late_optional_names → k ∈ W') →
  passes dfb W' g df → add_lags df = Ok df' → passes dfb W' g df'.
Proof.
  intros HW HWo Hp H. unfold add_lags in H.
  apply (passes_foldl dfb W' _ _ g) in H; [exact H | | exact Hp].
  clear Hp H df df'. intros df lag df' Hlag Hp H.
  apply bind_ok_inv in H as (df1 & H1 & H).
  assert (passes dfb W' g df1) as Hp1.
  { eapply passes_assign; [exact Hp  | | exact H1]; [left; apply HW].
    repeat (apply elem_of_cons in Hlag as [-> | Hlag]; [written_name |]).
    by apply elem_of_nil in Hlag. }
  destruct (has_col df1 "ground_truth_pm25"); [| by injection H as <-].
  eapply passes_assign; [exact Hp1  | | exact H]; [left; apply HWo].
  repeat (apply elem_of_cons in Hlag as [-> | Hlag]; [written_name |]).
  by apply elem_of_nil in Hlag.
Qed.

Lemma passes_add_rolling g df df' :
  (∀ k, k ∈ late_names → k ∈ W') →
  passes dfb W' g df → add_rolling df = Ok df' → passes dfb W' g df'.
Proof.
  intros HW Hp H. unfold add_rolling in H.
  apply (passes_foldl dfb W' _ _ g) in H; [exact H | | exact Hp].
  clear Hp H df df'. intros df window df' Hw Hp H.
  apply bind_ok_inv in H as (df1 & H1 & H).
  eapply passes_assign; [| | exact H]; [| left; apply HW].
  - eapply passes_assign; [exact Hp  | | exact H1]; [left; apply HW].
    repeat (apply elem_of_cons in Hw as [-> | Hw]; [written_name |]).
    by apply elem_of_nil in Hw.
  - repeat (apply elem_of_cons in Hw as [-> | Hw]; [written_name |]).
    by apply elem_of_nil in Hw.
Qed.

End PassesSteps.

(** Membership of one list of names in another, by computation. *)
Ltac names_included :=
  apply Forall_forall; apply (bool_decide_unpack _); vm_compute; exact I.

(** The frame the pipeline returns, against its input: [keys] is the
    column of timestamps it sets first, by which it sorts the rows. *)
Lemma pipeline_frame lib df0 out :
  create_advanced_features lib df0 = Ok out →
  ∃ df1 keys,
    add_recorded_at lib df0 = Ok df1
    ∧ columns df1 !! "recorded_at" = Some keys
    ∧ (well_formed df0 → length keys = nrows df0)
    ∧ frame_inv df0 (derived_names ++ optional_names) (base_columns ++ derived_names) out
    ∧ passes df0 overwritten_names
        (λ c, (ffill ∘ bfill) (reindex (sort_order keys) c)) out
    ∧ columns out !! "recorded_at"
      = Some ((ffill ∘ bfill) (reindex (sort_order keys) keys)).
Proof.
  intros H. pose proof (frame_inv_start df0 (derived_names ++ optional_names)) as Inv.
  pose proof (passes_start df0 overwritten_names) as Hp0.
  unfold create_advanced_features in H.
  apply bind_ok_inv in H as (df1 & Hrec & H).
  pose proof (frame_inv_add_recorded_at _ _ _ _ _ Inv Hrec) as Inv1.
  apply (passes_add_recorded_at _ _ lib _ _ df1) in Hp0; [| written_name | exact Hrec].
  clear Inv. rename Inv1 into Inv.
  destruct Inv as (I1 & I2 & I3 & I4 & I5).
  destruct (I2 "recorded_at") as [keys Hkeys]; [apply list_elem_of_here |].
  assert (frame_inv df0 (derived_names ++ optional_names) ["recorded_at"] df1) as Inv
    by (repeat split; assumption).
  assert (well_formed df0 → length keys = nrows df0) as Hlen.
  { intros Hwf. rewrite <- I1. by eapply I5. }
  clear I1 I2 I3 I4 I5.
  exists df1, keys. split; [exact Hrec |]. split; [exact Hkeys |].
  split; [exact Hlen |]. clear Hrec Hlen.
  pose proof (passes_start df1 (early_names ++ early_optional_names)) as Hp1.
  frame_step H Inv ["recorded_at"].
  frame_step H Inv ["recorded_at"].
  frame_step H Inv ["recorded_at"].
  frame_step H Inv ["day_of_week"].
  frame_step H Inv ["hour"].
  frame_step H Inv ["max_temp"; "min_temp"].
  frame_step H Inv ["max_temp"; "min_temp"].
  apply bind_ok_inv in H as (dfh & Hs & H).
  apply (passes_add_humidity _ _ _ _ dfh) in Hp1;
    [| intros k Hk; apply elem_of_app; by right | left; written_name | exact Hs].
  apply (passes_add_humidity _ _ _ _ dfh) in Hp0; [| names_included | | exact Hs].
  2: { right. intros Hno. apply eq_None_not_Some. intros Hsome.
       destruct Inv as (_ & _ & I3 & _). apply I3 in Hsome.
       apply has_col_is_Some in Hsome. congruence. }
  apply (frame_inv_add_humidity _ _ _ _ Inv) in Hs. clear Inv. rename Hs into Inv.
  frame_step H Inv ["satellite_aod"].
  frame_step H Inv ["satellite_aod"].
  frame_step H Inv ["satellite_aod"].
  frame_step H Inv ["satellite_aod"; "avg_temp"].
  frame_step H Inv ["satellite_aod"; "rainfall"].
  apply bind_ok_inv in H as (dfs & Hs & H).
  unfold sort_values in Hs.
  apply bind_ok_inv in Hs as (keys' & Hk%col_ok_inv & Hs).
  assert (keys' = keys) as ->.
  { rewrite (Hp1 "recorded_at" keys Hkeys) in Hk; [by injection Hk | ].
    apply (bool_decide_unpack _). vm_compute. exact I. }
  clear Hp1. set (order := sort_order keys) in *.
  match type of Inv with
  | frame_inv _ _ _ ?d =>
      apply (passes_fmap _ _ _ d (nrows d) (reindex order)) in Hp0;
      apply (frame_inv_fmap _ _ _ d (reindex order)) in Inv;
      [| intros Hwf s Hl; unfold reindex, order;
         rewrite length_fmap, length_sort_order; by apply Hwf in Hk ];
      assert (columns {| nrows := nrows d; columns := reindex order <$> columns d |}
                !! "recorded_at" = Some (reindex order keys)) as Hrec
        by (cbn; by rewrite lookup_fmap, Hk)
  end.
  injection Hs as Hs. rewrite Hs in Hp0, Inv, Hrec. clear Hs Hk.
  pose proof (passes_start dfs (late_names ++ late_optional_names)) as Hp2.
  apply bind_ok_inv in H as (dfl & Hs & H).
  apply (passes_add_lags _ _ _ _ dfl) in Hp0; [| names_included .. | exact Hs].
  apply (passes_add_lags _ _ _ _ dfl) in Hp2;
    [| intros k Hk; apply elem_of_app; by left
     | intros k Hk; apply elem_of_app; by right | exact Hs].
  apply (frame_inv_add_lags _ _ _ _ Inv) in Hs. clear Inv. rename Hs into Inv.
  apply bind_ok_inv in H as (dfr & Hs & H).
  apply (passes_add_rolling _ _ _ _ dfr) in Hp0; [| names_included | exact Hs].
  apply (passes_add_rolling _ _ _ _ dfr) in Hp2;
    [| intros k Hk; apply elem_of_app; by left | exact Hs].
  apply (frame_inv_add_rolling _ _ _ _ Inv) in Hs. clear Inv. rename Hs into Inv.
  frame_step H Inv ["satellite_aod"].
  frame_step H Inv ["avg_temp"].
  frame_step H Inv ["recorded_at"].
  frame_step H Inv ["day_of_year"].
  frame_step H Inv ["day_of_year"].
  frame_step H Inv ["hour"].
  frame_step H Inv ["hour"].
  injection H as <-.
  match type of Inv with
  | frame_inv _ _ _ ?d =>
      apply (passes_fmap _ _ _ d (nrows d) (ffill ∘ bfill)) in Hp0;
      apply (passes_fmap _ _ _ d (nrows d) (ffill ∘ bfill)) in Hp2;
      apply (frame_inv_fmap _ _ _ d (ffill ∘ bfill)) in Inv;
      [| intros _ s Hl; by rewrite length_fill ]
  end.
  split; [frame_weaken Inv |]. split; [exact Hp0 |].
  apply (Hp2 "recorded_at" _ Hrec).
  apply (bool_decide_unpack _). vm_compute. exact I.
Qed.

Lemma well_formed_map_Forall df :
  map_Forall (λ _ c, length c = nrows df) (columns df) → well_formed df.
Proof. intros H k c Hk. by apply (H k c). Qed.

Lemma test_frame_runs : is_ok (create_advanced_features lib0 test_frame) = true.
Proof. vm_compute. reflexivity. Qed.

(** X17.  The feature pipeline neither adds nor drops rows: for a
    well-formed frame, the frame it returns has the same number of rows and
    every column of it has that many cells. *)
Theorem pipeline_keeps_frame_shape lib df out :
  well_formed df →
  create_advanced_features lib df = Ok out →
  nrows out = nrows df ∧ well_formed out.
Proof.
  intros Hwf H. destruct (pipeline_frame lib df out H) as (df1 & keys & _ & _ & _ & (Hn & _ & _ & _ & Hw) & _).
  split; [exact Hn | by apply Hw].
Qed.

Lemma pipeline_keeps_frame_shape_witness :
  well_formed test_frame
  ∧ ∃ out, create_advanced_features lib0 test_frame = Ok out
           ∧ nrows out = 3%nat ∧ well_formed out.
Proof.
  assert (well_formed test_frame) as Hwf.
  { apply well_formed_map_Forall. apply (bool_decide_unpack _). vm_compute. exact I. }
  split; [exact Hwf |].
  pose proof test_frame_runs as Hrun.
  destruct (create_advanced_features lib0 test_frame) as [out|e] eqn:E;
    [clear Hrun | discriminate Hrun].
  exists out. split; [reflexivity |].
  exact (pipeline_keeps_frame_shape lib0 test_frame out Hwf E).
Defined.

Lemma filter_all {A} (p : A → bool) (l : list A) :
  (∀ x, x ∈ l → p x = true) → List.filter p l = l.
Proof.
  induction l as [|x l IH]; intros H; [done |]. cbn.
  rewrite (H x) by apply list_elem_of_here. f_equal. apply IH.
  intros y Hy. apply H. by apply list_elem_of_further.
Qed.

Lemma pipeline_features_present lib df out f :
  create_advanced_features lib df = Ok out →
  f ∈ get_advanced_feature_list → is_Some (columns out !! f).
Proof.
  intros H Hf. destruct (pipeline_frame lib df out H) as (df1 & keys & _ & _ & _ & (_ & Hp & _) & _).
  apply Hp. revert f Hf. apply Forall_forall.
  apply (bool_decide_unpack _). vm_compute. exact I.
Qed.

(** X18.  Every name of [get_advanced_feature_list] is a column of
    every frame the pipeline returns: the filter of [train_advanced_model]
    keeps all 27 features, and selecting features drawn from the list cannot
    raise a [KeyError]. *)
Theorem feature_list_is_available lib df out :
  create_advanced_features lib df = Ok out →
  available_features get_advanced_feature_list out = get_advanced_feature_list
  ∧ length (available_features get_advanced_feature_list out) = 27%nat
  ∧ ∀ features, Forall (λ f, f ∈ get_advanced_feature_list) features →
                ∃ selected, mapM (col out) features = Ok selected
                            ∧ length selected = length features.
Proof.
  intros H.
  assert (available_features get_advanced_feature_list out = get_advanced_feature_list)
    as Heq.
  { apply filter_all. intros f Hf. apply has_col_is_Some.
    by eapply pipeline_features_present. }
  split; [exact Heq |]. split; [by rewrite Heq |].
  intros features Hall. induction Hall as [|f features Hf _ (selected & Hs & Hl)].
  - by exists [].
  - destruct (pipeline_features_present lib df out f H Hf) as [c Hc].
    exists (c :: selected). cbn [mapM]. rewrite (col_lookup out f c Hc).
    cbn [mbind result_bind]. rewrite Hs. cbn [mbind result_bind length].
    split; [reflexivity | by rewrite Hl].
Qed.

Lemma feature_list_is_available_witness :
  ∃ out, create_advanced_features lib0 test_frame = Ok out
         ∧ available_features get_advanced_feature_list out = get_advanced_feature_list.
Proof.
  pose proof test_frame_runs as Hrun.
  destruct (create_advanced_features lib0 test_frame) as [out|e] eqn:E;
    [clear Hrun | discriminate Hrun].
  exists out. split; [reflexivity |].
  exact (proj1 (feature_list_is_available lib0 test_frame out E)).
Defined.

(** X19.  The pipeline raises on a frame that lacks one of the
    columns satellite_aod, min_temp, max_temp and rainfall. *)
Theorem missing_base_column_raises lib df k :
  k ∈ base_columns → has_col df k = false →
  ∃ e, create_advanced_features lib df = Raise e.
Proof.
  intros Hk Hno. destruct (create_advanced_features lib df) as [out|e] eqn:H;
    [| by exists e].
  exfalso. destruct (pipeline_frame lib df out H) as (df1 & keys & _ & _ & _ & (_ & Hp & _ & Hb & _) & _).
  assert (is_Some (columns out !! k)) as Hout.
  { apply Hp. apply elem_of_app. by left. }
  apply Hb in Hout as [Hw | Hin].
  - unfold base_columns in Hk.
    repeat (apply elem_of_cons in Hk as [-> | Hk];
            [revert Hw; apply (bool_decide_unpack _); vm_compute; exact I |]).
    by apply elem_of_nil in Hk.
  - apply has_col_is_Some in Hin. congruence.
Qed.

Lemma missing_base_column_raises_witness :
  has_col frame_no_rainfall "rainfall" = false
  ∧ ∃ e, create_advanced_features lib0 frame_no_rainfall = Raise e.
Proof.
  split; [reflexivity |].
  apply (missing_base_column_raises lib0 frame_no_rainfall "rainfall");
    [| reflexivity].
  unfold base_columns. apply (bool_decide_unpack _). vm_compute. exact I.
Defined.

(** X20.  The columns of the frame the pipeline returns are the
    columns of its input and the derived columns, and beyond those at most
    the optional ones: no input column is dropped and no other column
    appears. *)
Theorem pipeline_column_set lib df out :
  create_advanced_features lib df = Ok out →
  (∀ k, has_col df k = true → has_col out k = true)
  ∧ (∀ k, k ∈ derived_names → has_col out k = true)
  ∧ (∀ k, has_col out k = true →
          has_col df k = true ∨ k ∈ derived_names ∨ k ∈ optional_names).
Proof.
  intros H. destruct (pipeline_frame lib df out H) as (df1 & keys & _ & _ & _ & (_ & Hp & Hk & Hb & _) & _).
  split; [| split].
  - intros k. rewrite !has_col_is_Some. apply Hk.
  - intros k Hd. apply has_col_is_Some, Hp, elem_of_app. by right.
  - intros k. rewrite !has_col_is_Some. intros [Hw | Hin]%Hb; [| by left].
    right. by apply elem_of_app.
Qed.

Lemma pipeline_column_set_witness :
  ∃ out, create_advanced_features lib0 test_frame = Ok out
         ∧ has_col out "date" = true ∧ has_col out "aod_lag_24" = true.
Proof.
  pose proof test_frame_runs as Hrun.
  destruct (create_advanced_features lib0 test_frame) as [out|e] eqn:E;
    [clear Hrun | discriminate Hrun].
  exists out. split; [reflexivity |].
  destruct (pipeline_column_set lib0 test_frame out E) as (Hkeep & Hder & _).
  split.
  - by apply Hkeep.
  - apply Hder. apply (bool_decide_unpack _). vm_compute. exact I.
Defined.

(** ** The order of the rows *)

Lemma insert_by_time_perm x l : insert_by_time x l ≡ₚ x :: l.
Proof.
  induction l as [|y l IH]; [done |]. cbn [insert_by_time].
  destruct (time_lt y.1 x.1); [| done].
  rewrite IH. apply perm_swap.
Qed.

Lemma sort_pairs_perm (l : list (cell * nat)) : foldr insert_by_time [] l ≡ₚ l.
Proof.
  induction l as [|x l IH]; [done |]. cbn [foldr].
  by rewrite insert_by_time_perm, IH.
Qed.

Lemma sort_order_perm (keys : series) : sort_order keys ≡ₚ seq 0 (length keys).
Proof.
  unfold sort_order. rewrite sort_pairs_perm.
  rewrite snd_zip; [done |]. by rewrite length_seq.
Qed.


Lemma time_lt_asym a b : time_lt a b = true → time_lt b a = false.
Proof.
  destruct a, b; cbn; try done. intros H%Z.ltb_lt. apply Z.ltb_ge. lia.
Qed.

Lemma time_le_trans a b c : time_le a b → time_le b c → time_le a c.
Proof.
  unfold time_le. destruct a, b, c; cbn; try done.
  intros H1%Z.ltb_ge H2%Z.ltb_ge. apply Z.ltb_ge. lia.
Qed.

Lemma insert_by_time_sorted x l :
  sorted_by (λ p q, time_le p.1 q.1) l →
  sorted_by (λ p q, time_le p.1 q.1) (insert_by_time x l).
Proof.
  induction l as [|y l IH]; cbn [insert_by_time sorted_by].
  - by split.
  - intros [Hy Hs]. destruct (time_lt y.1 x.1) eqn:E; cbn [sorted_by].
    + split; [| by apply IH].
      apply Forall_forall. intros z [-> | Hz]%elem_of_insert_by_time.
      * by apply time_lt_asym.
      * revert z Hz. by apply Forall_forall.
    + split; [| by split]. constructor; [exact E |].
      eapply Forall_impl; [exact Hy |]. intros z Hz. cbn in Hz.
      by apply (time_le_trans _ y.1).
Qed.

Lemma sort_pairs_sorted (l : list (cell * nat)) :
  sorted_by (λ p q, time_le p.1 q.1) (foldr insert_by_time [] l).
Proof.
  induction l as [|x l IH]; cbn [foldr]; [done |].
  by apply insert_by_time_sorted.
Qed.

Lemma sorted_by_lookup {A} (R : A → A → Prop) (l : list A) i j a b :
  sorted_by R l → (i < j)%nat → l !! i = Some a → l !! j = Some b → R a b.
Proof.
  revert i j. induction l as [|x l IH]; intros i j Hsorted Hij Hi Hj;
    [by rewrite lookup_nil in Hi |].
  destruct Hsorted as [Hx Hs].
  destruct j as [|j]; [lia |]. cbn in Hj.
  destruct i as [|i]; cbn in Hi.
  - injection Hi as <-. apply list_elem_of_lookup_2 in Hj.
    exact (proj1 (Forall_forall _ _) Hx b Hj).
  - apply (IH i j); [done | lia | done | done].
Qed.

(** The row order of timestamps: the rows come out in ascending time. *)
Lemma sort_order_ascending (T : list Z) :
  ascending (pick 0%Z (sort_order (Time <$> T)) T).
Proof.
  unfold sort_order.
  set (sorted := foldr insert_by_time [] (zip (Time <$> T) (seq 0 (length (Time <$> T))))).
  assert (∀ p, p ∈ sorted → p.1 = Time (default 0%Z (T !! p.2))) as Hkeys.
  { intros [c i] Hp. unfold sorted in Hp. rewrite sort_pairs_perm in Hp.
    apply elem_of_lookup_zip_with in Hp as (n & c' & i' & [= -> ->] & Hc & Hi).
    apply lookup_seq in Hi as [-> _]. cbn.
    rewrite list_lookup_fmap in Hc. destruct (T !! n) as [t|]; [| done].
    cbn in Hc |- *. congruence. }
  pose proof (sort_pairs_sorted (zip (Time <$> T) (seq 0 (length (Time <$> T))))) as Hs.
  fold sorted in Hs.
  intros i j a b Hij Hi Hj. unfold pick in Hi, Hj.
  rewrite list_lookup_fmap in Hi, Hj. rewrite list_lookup_fmap in Hi, Hj.
  destruct (sorted !! i) as [p|] eqn:Ep; [| done].
  destruct (sorted !! j) as [q|] eqn:Eq; [| done].
  cbn in Hi, Hj. injection Hi as <-. injection Hj as <-.
  destruct (decide (i = j)) as [->|Hne]; [by simplify_eq |].
  assert (time_le p.1 q.1) as Hle.
  { apply (sorted_by_lookup _ sorted i j p q Hs); [lia | done | done]. }
  rewrite (Hkeys p), (Hkeys q) in Hle by (by eapply list_elem_of_lookup_2).
  unfold time_le in Hle. cbn in Hle. apply Z.ltb_ge in Hle. exact Hle.
Qed.

Lemma pick_perm {A} (d : A) (order : list nat) (xs : list A) :
  order ≡ₚ seq 0 (length xs) → pick d order xs ≡ₚ xs.
Proof.
  intros Hp. unfold pick. rewrite Hp.
  clear. replace ((λ i, default d (xs !! i)) <$> seq 0 (length xs)) with xs; [done |].
  apply list_eq. intros i. rewrite list_lookup_fmap.
  destruct (decide (i < length xs)%nat) as [Hi|Hi].
  - rewrite lookup_seq_lt by done. cbn.
    destruct (lookup_lt_is_Some_2 xs i Hi) as [x ->]. reflexivity.
  - rewrite lookup_seq_ge by lia. rewrite lookup_ge_None_2 by lia. reflexivity.
Qed.

Lemma bfill_time (ts : list Z) : bfill (Time <$> ts) = Time <$> ts.
Proof. induction ts as [|t ts IH]; [done |]. cbn [fmap list_fmap bfill]. by rewrite IH. Qed.

Lemma ffill_from_time last (ts : list Z) : ffill_from last (Time <$> ts) = Time <$> ts.
Proof.
  revert last. induction ts as [|t ts IH]; intros last; [done |].
  cbn [fmap list_fmap ffill_from]. by rewrite IH.
Qed.

Lemma fill_time (ts : list Z) : (ffill ∘ bfill) (Time <$> ts) = Time <$> ts.
Proof. unfold compose, ffill. by rewrite bfill_time, ffill_from_time. Qed.

Lemma add_recorded_at_timestamped lib df df1 (T : list Z) :
  timestamped df T → add_recorded_at lib df = Ok df1 →
  columns df1 !! "recorded_at" = Some (Time <$> T).
Proof.
  intros Ht H. unfold add_recorded_at in H.
  destruct Ht as [Hrec | [[Hrec Hdate] | (Hrec & Hdate & HT)]].
  - rewrite (has_col_some _ _ _ Hrec), (col_lookup _ _ _ Hrec) in H.
    cbn [mbind result_bind] in H. rewrite series_map_to_datetime in H.
    injection H as <-. apply set_col_same.
  - rewrite (has_col_none _ _ Hrec), (has_col_some _ _ _ Hdate),
      (col_lookup _ _ _ Hdate) in H.
    cbn [mbind result_bind] in H. rewrite series_map_to_datetime in H.
    injection H as <-. apply set_col_same.
  - rewrite (has_col_none _ _ Hrec), (has_col_none _ _ Hdate) in H.
    injection H as <-. rewrite set_col_same, date_range_times, HT. reflexivity.
Qed.

(** X22.  The frame the pipeline returns is sorted by time: its
    recorded_at column holds the timestamps of the input, each as often as
    the input has it, in ascending order. *)
Theorem rows_in_time_order lib df out (T : list Z) :
  timestamped df T →
  create_advanced_features lib df = Ok out →
  ∃ ts, columns out !! "recorded_at" = Some (Time <$> ts)
        ∧ ts ≡ₚ T ∧ ascending ts.
Proof.
  intros Ht H.
  destruct (pipeline_frame lib df out H)
    as (df1 & keys & Hrec & Hkeys & _ & _ & _ & Hout).
  rewrite (add_recorded_at_timestamped lib df df1 T Ht Hrec) in Hkeys.
  injection Hkeys as <-.
  exists (pick 0%Z (sort_order (Time <$> T)) T). split; [| split].
  - rewrite Hout, (reindex_fmap Time 0%Z), fill_time; [done |].
    intros i Hi. apply sort_order_in_range in Hi. by rewrite length_fmap in Hi.
  - apply pick_perm. by rewrite sort_order_perm, length_fmap.
  - apply sort_order_ascending.
Qed.

Lemma rows_in_time_order_witness :
  ∃ out ts, create_advanced_features lib0 test_frame = Ok out
            ∧ columns out !! "recorded_at" = Some (Time <$> ts)
            ∧ ts ≡ₚ [1751331600; 1751328000; 1751335200]%Z ∧ ascending ts.
Proof.
  pose proof test_frame_runs as Hrun.
  destruct (create_advanced_features lib0 test_frame) as [out|e] eqn:E;
    [clear Hrun | discriminate Hrun].
  destruct (rows_in_time_order lib0 test_frame out
              [1751331600; 1751328000; 1751335200]%Z) as (ts & H1 & H2 & H3).
  - right; left. split; reflexivity.
  - exact E.
  - exists out, ts. split; [reflexivity |]. split; [exact H1 |].
    split; [exact H2 | exact H3].
Defined.

Lemma overwritten_names_elem k :
  k ∈ overwritten_names → k ≠ "humidity" ∧ (k ∈ derived_names ∨ k ∈ optional_names).
Proof.
  unfold overwritten_names. rewrite list_elem_of_In, filter_In, <- list_elem_of_In.
  intros [Hin Hne]. split.
  - intros ->. discriminate Hne.
  - by apply elem_of_app.
Qed.

(** X21.  A column of the input that the pipeline does not compute,
    and a humidity column the input supplies, comes out with its cells put
    in the sorted row order (one order for all columns, a permutation of the
    rows of a well-formed frame) and then back- and forward-filled; nothing
    else happens to it. *)
Theorem input_columns_pass_through lib df out :
  create_advanced_features lib df = Ok out →
  ∃ order,
    (well_formed df → (order ≡ₚ seq 0 (nrows df)))
    ∧ ∀ k c, columns df !! k = Some c →
             k = "humidity" ∨ ((k ∉ derived_names) ∧ (k ∉ optional_names)) →
             columns out !! k = Some ((ffill ∘ bfill) (reindex order c)).
Proof.
  intros H.
  destruct (pipeline_frame lib df out H)
    as (df1 & keys & _ & _ & Hlen & _ & Hpass & _).
  exists (sort_order keys). split.
  - intros Hwf. rewrite sort_order_perm. by rewrite Hlen.
  - intros k c Hk Hname. apply (Hpass k c Hk).
    intros [Hne Hin]%overwritten_names_elem. destruct Hname as [-> | [Hd Ho]]; tauto.
Qed.

Lemma input_columns_pass_through_witness :
  ∃ out order,
    create_advanced_features lib0 frame_with_humidity = Ok out
    ∧ columns out !! "humidity"
      = Some ((ffill ∘ bfill) (reindex order (Num <$> [qz 95; qz 10])))
    ∧ columns out !! "station"
      = Some ((ffill ∘ bfill) (reindex order [Str "b"; Str "a"])).
Proof.
  destruct (create_advanced_features lib0 frame_with_humidity) as [out|e] eqn:E;
    [| vm_compute in E; discriminate E].
  destruct (input_columns_pass_through lib0 frame_with_humidity out E)
    as (order & _ & Hpass).
  exists out, order. split; [reflexivity |]. split.
  - apply Hpass; [reflexivity | by left].
  - apply Hpass; [reflexivity | right].
    split; apply (bool_decide_unpack _); vm_compute; exact I.
Defined.

(** ** Lag and rolling features on a frame of observations *)

Lemma bfill_nan_prefix (k : nat) (y : Qc) (ys : list Qc) :
  bfill (replicate k NaN ++ (Num <$> y :: ys))%list
  = (replicate k (Num y) ++ (Num <$> y :: ys))%list.
Proof.
  induction k as [|k IH]; [apply bfill_num |].
  cbn [replicate app bfill]. rewrite IH. f_equal. by destruct k.
Qed.

Lemma bfill_all_nan (n : nat) : bfill (replicate n NaN) = replicate n NaN.
Proof.
  induction n as [|n IH]; [done |]. cbn [replicate bfill]. rewrite IH.
  f_equal. by destruct n.
Qed.

Lemma ffill_all_nan (n : nat) : ffill_from NaN (replicate n NaN) = replicate n NaN.
Proof. induction n as [|n IH]; [done |]. cbn [replicate ffill_from]. by rewrite IH. Qed.

Lemma fill_shift (k : nat) (xs : list Qc) :
  (ffill ∘ bfill) (shift k (Num <$> xs)) = filled_lag k xs.
Proof.
  unfold filled_lag, shift, compose, ffill. rewrite length_fmap.
  destruct (decide (k < length xs)%nat) as [Hk|Hk].
  - rewrite take_app_ge by (rewrite length_replicate; lia).
    rewrite length_replicate, <- fmap_take.
    destruct xs as [|x xs]; [cbn in Hk; lia |]. cbn [length] in Hk.
    assert (take (length (x :: xs) - k) (x :: xs)
            = x :: take (length xs - k) xs) as ->.
    { cbn [length]. replace (S (length xs) - k)%nat with (S (length xs - k)) by lia.
      reflexivity. }
    rewrite bfill_nan_prefix. cbn [head default].
    rewrite <- fmap_replicate, <- fmap_app. apply ffill_from_num.
  - rewrite take_app_le by (rewrite length_replicate; lia).
    rewrite take_replicate. replace (length xs `min` k)%nat with (length xs) by lia.
    by rewrite bfill_all_nan, ffill_all_nan.
Qed.

Lemma filled_lag_lookup (k : nat) (xs : list Qc) i x :
  (k < length xs)%nat → (i < length xs)%nat → xs !! (i - k)%nat = Some x →
  filled_lag k xs !! i = Some (Num x).
Proof.
  intros Hk Hi Hx. unfold filled_lag. rewrite decide_True by done.
  rewrite list_lookup_fmap.
  destruct (decide (i < k)%nat) as [Hik|Hik].
  - rewrite lookup_app_l by (rewrite length_replicate; lia).
    rewrite lookup_replicate_2 by done.
    replace (i - k)%nat with 0%nat in Hx by lia.
    destruct xs as [|x0 xs]; [done |]. cbn in Hx |- *. congruence.
  - rewrite lookup_app_r by (rewrite length_replicate; lia).
    rewrite length_replicate, lookup_take_lt by lia. by rewrite Hx.
Qed.

(** X23.  On numeric observations, each lag column of the returned
    frame is the time-sorted AOD column moved down by the lag, the rows at
    the top taking the first AOD value; with no more rows than the lag the
    column is undefined (NaN) throughout. *)
Theorem lag_features_after_fill lib df (A Tmin Tmax R : list Qc) (T : list Z)
    (G : option series) :
  columns df !! "satellite_aod" = Some (Num <$> A) →
  columns df !! "max_temp" = Some (Num <$> Tmax) →
  columns df !! "min_temp" = Some (Num <$> Tmin) →
  columns df !! "rainfall" = Some (Num <$> R) →
  timestamped df T →
  columns df !! "humidity" = None →
  columns df !! "ground_truth_pm25" = G →
  length A = length T → length Tmin = length T →
  length Tmax = length T → length R = length T →
  ∃ out aod,
    create_advanced_features lib df = Ok out
    ∧ columns out !! "satellite_aod" = Some (Num <$> aod)
    ∧ length aod = length T
    ∧ Forall (λ nl, columns out !! nl.1 = Some (filled_lag nl.2 aod)) lag_columns
    ∧ (∀ k i x, (k < length aod)%nat → (i < length aod)%nat →
                aod !! (i - k)%nat = Some x → filled_lag k aod !! i = Some (Num x))
    ∧ (∀ k, (length aod ≤ k)%nat → filled_lag k aod = replicate (length aod) NaN).
Proof.
  intros Haod Hmax Hmin Hrain Htime Hhum Hg HlA HlTmin HlTmax HlR.
  destruct (pipeline_on_observations lib df A Tmin Tmax R T G)
    as (out & Hout & Ha & _ & _ & _ & _ & Hlag & _); [done .. |].
  set (order := sort_order (Time <$> T)) in *.
  exists out, (pick 0 order A). split; [exact Hout |]. split; [exact Ha |].
  split; [by rewrite length_pick; unfold order; rewrite length_sort_order, length_fmap |].
  split; [| split].
  - eapply Forall_impl; [exact Hlag |]. intros [name k] Hk. cbn [fst snd] in Hk |- *.
    by rewrite Hk, fill_shift.
  - intros k i x. apply filled_lag_lookup.
  - intros k Hk. unfold filled_lag. rewrite decide_False by lia. reflexivity.
Qed.

Lemma lag_features_after_fill_witness :
  ∃ out aod,
    create_advanced_features lib0 test_frame = Ok out
    ∧ columns out !! "satellite_aod" = Some (Num <$> aod)
    ∧ length aod = 3%nat
    ∧ Forall (λ nl, columns out !! nl.1 = Some (filled_lag nl.2 aod)) lag_columns.
Proof.
  destruct (lag_features_after_fill lib0 test_frame
              [qz 300; qz 600; qz 1200] [qz 20; qz 25; qz 35] [qz 30; qz 35; qz 45]
              [0; 0; 0] [1751331600; 1751328000; 1751335200]%Z None)
    as (out & aod & H1 & H2 & H3 & H4 & _);
    [first [ reflexivity | right; left; split; reflexivity ] .. |].
  exists out, aod. split; [exact H1 |]. split; [exact H2 |].
  split; [exact H3 | exact H4].
Defined.

Lemma qsum_bounds (ys : list Qc) (lo hi : Qc) :
  Forall (λ y, lo ≤ y ≤ hi) ys →
  qz (Z.of_nat (length ys)) * lo ≤ qsum ys
  ∧ qsum ys ≤ qz (Z.of_nat (length ys)) * hi.
Proof.
  induction 1 as [|y ys [Hlo Hhi] _ [IH1 IH2]].
  - cbn [length]. assert (qz (Z.of_nat 0) = 0) as -> by (apply Qc_is_canon; reflexivity).
    rewrite !Qcmult_0_l. done.
  - cbn [length]. rewrite qz_succ. change (qsum (y :: ys)) with (y + qsum ys).
    rewrite !Qcmult_plus_distr_l, !Qcmult_1_l.
    split; by apply Qcplus_le_compat.
Qed.

Lemma qz_nat_pos (n : nat) : n ≠ 0%nat → 0 < qz (Z.of_nat n).
Proof.
  intros Hn. unfold Qclt, qz, Qc_of_Z. cbn [this Q2Qc]. rewrite !Qred_correct.
  change 0%Q with (inject_Z 0). rewrite <- Zlt_Qlt. lia.
Qed.

Lemma mean_bounds (ys : list Qc) (lo hi : Qc) :
  ys ≠ [] → Forall (λ y, lo ≤ y ≤ hi) ys → lo ≤ mean ys ≤ hi.
Proof.
  intros Hne Hall. destruct (qsum_bounds ys lo hi Hall) as [H1 H2].
  assert (qz (Z.of_nat (length ys)) ≠ 0) as Hn0.
  { apply qz_pos_ne. by destruct ys. }
  assert (0 < qz (Z.of_nat (length ys))) as Hpos.
  { apply qz_nat_pos. by destruct ys. }
  unfold mean. split.
  - apply (Qcdiv_le_mono _ _ _ Hpos) in H1.
    assert (qz (Z.of_nat (length ys)) * lo / qz (Z.of_nat (length ys)) = lo) as Heq
      by by field.
    by rewrite Heq in H1.
  - apply (Qcdiv_le_mono _ _ _ Hpos) in H2.
    assert (qz (Z.of_nat (length ys)) * hi / qz (Z.of_nat (length ys)) = hi) as Heq
      by by field.
    by rewrite Heq in H2.
Qed.

Lemma rolling_mean_cells_bounds (w : nat) (xs : list Qc) (lo hi : Qc) :
  w ≠ 0%nat → Forall (λ x, lo ≤ x ≤ hi) xs →
  ∃ ms, rolling_mean_cells w xs = Num <$> ms
        ∧ length ms = length xs
        ∧ Forall (λ m, lo ≤ m ≤ hi) ms.
Proof.
  intros Hw Hall.
  exists ((λ i, mean (window_q w i xs)) <$> seq 0 (length xs)).
  assert (∀ i, (i < length xs)%nat → window_q w i xs ≠ []) as Hne.
  { intros i Hi Hnil. apply (f_equal length) in Hnil.
    unfold window_q in Hnil. rewrite length_drop, length_take in Hnil.
    cbn [length] in Hnil. lia. }
  split; [| split].
  - unfold rolling_mean_cells. rewrite <- list_fmap_compose.
    apply list_fmap_ext. intros j i Hi. apply lookup_seq in Hi as [-> Hi]. cbn.
    specialize (Hne j Hi). by destruct (window_q w j xs).
  - by rewrite length_fmap, length_seq.
  - apply Forall_fmap, Forall_forall. intros i Hi. apply elem_of_seq in Hi. cbn.
    apply mean_bounds; [apply Hne; lia |].
    unfold window_q. apply Forall_drop, Forall_take. exact Hall.
Qed.

(** X24.  On numeric observations whose AOD values lie in an
    interval, every rolling AOD mean of the returned frame is a number in
    that interval, one for every row. *)
Theorem rolling_means_within_range lib df (A Tmin Tmax R : list Qc) (T : list Z)
    (G : option series) (lo hi : Qc) :
  columns df !! "satellite_aod" = Some (Num <$> A) →
  columns df !! "max_temp" = Some (Num <$> Tmax) →
  columns df !! "min_temp" = Some (Num <$> Tmin) →
  columns df !! "rainfall" = Some (Num <$> R) →
  timestamped df T →
  columns df !! "humidity" = None →
  columns df !! "ground_truth_pm25" = G →
  length A = length T → length Tmin = length T →
  length Tmax = length T → length R = length T →
  Forall (λ a, lo ≤ a ≤ hi) A →
  ∃ out,
    create_advanced_features lib df = Ok out
    ∧ Forall (λ nw, ∃ ms, columns out !! nw.1 = Some (Num <$> ms)
                          ∧ length ms = length T
                          ∧ Forall (λ m, lo ≤ m ≤ hi) ms)
             aod_rolling_columns.
Proof.
  intros Haod Hmax Hmin Hrain Htime Hhum Hg HlA HlTmin HlTmax HlR Hrange.
  destruct (pipeline_on_observations lib df A Tmin Tmax R T G)
    as (out & Hout & _ & _ & _ & _ & _ & _ & Hroll & _); [done .. |].
  set (order := sort_order (Time <$> T)) in *.
  exists out. split; [exact Hout |].
  assert (Forall (λ a, lo ≤ a ≤ hi) (pick 0 order A)) as Hpick.
  { apply Forall_forall. intros a (i & -> & Hi)%list_elem_of_fmap.
    apply sort_order_in_range in Hi. rewrite length_fmap, <- HlA in Hi.
    destruct (lookup_lt_is_Some_2 A i Hi) as [x Hx]. rewrite Hx. cbn.
    apply list_elem_of_lookup_2 in Hx. revert x Hx. by apply Forall_forall. }
  assert (length (pick 0 order A) = length T) as Hlen.
  { rewrite length_pick. unfold order. by rewrite length_sort_order, length_fmap. }
  apply Forall_forall. intros [name w] Hin.
  pose proof (proj1 (Forall_forall _ _) Hroll _ Hin) as Hcol. cbn [fst snd] in *.
  assert (w ≠ 0%nat) as Hw.
  { unfold aod_rolling_columns in Hin.
    repeat (apply elem_of_cons in Hin as [[= _ ->] | Hin]; [done |]).
    by apply elem_of_nil in Hin. }
  destruct (rolling_mean_cells_bounds w (pick 0 order A) lo hi Hw Hpick)
    as (ms & Hms & Hl & Hb).
  exists ms. rewrite Hcol, Hms, fill_num. split; [done |]. split; [congruence | done].
Qed.

Lemma rolling_means_within_range_witness :
  ∃ out,
    create_advanced_features lib0 test_frame = Ok out
    ∧ Forall (λ nw, ∃ ms, columns out !! nw.1 = Some (Num <$> ms)
                          ∧ length ms = 3%nat
                          ∧ Forall (λ m, qz 300 ≤ m ≤ qz 1200) ms)
             aod_rolling_columns.
Proof.
  apply (rolling_means_within_range lib0 test_frame
           [qz 300; qz 600; qz 1200] [qz 20; qz 25; qz 35] [qz 30; qz 35; qz 45]
           [0; 0; 0] [1751331600; 1751328000; 1751335200]%Z None (qz 300) (qz 1200));
    first [ reflexivity | right; left; split; reflexivity | idtac ].
  repeat constructor; done.
Defined.

(** ** The time-of-day category *)

Lemma qz_le (a b : Z) : qz a ≤ qz b ↔ (a ≤ b)%Z.
Proof.
  rewrite Zle_Qle. unfold Qcle, qz, Qc_of_Z. cbn [this Q2Qc].
  by rewrite ?Qred_correct.
Qed.

Lemma qz_lt (a b : Z) : qz a < qz b ↔ (a < b)%Z.
Proof.
  rewrite Zlt_Qlt. unfold Qclt, qz, Qc_of_Z. cbn [this Q2Qc].
  by rewrite ?Qred_correct.
Qed.

Lemma hour_of_range (t : Z) : (0 ≤ hour_of t ≤ 23)%Z.
Proof. unfold hour_of. Z.to_euclidean_division_equations. lia. Qed.

(** X25.  The hour of a timestamp lies between 0 and 23 and always
    falls in a time category: night up to 6 (hour 0 included), morning up to
    12, afternoon up to 18 and evening from 19 on. *)
Theorem time_category_of_hour (t : Z) :
  (0 ≤ hour_of t ≤ 23)%Z
  ∧ time_category_of (qz (hour_of t)) = Str (hour_label (hour_of t))
  ∧ (hour_label (hour_of t) = "night" ↔ (hour_of t ≤ 6)%Z)
  ∧ (hour_label (hour_of t) = "evening" ↔ (19 ≤ hour_of t)%Z).
Proof.
  pose proof (hour_of_range t) as Hr. split; [exact Hr |].
  set (h := hour_of t) in *. unfold time_category_of, hour_label.
  assert (qz 0 = 0) as H0 by (apply Qc_is_canon; reflexivity).
  rewrite <- H0.
  destruct (decide (qz h < qz 0)) as [Hneg | _];
    [apply (proj1 (qz_lt h 0)) in Hneg; lia |].
  split; [| split].
  - destruct (decide (qz h ≤ qz 6)) as [H6 | H6].
    { apply (proj1 (qz_le h 6)) in H6. by rewrite (proj2 (Z.leb_le h 6)). }
    rewrite (proj2 (Z.leb_gt h 6)) by (rewrite qz_le in H6; lia).
    destruct (decide (qz h ≤ qz 12)) as [H12 | H12].
    { apply (proj1 (qz_le h 12)) in H12. by rewrite (proj2 (Z.leb_le h 12)). }
    rewrite (proj2 (Z.leb_gt h 12)) by (rewrite qz_le in H12; lia).
    destruct (decide (qz h ≤ qz 18)) as [H18 | H18].
    { apply (proj1 (qz_le h 18)) in H18. by rewrite (proj2 (Z.leb_le h 18)). }
    rewrite (proj2 (Z.leb_gt h 18)) by (rewrite qz_le in H18; lia).
    destruct (decide (qz h ≤ qz 24)) as [H24 | H24]; [done |].
    rewrite qz_le in H24. lia.
  - destruct (h <=? 6)%Z eqn:E6; [apply Z.leb_le in E6; by split |].
    apply Z.leb_gt in E6.
    destruct (h <=? 12)%Z; [split; [discriminate | lia] |].
    destruct (h <=? 18)%Z; split; first [discriminate | lia].
  - destruct (h <=? 6)%Z eqn:E6; [apply Z.leb_le in E6; split; [discriminate | lia] |].
    destruct (h <=? 12)%Z eqn:E12; [apply Z.leb_le in E12; split; [discriminate | lia] |].
    destruct (h <=? 18)%Z eqn:E18; [apply Z.leb_le in E18; split; [discriminate | lia] |].
    apply Z.leb_gt in E18. split; [lia | done].
Qed.

(** ** The advanced tier on a numeric observation *)



















